(** * generate-react-app: template copier, project-name validation and the
      post-generation command sequence

    A shallow embedding of
    - the template module that [index.ts] imports as [./template]
      (renderTemplate, renderFileName, copyTemplateFiles, copyTemplate; in
      the sources it is the second part of [src/questions.ts]);
    - [validateProjectName] and [validateAndGetProject] of
      [src/project-manager.ts];
    - [installDependencies] and [initializeGit] of [src/commands.ts],
      [runCommand] of [src/utils/command-runner.ts] and [isNpxPresent] of
      [src/utils/is-npx-present.ts];
    - [generateProject] and [create] of [src/index.ts], with the validation
      of the flags and the choice of the questions to ask inside [create];
    - [directoryToProjectName] of [src/project-manager.ts] and
      [getQuestions] of [src/questions.ts].

    Conventions.
    - JavaScript strings are Rocq [string]s.  Every character the code
      inspects (the sentinel, the delimiters, the forbidden characters, the
      path separator, the five XML specials) is ASCII, so the byte view and
      the UTF-16 view agree on where those characters occur.
    - An absolute, normalised POSIX path is the list of its components.
    - The destination file system is a finite map from paths to nodes.  The
      template catalog is a tree of directory entries that a copy only
      reads: the target directory is taken to lie outside the catalog.
    - Effects are threaded through a state-and-exception monad over a [world]
      (destination file system + trace of observable events).  An awaited
      promise is a call that returns, throws, or never settles. *)

From Stdlib Require Import String Ascii List Bool Lia.
From stdpp Require Import gmap strings list pretty.

Import ListNotations.
Set Warnings "-register-all".
Local Open Scope string_scope.
Local Open Scope list_scope.

(* ===================================================================== *)
(** ** Regular expressions (the fragment used by the sources) *)
(* ===================================================================== *)

Module Regex.

(** Abstract syntax of the patterns that occur in the sources:
    character classes (plain or negated), concatenation, alternation and
    iteration. *)
Inductive re : Type :=
| Void
| Eps
| Class (negated : bool) (members : list ascii)
| Cat (r1 r2 : re)
| Alt (r1 r2 : re)
| Star (r : re).

(** [r+] *)
Definition Plus (r : re) : re := Cat r (Star r).

Definition in_class (negated : bool) (members : list ascii) (c : ascii) : bool :=
  xorb negated (existsb (Ascii.eqb c) members).

Fixpoint nullable (r : re) : bool :=
  match r with
  | Void => false
  | Eps => true
  | Class _ _ => false
  | Cat r1 r2 => nullable r1 && nullable r2
  | Alt r1 r2 => nullable r1 || nullable r2
  | Star _ => true
  end.

Fixpoint deriv (c : ascii) (r : re) : re :=
  match r with
  | Void => Void
  | Eps => Void
  | Class n m => if in_class n m c then Eps else Void
  | Cat r1 r2 =>
      if nullable r1
      then Alt (Cat (deriv c r1) r2) (deriv c r2)
      else Cat (deriv c r1) r2
  | Alt r1 r2 => Alt (deriv c r1) (deriv c r2)
  | Star r1 => Cat (deriv c r1) (Star r1)
  end.

(** [/^r$/.test(s)]: the whole subject has to be consumed.  Without the
    [m] flag [^] and [$] match only at the two ends of the input. *)
Fixpoint test_anchored (r : re) (s : string) : bool :=
  match s with
  | EmptyString => nullable r
  | String c s' => test_anchored (deriv c r) s'
  end.

(** Declarative meaning of a pattern. *)
Inductive Matches : re -> string -> Prop :=
| MEps : Matches Eps ""
| MClass n m c : in_class n m c = true -> Matches (Class n m) (String c "")
| MCat r1 r2 s1 s2 :
    Matches r1 s1 -> Matches r2 s2 -> Matches (Cat r1 r2) (s1 +:+ s2)
| MAltL r1 r2 s : Matches r1 s -> Matches (Alt r1 r2) s
| MAltR r1 r2 s : Matches r2 s -> Matches (Alt r1 r2) s
| MStarNil r : Matches (Star r) ""
| MStarCons r s1 s2 :
    Matches r s1 -> Matches (Star r) s2 -> Matches (Star r) (s1 +:+ s2).

End Regex.

(* ===================================================================== *)
(** ** project-manager.ts *)
(* ===================================================================== *)

Module ProjectManager.

(** The characters excluded by the negated class of the pattern: less-than,
    greater-than, colon, semicolon, comma, question mark, double quote
    (code 34), star, bar, slash and backslash. *)
Definition forbidden : list ascii :=
  ["<"; ">"; ":"; ";"; ","; "?"; "034"; "*"; "|"; "/"; "\"]%char.

(** [const valid = /^[^...]+$/.test(name); return valid;] with the class
    above: one or more characters outside it, anchored at both ends. *)
Definition validateProjectName (name : string) : bool :=
  Regex.test_anchored (Regex.Plus (Regex.Class true forbidden)) name.

End ProjectManager.

(* ===================================================================== *)
(** ** JavaScript values, thrown errors and the outcome of a call *)
(* ===================================================================== *)

Module Js.

(** The values that reach the template engine: strings, [undefined] and
    plain objects. *)
Inductive value : Type :=
| JUndefined
| JString (s : string)
| JObject (fields : list (string * value)).

(** Own-property lookup in an object literal (the first binding wins in
    this representation; object literals here never repeat a key). *)
Fixpoint get (key : string) (fields : list (string * value)) : option value :=
  match fields with
  | [] => None
  | (k, v) :: rest => if String.eqb k key then Some v else get key rest
  end.

(** [x || ""] on an optional string: [undefined] and the empty string are
    both falsy. *)
Definition or_empty (x : option string) : string :=
  match x with
  | Some s => s
  | None => ""
  end.

(** An optional property as a value. *)
Definition of_option (x : option string) : value :=
  match x with
  | Some s => JString s
  | None => JUndefined
  end.

Inductive errno : Type := ENOENT | ENOTDIR | EISDIR | EEXIST.

(** Thrown values.  [ErrorWithCause m c] is [new Error(m, { cause: c })]. *)
Inductive error : Type :=
| SystemError (code : errno) (syscall : string) (path : list string)
| SpawnError (code : string)
| EjsError (message : string)
| TypeError (message : string)
| OutsideModel (code : string)
| Error (message : string)
| ErrorWithCause (message : string) (cause : error).

(** How a call ends: it returns, throws, terminates the process
    ([process.exit]) or never settles (an awaited promise that stays
    pending). *)
Inductive outcome (A : Type) : Type :=
| Ok (a : A)
| Throw (e : error)
| Exit (code : nat)
| Hang.

Arguments Ok {A} a.
Arguments Throw {A} e.
Arguments Exit {A} code.
Arguments Hang {A}.

(** [try { return body } catch (error) { throw handler(error) }] for a
    synchronous body. *)
Definition rethrow {A : Type} (body : outcome A) (wrap : error -> error) : outcome A :=
  match body with
  | Throw e => Throw (wrap e)
  | r => r
  end.

Definition is_blank (c : ascii) : bool :=
  existsb (Ascii.eqb c) [" "; "009"]%char.

(** White space and line terminators that the JavaScript grammar skips
    (ASCII part). *)
Definition is_space (c : ascii) : bool :=
  existsb (Ascii.eqb c) [" "; "009"; "010"; "011"; "012"; "013"]%char.

(** [p] is a prefix of [s]: the remainder after it. *)
Fixpoint strip_prefix (p s : string) : option string :=
  match p with
  | EmptyString => Some s
  | String a p' =>
      match s with
      | EmptyString => None
      | String b s' => if Ascii.eqb a b then strip_prefix p' s' else None
      end
  end.

Definition starts_with (s p : string) : bool :=
  match strip_prefix p s with
  | Some _ => true
  | None => false
  end.

(** [p] occurs somewhere in [s]. *)
Fixpoint includes (s p : string) : bool :=
  starts_with s p ||
  match s with
  | EmptyString => false
  | String _ s' => includes s' p
  end.

End Js.

Export Js(value(..), errno(..), error(..), outcome(..)).

(* ===================================================================== *)
(** ** The template engine (npm package ejs, functions of lib/ejs.js)

    The engine is a dependency of the repository, not part of it.  The
    copier is embedded over an arbitrary engine (a section variable below);
    this module is an executable model of the engine itself, used where a
    claim depends on what the engine does.  It follows lib/ejs.js of ejs 3
    function by function: [createRegex], [parseTemplateText],
    [generateSource], [scanLine], [_addOutput], [escapeXML] and the
    generated [__append].  The JavaScript inside a tag is covered when it is
    a data path ([NAME] or [object.field]); any other code is reported as
    [Throw (OutsideModel code)]. *)
(* ===================================================================== *)

Module Ejs.
Import Js.

Record options : Type := {
  delimiter : option string;
  openDelimiter : option string;
  closeDelimiter : option string
}.

(** [opts.x || _DEFAULT_x]: an absent or empty option takes the default. *)
Definition or_default (x : option string) (d : string) : string :=
  match x with
  | Some EmptyString | None => d
  | Some s => s
  end.

(** The delimiters in force, as the [Template] constructor resolves them. *)
Record delimiters : Type := { o : string; d : string; c : string }.

Definition resolve (opts : options) : delimiters :=
  {| o := or_default (openDelimiter opts) "<";
     d := or_default (delimiter opts) "%";
     c := or_default (closeDelimiter opts) ">" |}.

(** The alternatives of [_REGEX_STRING] after [createRegex] substituted the
    delimiters, in the order of the alternation. *)
Definition alternatives (dl : delimiters) : list string :=
  let o := o dl in let d := d dl in let c := c dl in
  [ o +:+ d +:+ d; d +:+ d +:+ c; o +:+ d +:+ "="; o +:+ d +:+ "-";
    o +:+ d +:+ "_"; o +:+ d +:+ "#"; o +:+ d; d +:+ c;
    "-" +:+ d +:+ c; "_" +:+ d +:+ c ].

(** The alternative matched at the start of [s], if any: the first one in
    the order of the alternation. *)
Fixpoint match_here (alts : list string) (s : string) : option string :=
  match alts with
  | [] => None
  | a :: rest => if starts_with s a then Some a else match_here rest s
  end.

Definition flush (lit : string) (toks : list string) : list string :=
  match lit with
  | EmptyString => toks
  | _ => lit :: toks
  end.

(** [parseTemplateText]: the template cut at every match of the regex,
    matches included; text between matches is kept, empty text is not.
    [skip] counts the characters of the current match still to pass. *)
Fixpoint parseTemplateText (alts : list string) (s : string) (skip : nat)
    (lit : string) : list string :=
  match s with
  | EmptyString => flush lit []
  | String ch s' =>
      match skip with
      | S k => parseTemplateText alts s' k lit
      | O =>
          match match_here alts s with
          | Some tag =>
              flush lit (tag :: parseTemplateText alts s' (String.length tag - 1) "")
          | None => parseTemplateText alts s' 0 (lit +:+ String ch "")
          end
      end
  end.

(** [templateText.replace(/[ \t]*<%_/gm, '<%_')]: blanks before the
    slurping open tag are dropped.  The pattern is written with the default
    delimiters in the library. *)
Fixpoint slurp_before (s : string) (skip : nat) (blanks : string) : string :=
  match s with
  | EmptyString => blanks
  | String ch s' =>
      match skip with
      | S k => String ch (slurp_before s' k "")
      | O =>
          if starts_with s "<%_" then String ch (slurp_before s' 2 "")
          else if is_blank ch then slurp_before s' 0 (blanks +:+ String ch "")
          else blanks +:+ String ch (slurp_before s' 0 "")
      end
  end.

(** [.replace(/_%>[ \t]*/gm, '_%>')]: blanks after the slurping close tag
    are dropped. *)
Fixpoint slurp_after (s : string) (skip : nat) (dropping : bool) : string :=
  match s with
  | EmptyString => EmptyString
  | String ch s' =>
      match skip with
      | S k => String ch (slurp_after s' k (Nat.eqb k 0))
      | O =>
          if dropping && is_blank ch then slurp_after s' 0 true
          else if starts_with s "_%>" then String ch (slurp_after s' 2 false)
          else String ch (slurp_after s' 0 false)
      end
  end.

Inductive mode : Type := EVAL | ESCAPED | RAW | COMMENT | LITERAL.

(** One statement of the generated function body. *)
Inductive instr : Type :=
| Append (text : string)
| AppendEscaped (code : string)
| AppendRaw (code : string)
| Run (code : string).

(** [line.replace(/^(?:\r\n|\r|\n)/, '')] *)
Definition strip_linebreak (line : string) : string :=
  match line with
  | String "013" (String "010" rest) => rest
  | String "013" rest => rest
  | String "010" rest => rest
  | _ => line
  end.

(** [_addOutput]: the statements it adds and the new [truncate] flag. *)
Definition addOutput (line : string) (truncate : bool) : list instr * bool :=
  let line := if truncate then strip_linebreak line else line in
  match line with
  | EmptyString => ([], false)
  | _ => ([Append line], false)
  end.

(** [scanLine]: statements added, new mode, new [truncate] flag. *)
Definition scanLine (dl : delimiters) (line : string) (m : option mode)
    (truncate : bool) : list instr * option mode * bool :=
  let o := o dl in let d := d dl in let c := c dl in
  if String.eqb line (o +:+ d) || String.eqb line (o +:+ d +:+ "_")
  then ([], Some EVAL, truncate)
  else if String.eqb line (o +:+ d +:+ "=") then ([], Some ESCAPED, truncate)
  else if String.eqb line (o +:+ d +:+ "-") then ([], Some RAW, truncate)
  else if String.eqb line (o +:+ d +:+ "#") then ([], Some COMMENT, truncate)
  else if String.eqb line (o +:+ d +:+ d)
  then ([Append (o +:+ d)], Some LITERAL, truncate)
  else if String.eqb line (d +:+ d +:+ c)
  then ([Append (d +:+ c)], Some LITERAL, truncate)
  else if String.eqb line (d +:+ c) || String.eqb line ("-" +:+ d +:+ c)
          || String.eqb line ("_" +:+ d +:+ c)
  then
    let out := match m with
               | Some LITERAL => fst (addOutput line truncate)
               | _ => []
               end in
    (out, None, starts_with line "-" || starts_with line "_")
  else
    match m with
    | Some EVAL => ([Run line], m, truncate)
    | Some ESCAPED => ([AppendEscaped line], m, truncate)
    | Some RAW => ([AppendRaw line], m, truncate)
    | Some COMMENT => ([], m, truncate)
    | Some LITERAL | None =>
        let '(out, t) := addOutput line truncate in (out, m, t)
    end.

(** The guard of [generateSource]: an opening tag that is not the escaped
    one. *)
Definition is_opening (dl : delimiters) (line : string) : bool :=
  starts_with line (o dl +:+ d dl) && negb (starts_with line (o dl +:+ d dl +:+ d dl)).

(** [closing == d + c || closing == '-' + d + c || closing == '_' + d + c]
    for [closing = matches[index + 2]]. *)
Definition is_closing (dl : delimiters) (closing : option string) : bool :=
  match closing with
  | Some t =>
      String.eqb t (d dl +:+ c dl) || String.eqb t ("-" +:+ d dl +:+ c dl)
      || String.eqb t ("_" +:+ d dl +:+ c dl)
  | None => false
  end.

(** The [forEach] of [generateSource] over the parsed template. *)
Fixpoint generateSource (dl : delimiters) (matches : list string)
    (m : option mode) (truncate : bool) : outcome (list instr) :=
  match matches with
  | [] => Ok []
  | line :: rest =>
      if is_opening dl line && negb (is_closing dl (nth_error rest 1))
      then Throw (EjsError ("Could not find matching close tag for "
                            +:+ String "034" line +:+ String "034" "."))
      else
        let '(out, m', t') := scanLine dl line m truncate in
        match generateSource dl rest m' t' with
        | Ok more => Ok (out ++ more)
        | r => r
        end
  end.

(** [escapeXML]: [undefined] gives the empty string, otherwise the five
    characters of [_MATCH_HTML] are replaced by [_ENCODE_HTML_RULES]. *)
Definition encode_char (ch : ascii) : string :=
  if Ascii.eqb ch "&" then "&amp;"
  else if Ascii.eqb ch "<" then "&lt;"
  else if Ascii.eqb ch ">" then "&gt;"
  else if Ascii.eqb ch "034" then "&#34;"
  else if Ascii.eqb ch "'" then "&#39;"
  else String ch "".

Fixpoint encode (s : string) : string :=
  match s with
  | EmptyString => EmptyString
  | String ch s' => encode_char ch +:+ encode s'
  end.

(** [String(v)] *)
Definition to_string (v : value) : string :=
  match v with
  | JUndefined => "undefined"
  | JString s => s
  | JObject _ => "[object Object]"
  end.

Definition escapeXML (markup : value) : string :=
  match markup with
  | JUndefined => ""
  | v => encode (to_string v)
  end.

(** [__append(s)]: [if (s !== undefined && s !== null) __output += s] *)
Definition appended (v : value) : string :=
  match v with
  | JUndefined => ""
  | v => to_string v
  end.

(** Identifiers of the data paths: a letter, underscore or dollar, then
    letters, digits, underscores or dollars. *)
Definition is_ident_start (ch : ascii) : bool :=
  let n := nat_of_ascii ch in
  (Nat.leb 65 n && Nat.leb n 90) || (Nat.leb 97 n && Nat.leb n 122)
  || Ascii.eqb ch "_" || Ascii.eqb ch "$".

Definition is_ident_part (ch : ascii) : bool :=
  let n := nat_of_ascii ch in
  is_ident_start ch || (Nat.leb 48 n && Nat.leb n 57).

Definition is_identifier (s : string) : bool :=
  match s with
  | EmptyString => false
  | String ch rest =>
      is_ident_start ch && forallb is_ident_part (list_ascii_of_string rest)
  end.

(** Words that are not identifiers in an expression. *)
Definition reserved : list string :=
  [ "break"; "case"; "catch"; "class"; "const"; "continue"; "debugger";
    "default"; "delete"; "do"; "else"; "enum"; "export"; "extends"; "false";
    "finally"; "for"; "function"; "if"; "import"; "in"; "instanceof"; "let";
    "new"; "null"; "return"; "static"; "super"; "switch"; "this"; "throw";
    "true"; "try"; "typeof"; "var"; "void"; "while"; "with"; "yield";
    "await"; "async"; "of"; "undefined"; "arguments"; "eval" ].

Fixpoint drop_spaces (s : string) : string :=
  match s with
  | String ch rest => if is_space ch then drop_spaces rest else s
  | EmptyString => EmptyString
  end.

(** The code of a tag without surrounding white space. *)
Definition trim (s : string) : string :=
  String.rev (drop_spaces (String.rev (drop_spaces s))).

(** [stripSemi]: [str.replace(/;(\s*$)/, '$1')], one trailing semicolon. *)
Definition stripSemi (s : string) : string :=
  match String.rev (drop_spaces (String.rev s)) with
  | EmptyString => s
  | body =>
      match String.rev body with
      | String ";" rbody =>
          String.rev rbody +:+
          String.substring (String.length body) (String.length s - String.length body) s
      | _ => s
      end
  end.

(** The dot-separated parts of a data path. *)
Fixpoint split_dots (s : string) (cur : string) : list string :=
  match s with
  | EmptyString => [cur]
  | String ch rest =>
      if Ascii.eqb ch "." then cur :: split_dots rest ""
      else split_dots rest (cur +:+ String ch "")
  end.

(** The properties that an object literal inherits from
    [Object.prototype]. *)
Definition inherited : list string :=
  [ "constructor"; "__proto__"; "__defineGetter__"; "__defineSetter__";
    "__lookupGetter__"; "__lookupSetter__"; "hasOwnProperty";
    "isPrototypeOf"; "propertyIsEnumerable"; "toLocaleString"; "toString";
    "valueOf" ].

(** Member access [v.f1.f2...] on the modelled values.  A name that is not
    an own property reads as [undefined], unless the object inherits it:
    the inherited values are functions and accessors, which are not
    modelled. *)
Fixpoint member (code : string) (v : value) (fields : list string) : outcome value :=
  match fields with
  | [] => Ok v
  | f :: rest =>
      match v with
      | JObject props =>
          match get f props with
          | Some v' => member code v' rest
          | None =>
              if existsb (String.eqb f) inherited
              then Throw (OutsideModel code)
              else member code JUndefined rest
          end
      | JUndefined =>
          Throw (TypeError ("Cannot read properties of undefined (reading '"
                            +:+ f +:+ "')"))
      | JString _ => Throw (OutsideModel code)
      end
  end.

(** The value of the expression of an output tag, evaluated inside
    [with (locals)]: a name bound in the data, followed by property
    accesses.  Names not bound in the data resolve outside the data (a
    global or a ReferenceError) and are not modelled. *)
Definition evaluate (locals : list (string * value)) (code : string) : outcome value :=
  match split_dots (trim (stripSemi code)) "" with
  | name :: fields =>
      if forallb is_identifier (name :: fields)
         && negb (existsb (String.eqb name) reserved)
      then match get name locals with
           | Some v => member code v fields
           | None => Throw (OutsideModel code)
           end
      else Throw (OutsideModel code)
  | [] => Throw (OutsideModel code)
  end.

(** Running the generated function: the output string. *)
Fixpoint execute (locals : list (string * value)) (body : list instr)
    (output : string) : outcome string :=
  match body with
  | [] => Ok output
  | Append text :: rest => execute locals rest (output +:+ text)
  | AppendEscaped code :: rest =>
      match evaluate locals code with
      | Ok v => execute locals rest (output +:+ escapeXML v)
      | Throw e => Throw e
      | Exit n => Exit n
      | Hang => Hang
      end
  | AppendRaw code :: rest =>
      match evaluate locals code with
      | Ok v => execute locals rest (output +:+ appended v)
      | Throw e => Throw e
      | Exit n => Exit n
      | Hang => Hang
      end
  | Run code :: rest =>
      match drop_spaces code with
      | EmptyString => execute locals rest output
      | _ => Throw (OutsideModel code)
      end
  end.

(** Option names that [render] copies from the data when it is called
    without an options argument ([_OPTS_PASSED_IN_DATA]). *)
Definition opts_passed_in_data : list string :=
  [ "delimiter"; "scope"; "context"; "debug"; "compileDebug"; "client";
    "_with"; "rmWhitespace"; "strict"; "filename"; "async" ].

Definition no_options : options :=
  {| delimiter := None; openDelimiter := None; closeDelimiter := None |}.

(** The delimiters in force when no option is given. *)
Definition default_delimiters : delimiters := resolve no_options.

(** [ejs.render(template, data, opts)].  With two arguments the options are
    taken from the data; data that binds one of those names is outside the
    model. *)
Definition render (template : string) (data : list (string * value))
    (opts : option options) : outcome string :=
  let run (opts : options) :=
    let dl := resolve opts in
    let text := slurp_after (slurp_before template 0 "") 0 false in
    match generateSource dl (parseTemplateText (alternatives dl) text 0 "") None false with
    | Ok body => execute data body ""
    | Throw e => Throw e
    | Exit n => Exit n
    | Hang => Hang
    end in
  match opts with
  | Some opts => run opts
  | None =>
      if existsb (fun k => match get k data with Some _ => true | None => false end)
                 opts_passed_in_data
      then Throw (OutsideModel template)
      else run no_options
  end.

End Ejs.

(* ===================================================================== *)
(** ** Paths (node:path, POSIX flavour) *)
(* ===================================================================== *)

Module Path.

(** The segments of a string between slashes. *)
Fixpoint segments (s : string) (cur : string) : list string :=
  match s with
  | EmptyString => [cur]
  | String ch rest =>
      if Ascii.eqb ch "/" then cur :: segments rest ""
      else segments rest (cur +:+ String ch "")
  end.

(** Normalisation, one segment at a time: empty segments and [.] vanish,
    [..] removes the last component (the root is its own parent). *)
Definition step (base : list string) (seg : string) : list string :=
  if String.eqb seg "" || String.eqb seg "." then base
  else if String.eqb seg ".." then removelast base
  else base ++ [seg].

(** [path.join(base, name)] for an absolute normalised [base]. *)
Definition join (base : list string) (name : string) : list string :=
  fold_left step (segments name "") base.

(** The string form of an absolute path. *)
Definition to_string (p : list string) : string :=
  match p with
  | [] => "/"
  | _ => String.concat "" (map (fun seg => "/" +:+ seg) p)
  end.

(** [path.dirname(p)] *)
Definition dirname (p : list string) : list string := removelast p.

(** [path.basename(name)]: the text after the last slash, trailing
    slashes set aside.  The name is not normalised: the base name of [b/.]
    is [.], and it is empty when the name holds nothing but slashes. *)
Definition basename (name : string) : string :=
  default "" (last (List.filter (fun seg => negb (String.eqb seg ""))
                                (segments name ""))).

End Path.

(* ===================================================================== *)
(** ** The world: destination file system and trace of observable events *)
(* ===================================================================== *)

Module World.

(** A node of the destination file system. *)
Inductive node : Type :=
| FileNode (content : string)
| DirNode.

(** How a child process settles: the [close] event with its exit code
    ([None] is the [null] code of a killed process), the [error] event, or
    neither. *)
Inductive settlement : Type :=
| Closed (code : option nat)
| Errored (e : error)
| NeverSettles.

Inductive event : Type :=
| EvMkdir (p : list string)
| EvWrite (p : list string) (content : string)
| EvSpawn (command : string) (args : list string) (cwd : option (list string))
          (stdio : option string)
| EvSettled (s : settlement)
| EvSpinner (method : string) (text : string)
| EvConsole (method : string) (text : string).

Record world : Type := {
  files : gmap (list string) node;
  trace : list event
}.

(** A computation with effects on the world. *)
Definition M (A : Type) : Type := world -> outcome A * world.

Definition ret {A : Type} (a : A) : M A := fun w => (Ok a, w).

Definition bind {A B : Type} (m : M A) (k : A -> M B) : M B :=
  fun w =>
    match m w with
    | (Ok a, w') => k a w'
    | (Throw e, w') => (Throw e, w')
    | (Exit n, w') => (Exit n, w')
    | (Hang, w') => (Hang, w')
    end.

(** A synchronous call that returns or throws without touching the world. *)
Definition lift {A : Type} (r : outcome A) : M A := fun w => (r, w).

Definition throw {A : Type} (e : error) : M A := lift (Throw e).

(** [process.exit(code)] *)
Definition exit {A : Type} (code : nat) : M A := lift (Exit code).

(** [try { body } catch (error) { handler(error) }] *)
Definition try_catch {A : Type} (body : M A) (handler : error -> M A) : M A :=
  fun w =>
    match body w with
    | (Throw e, w') => handler e w'
    | r => r
    end.

Definition emit (e : event) : M unit :=
  fun w => (Ok tt, {| files := files w; trace := trace w ++ [e] |}).

End World.

Export World(node(..), settlement(..), event(..), world(..), M).

Declare Scope m_scope.
Delimit Scope m_scope with M.
Notation "x <- m ;; k" := (World.bind m (fun x => k))
  (at level 100, m at next level, right associativity) : m_scope.
Notation "m ;; k" := (World.bind m (fun _ => k))
  (at level 100, right associativity) : m_scope.

(* ===================================================================== *)
(** ** File-system calls (node:fs) *)
(* ===================================================================== *)

Module Fs.
Import World.

(** An entry of the template catalog, as [readdirSync] with
    [withFileTypes] lists it: a file with its text, or a directory with the
    entries below it.  The catalog is only read during a copy. *)
Inductive entry : Type :=
| File (name : string) (content : string)
| Directory (name : string) (children : list entry).

Definition name (e : entry) : string :=
  match e with
  | File n _ => n
  | Directory n _ => n
  end.

Fixpoint find (n : string) (entries : list entry) : option entry :=
  match entries with
  | [] => None
  | e :: rest => if String.eqb (name e) n then Some e else find n rest
  end.

(** Path resolution in the catalog: the entries of a directory, the text of
    a file, or the error code of the failed lookup. *)
Inductive resolved : Type :=
| IsDir (children : list entry)
| IsFile (content : string)
| Missing (code : errno).

Fixpoint resolve (root : list entry) (p : list string) : resolved :=
  match p with
  | [] => IsDir root
  | n :: p' =>
      match find n root with
      | Some (Directory _ children) => resolve children p'
      | Some (File _ content) =>
          match p' with
          | [] => IsFile content
          | _ => Missing ENOTDIR
          end
      | None => Missing ENOENT
      end
  end.

(** [fs.existsSync(p)] on the catalog. *)
Definition existsSync (root : list entry) (p : list string) : bool :=
  match resolve root p with
  | Missing _ => false
  | _ => true
  end.

(** [fs.readdirSync(p, { withFileTypes: true })] on the catalog. *)
Definition readdirSync (root : list entry) (p : list string) : outcome (list entry) :=
  match resolve root p with
  | IsDir children => Ok children
  | IsFile _ => Throw (SystemError ENOTDIR "scandir" p)
  | Missing code => Throw (SystemError code "scandir" p)
  end.

(** The walk of [mkdir -p]: existing directories are passed, missing ones
    are created, a file in the way is an error ([EEXIST] at the last
    component, [ENOTDIR] before it). *)
Fixpoint mkdirp (fs : gmap (list string) node) (done rest : list string)
    : errno + gmap (list string) node :=
  match rest with
  | [] => inr fs
  | n :: rest' =>
      let q := done ++ [n] in
      match fs !! q with
      | Some DirNode => mkdirp fs q rest'
      | Some (FileNode _) =>
          inl (match rest' with [] => EEXIST | _ => ENOTDIR end)
      | None => mkdirp (<[q := DirNode]> fs) q rest'
      end
  end.

(** [fs.mkdirSync(p, { recursive: true })] *)
Definition mkdirSync (p : list string) : M unit :=
  fun w =>
    match mkdirp (files w) [] p with
    | inl code => (Throw (SystemError code "mkdir" p), w)
    | inr fs' => (Ok tt, {| files := fs'; trace := trace w ++ [EvMkdir p] |})
    end.

(** Every directory on the way to a file has to exist. *)
Fixpoint walk (fs : gmap (list string) node) (done rest : list string) : option errno :=
  match rest with
  | [] => None
  | n :: rest' =>
      let q := done ++ [n] in
      match fs !! q with
      | Some DirNode => walk fs q rest'
      | Some (FileNode _) => Some ENOTDIR
      | None => Some ENOENT
      end
  end.

(** [fs.writeFileSync(p, content)]: the file is created or replaced. *)
Definition writeFileSync (p : list string) (content : string) : M unit :=
  fun w =>
    match p with
    | [] => (Throw (SystemError EISDIR "open" p), w)
    | _ =>
        match walk (files w) [] (removelast p) with
        | Some code => (Throw (SystemError code "open" p), w)
        | None =>
            match files w !! p with
            | Some DirNode => (Throw (SystemError EISDIR "open" p), w)
            | _ => (Ok tt, {| files := <[p := FileNode content]> (files w);
                              trace := trace w ++ [EvWrite p content] |})
            end
        end
    end.

(** [fs.existsSync(p)] on the destination side. *)
Definition exists_in (w : world) (p : list string) : bool :=
  match p with
  | [] => true
  | _ => match files w !! p with Some _ => true | None => false end
  end.

End Fs.

Export Fs(entry(..)).

(* ===================================================================== *)
(** ** types.ts *)
(* ===================================================================== *)

Module Types.

Inductive Language : Type := javascript | typescript.
Inductive Bundler : Type := webpack | vite | rollup.
Inductive PackageManager : Type := npm | yarn | pnpm | bun.

Definition language_name (l : Language) : string :=
  match l with javascript => "javascript" | typescript => "typescript" end.

Definition bundler_name (b : Bundler) : string :=
  match b with webpack => "webpack" | vite => "vite" | rollup => "rollup" end.

Definition packageManager_name (pm : PackageManager) : string :=
  match pm with npm => "npm" | yarn => "yarn" | pnpm => "pnpm" | bun => "bun" end.

Record GenerateProjectOptions : Type := {
  targetPath : list string;
  slug : string;
  description : string;
  authorName : option string;
  authorEmail : option string;
  authorUrl : option string;
  repoUrl : option string;
  language : Language;
  bundler : Bundler;
  packageManager : PackageManager
}.

Record Answers : Type := {
  a_slug : string;
  a_description : string;
  a_authorName : option string;
  a_authorEmail : option string;
  a_authorUrl : option string;
  a_repoUrl : option string;
  a_language : Language;
  a_bundler : Bundler;
  a_packageManager : PackageManager
}.

(** The options record as the object the engine receives; an unset optional
    property is present with the value [undefined], as [create] builds it. *)
Definition options_object (options : GenerateProjectOptions) : list (string * value) :=
  [ ("targetPath", JString (Path.to_string (targetPath options)));
    ("slug", JString (slug options));
    ("description", JString (description options));
    ("authorName", Js.of_option (authorName options));
    ("authorEmail", Js.of_option (authorEmail options));
    ("authorUrl", Js.of_option (authorUrl options));
    ("repoUrl", Js.of_option (repoUrl options));
    ("language", JString (language_name (language options)));
    ("bundler", JString (bundler_name (bundler options)));
    ("packageManager", JString (packageManager_name (packageManager options))) ].

End Types.

Export Types(Language(..), Bundler(..), PackageManager(..),
             GenerateProjectOptions(..), Answers(..)).

(* ===================================================================== *)
(** ** template.ts *)
(* ===================================================================== *)

Module Template.
Import World Types.
Local Open Scope m_scope.

Section Engine.

(** [ejs.render] *)
Variable ejs_render :
  string -> list (string * value) -> option Ejs.options -> outcome string.

(** The directory tree the templates are read from. *)
Variable catalog : list entry.

(** The data object that [renderTemplate] hands to the engine. *)
Definition locals (options : GenerateProjectOptions) : list (string * value) :=
  [ ("PACKAGE_NAME", JString (slug options));
    ("DESCRIPTION", JString (description options));
    ("AUTHOR_NAME", JString (Js.or_empty (authorName options)));
    ("AUTHOR_EMAIL", JString (Js.or_empty (authorEmail options)));
    ("AUTHOR_URL", JString (Js.or_empty (authorUrl options)));
    ("REPO_URL", JString (Js.or_empty (repoUrl options)));
    ("PACKAGE_MANAGER", JString (packageManager_name (packageManager options)));
    ("options", JObject (options_object options)) ].

(** The options object that [renderTemplate] hands to the engine. *)
Definition braces : option Ejs.options :=
  Some {| Ejs.delimiter := None;
          Ejs.openDelimiter := Some "{{";
          Ejs.closeDelimiter := Some "}}" |}.

(** [renderTemplate(content, options)] *)
Definition renderTemplate (content : string) (options : GenerateProjectOptions)
    : outcome string :=
  Js.rethrow
    (ejs_render content (locals options) braces)
    (fun error => ErrorWithCause "Failed to render template" error).

(** [fileName.replace(/^\$/, empty)]: one leading dollar sign is removed. *)
Definition strip_sentinel (fileName : string) : string :=
  match fileName with
  | String "$" rest => rest
  | _ => fileName
  end.

(** [renderFileName(fileName, options)] *)
Definition renderFileName (fileName : string) (options : GenerateProjectOptions)
    : outcome string :=
  Js.rethrow
    (ejs_render (strip_sentinel fileName) (options_object options) None)
    (fun error => ErrorWithCause ("Failed to render file name: " +:+ fileName) error).

(** The body of the [for (const file of files)] loop of
    [copyTemplateFiles].  The recursive call on a directory lists the
    subdirectory it was handed, which in the read-only catalog is the list
    of children of the entry; the inner loop is [copyEntries] below. *)
Fixpoint copyEntry (options : GenerateProjectOptions) (file : entry)
    (targetPath : list string) {struct file} : M unit :=
  destName <- lift (renderFileName (Fs.name file) options) ;;
  let destPath := Path.join targetPath destName in
  match file with
  | Directory _ children =>
      Fs.mkdirSync destPath ;;
      (fix loop (files : list entry) : M unit :=
         match files with
         | [] => ret tt
         | f :: rest => copyEntry options f destPath ;; loop rest
         end) children
  | File _ content =>
      processedContent <- lift (renderTemplate content options) ;;
      Fs.writeFileSync destPath processedContent
  end.

(** The loop itself, over the listing of one directory. *)
Fixpoint copyEntries (options : GenerateProjectOptions) (files : list entry)
    (targetPath : list string) : M unit :=
  match files with
  | [] => ret tt
  | file :: rest =>
      copyEntry options file targetPath ;;
      copyEntries options rest targetPath
  end.

(** [copyTemplateFiles(templatePath, targetPath, options)] *)
Definition copyTemplateFiles (templatePath targetPath : list string)
    (options : GenerateProjectOptions) : M unit :=
  files <- lift (Fs.readdirSync catalog templatePath) ;;
  copyEntries options files targetPath.

(** [copyTemplate(templatePath, targetPath, options)] *)
Definition copyTemplate (templatePath targetPath : list string)
    (options : GenerateProjectOptions) : M unit :=
  let commonTemplatePath := Path.join (Path.dirname templatePath) "common" in
  (if Fs.existsSync catalog commonTemplatePath
   then copyTemplateFiles commonTemplatePath targetPath options
   else ret tt) ;;
  copyTemplateFiles templatePath targetPath options.

End Engine.

End Template.

(* ===================================================================== *)
(** ** utils/command-runner.ts and commands.ts *)
(* ===================================================================== *)

Module Commands.
Import World.
Local Open Scope m_scope.

Section Platform.

(** [process.platform === "win32"] *)
Variable isWin : bool.

(** The environment: how the child process spawned in a given world
    settles, and the file system it leaves behind. *)
Variable child :
  world -> string -> list string -> option (list string) -> option string ->
  settlement * gmap (list string) node.

(** [buildCommand(command, args)] *)
Definition buildCommand (command : string) (args : list string)
    : string * list string :=
  if isWin then ("cmd.exe", "/c" :: command :: args) else (command, args).

(** [error.code === "ENOENT"]: the errors of the file system and of a
    spawn carry a code. *)
Definition is_enoent (error : error) : bool :=
  match error with
  | SpawnError code => String.eqb code "ENOENT"
  | SystemError ENOENT _ _ => true
  | _ => false
  end.

Definition show_code (code : option nat) : string :=
  match code with
  | Some n => pretty n
  | None => "null"
  end.

(** [runCommand(command, args, cwd, stdio)], awaited.  The child is spawned
    with the option [shell: true]: the command runs in a shell, so that a
    program that is not installed makes the shell close with a code other
    than 0 (127 for a POSIX shell), and the [error] event is that of a
    process that cannot be spawned. *)
Definition runCommand (command : string) (args : list string)
    (cwd : option (list string)) (stdio : option string) : M unit :=
  fun w =>
    let '(cmd, cmdArgs) := buildCommand command args in
    let w1 := {| files := files w;
                 trace := trace w ++ [EvSpawn cmd cmdArgs cwd stdio] |} in
    let '(s, fs') := child w1 cmd cmdArgs cwd stdio in
    let w2 := {| files := fs'; trace := trace w1 ++ [EvSettled s] |} in
    match s with
    | Closed (Some 0) => (Ok tt, w2)
    | Closed code =>
        (Throw (Error (command +:+ " " +:+ String.concat " " args
                       +:+ " failed with code " +:+ show_code code)), w2)
    | Errored e => (Throw e, w2)
    | NeverSettles => (Hang, w2)
    end.

(** [installDependencies(targetPath, packageManager)] *)
Definition installDependencies (targetPath : list string) (packageManager : string)
    : M unit :=
  let '(command, args) :=
    if String.eqb packageManager "yarn" then ("yarn", ["install"])
    else if String.eqb packageManager "pnpm" then ("pnpm", ["install"])
    else if String.eqb packageManager "bun" then ("bun", ["install"])
    else ("npm", ["install"]) in
  runCommand command args (Some targetPath) None.

(** [initializeGit(targetPath)] *)
Definition initializeGit (targetPath : list string) : M unit :=
  try_catch
    (runCommand "git" ["init"] (Some targetPath) (Some "ignore") ;;
     runCommand "git" ["add"; "."] (Some targetPath) (Some "ignore") ;;
     runCommand "git" ["commit"; "-m"; String "034" ("Initial commit" +:+ String "034" "")]
                (Some targetPath) (Some "ignore"))
    (fun _error => emit (EvConsole "warn" "Warning: Git initialization failed")).

(** [isNpxPresent()] of utils/is-npx-present.ts *)
Definition isNpxPresent : M unit :=
  try_catch
    (runCommand "npx" ["--help"] None None)
    (fun error =>
       if is_enoent error
       then emit (EvConsole "log" "Couldn't find npx! Please install it by running npm install -g npx") ;;
            exit 1
       else throw error).

End Platform.

End Commands.

(* ===================================================================== *)
(** ** index.ts and validateAndGetProject of project-manager.ts *)
(* ===================================================================== *)

Module Index.
Import World Types.
Local Open Scope m_scope.

(** The positional argument [project-name] as the parser of the command
    line hands it to [create]: absent, or the text typed, or a number when
    the text typed is one (a whole number here). *)
Inductive positional : Type :=
| Absent
| Text (name : string)
| Number (n : Z).

(** The message of the TypeError that [path.join] throws for a number. *)
Definition not_a_string (n : Z) : string :=
  "The " +:+ String "034" ("path" +:+ String "034"
    (" argument must be of type string. Received type number ("
     +:+ pretty n +:+ ")")).

Section Program.

Variable ejs_render :
  string -> list (string * value) -> option Ejs.options -> outcome string.
Variable catalog : list entry.
Variable isWin : bool.
Variable child :
  world -> string -> list string -> option (list string) -> option string ->
  settlement * gmap (list string) node.

(** [__dirname] and [process.cwd()] *)
Variable dirname : list string.
Variable cwd : list string.

(** Lines 39 to 140 of [create]: the git user, the validation of the flags
    and the prompt round trip.  They produce the answers, or end the
    process, and are left to the environment. *)
Variable collectAnswers : string -> M Answers.

(** [validateAndGetProject(projectName)].  The test [!projectName] holds
    of a missing name, of the empty string and of the number zero; for any
    other number [path.join] throws. *)
Definition validateAndGetProject (projectName : positional)
    : M (list string * string) :=
  match projectName with
  | Absent | Text EmptyString | Number Z0 =>
      emit (EvConsole "log" "Please specify the project name") ;;
      exit 1
  | Number n => throw (TypeError (not_a_string n))
  | Text projectName =>
      let folder := Path.join cwd projectName in
      fun w =>
        if Fs.exists_in w folder
        then (emit (EvConsole "log" "A folder already exists") ;; exit 1) w
        else
          let basename := Path.basename projectName in
          if negb (ProjectManager.validateProjectName basename)
          then (emit (EvConsole "log" "Cannot create a project with this name") ;;
                exit 1) w
          else ret (folder, basename) w
  end.

(** [generateProject(options)] *)
Definition generateProject (options : GenerateProjectOptions) : M unit :=
  Fs.mkdirSync (targetPath options) ;;
  let templatePath :=
    Path.join (Path.join dirname "templates")
      (language_name (language options) +:+ "-" +:+ bundler_name (bundler options)) in
  Template.copyTemplate ejs_render catalog templatePath (targetPath options) options.

(** The message of the [catch] block: [error.message] of an [Error]. *)
Definition message (e : error) : string :=
  match e with
  | SystemError _ syscall p => syscall +:+ " " +:+ Path.to_string p
  | SpawnError code => code
  | EjsError m => m
  | TypeError m => m
  | OutsideModel code => code
  | Error m => m
  | ErrorWithCause m _ => m
  end.

(** The argument object of the call to [generateProject] in [create]. *)
Definition options_of (folder : list string) (answers : Answers)
    : GenerateProjectOptions :=
  {| targetPath := folder;
     slug := a_slug answers;
     description := a_description answers;
     authorName := a_authorName answers;
     authorEmail := a_authorEmail answers;
     authorUrl := a_authorUrl answers;
     repoUrl := a_repoUrl answers;
     language := a_language answers;
     bundler := a_bundler answers;
     packageManager := a_packageManager answers |}.

(** The part of [create] from the spinner on (lines 142 to 194). *)
Definition generate (folder : list string) (basename : string) (answers : Answers)
    : M unit :=
  emit (EvSpinner "start" "Generating template") ;;
  try_catch
    (generateProject (options_of folder answers) ;;
     emit (EvSpinner "text" "Installing dependencies...") ;;
     Commands.installDependencies isWin child folder
       (packageManager_name (a_packageManager answers)) ;;
     emit (EvSpinner "text" "Initializing git repository...") ;;
     Commands.initializeGit isWin child folder ;;
     emit (EvSpinner "succeed" "Template generated successfully!") ;;
     emit (EvConsole "log" ("Created " +:+ a_slug answers +:+ " in " +:+ Path.to_string folder)) ;;
     emit (EvConsole "log" "Next steps:") ;;
     emit (EvConsole "log" ("  cd " +:+ basename)) ;;
     let runCommand :=
       match a_packageManager answers with
       | npm => "npm run"
       | yarn => "yarn"
       | pm => packageManager_name pm +:+ " run"
       end in
     let testCommand :=
       match a_packageManager answers with
       | npm => "npm test"
       | yarn => "yarn test"
       | pm => packageManager_name pm +:+ " test"
       end in
     emit (EvConsole "log" ("  " +:+ runCommand +:+ " build")) ;;
     emit (EvConsole "log" ("  " +:+ testCommand)) ;;
     emit (EvConsole "log" "Happy coding!"))
    (fun error =>
       emit (EvSpinner "fail" "Failed to generate template") ;;
       emit (EvConsole "error" ("Error: " +:+ message error)) ;;
       exit 1).

(** [create(argv)] *)
Definition create (projectName : positional) : M unit :=
  fb <- validateAndGetProject projectName ;;
  Commands.isNpxPresent isWin child ;;
  answers <- collectAnswers (snd fb) ;;
  generate (fst fb) (snd fb) answers.

End Program.

End Index.

(* ===================================================================== *)
(** ** Vocabulary of the statements *)
(* ===================================================================== *)

Module Spec.
Import World Types.

(** A name or text free of the engine's delimiters in their default form:
    it contains no opening [<%] and no closing [%>]. *)
Definition token_free (s : string) : bool :=
  negb (Js.includes s "<%") && negb (Js.includes s "%>").

(** The placeholder for a data name, in the delimiters [renderTemplate]
    configures and with the escaped-output marker, as the template files and
    the tests of the repository write it. *)
Definition placeholder (name : string) : string := "{{%=" +:+ name +:+ "%}}".

(** The same placeholder with the raw-output marker. *)
Definition raw_placeholder (name : string) : string := "{{%-" +:+ name +:+ "%}}".

(** The five characters that the engine's escaped output rewrites. *)
Definition xml_special (ch : ascii) : bool :=
  existsb (Ascii.eqb ch) ["&"; "<"; ">"; "034"; "'"]%char.

Definition xml_plain (s : string) : bool :=
  forallb (fun ch => negb (xml_special ch)) (list_ascii_of_string s).

Definition is_file (w : world) (p : list string) : Prop :=
  exists content, files w !! p = Some (FileNode content).

Definition is_dir (w : world) (p : list string) : Prop :=
  files w !! p = Some DirNode.

(** The events a run added to the trace. *)
Definition added (w w' : world) (t : list event) : Prop :=
  trace w' = trace w ++ t.

Definition is_fs_event (e : event) : bool :=
  match e with
  | EvMkdir _ | EvWrite _ _ => true
  | _ => false
  end.

(** From [w] to [w'] the destination only grew: the trace was extended by
    file-system events, files stayed files, directories stayed directories,
    and every file written on the way is a file in [w']. *)
Definition only_grew (w w' : world) : Prop :=
  exists t,
    added w w' t /\
    forallb is_fs_event t = true /\
    (forall p, is_file w p -> is_file w' p) /\
    (forall p, is_dir w p -> is_dir w' p) /\
    (forall p content, In (EvWrite p content) t -> is_file w' p).

Definition is_spawn (e : event) : bool :=
  match e with
  | EvSpawn _ _ _ _ => true
  | _ => false
  end.

(** The program a spawn event runs: the command itself, or the command
    behind [cmd.exe /c] on Windows. *)
Definition program (e : event) : option string :=
  match e with
  | EvSpawn command args _ _ =>
      if String.eqb command "cmd.exe"
      then match args with
           | _ :: wrapped :: _ => Some wrapped
           | _ => Some command
           end
      else Some command
  | _ => None
  end.

(** The spawn of the dependency installation. *)
Definition is_install (e : event) : bool :=
  match program e with
  | Some command => existsb (String.eqb command) ["npm"; "yarn"; "pnpm"; "bun"]
  | None => false
  end.

(** The spawn of a git command. *)
Definition is_git (e : event) : bool :=
  match program e with
  | Some command => String.eqb command "git"
  | None => false
  end.

(** Spinner and console output. *)
Definition is_ui (e : event) : bool :=
  match e with
  | EvSpinner _ _ | EvConsole _ _ => true
  | _ => false
  end.

(** What [initializeGit] may add to the trace: git processes, their
    settlements, and the one warning. *)
Definition is_git_step (e : event) : bool :=
  match e with
  | EvSpawn _ _ _ _ => is_git e
  | EvSettled _ => true
  | EvConsole method text =>
      String.eqb method "warn" && String.eqb text "Warning: Git initialization failed"
  | _ => false
  end.

(** The spawn of npx. *)
Definition is_npx (e : event) : bool :=
  match program e with
  | Some command => String.eqb command "npx"
  | None => false
  end.

(** The first argument handed to the program a spawn event runs. *)
Definition subcommand (e : event) : option string :=
  match e with
  | EvSpawn command args _ _ =>
      if String.eqb command "cmd.exe"
      then match args with
           | _ :: _ :: first :: _ => Some first
           | _ => None
           end
      else match args with
           | first :: _ => Some first
           | [] => None
           end
  | _ => None
  end.

(** A query of the git configuration, as [getGitUser] makes two: the spawn
    of git config. *)
Definition is_git_query (e : event) : bool :=
  is_git e &&
  match subcommand e with
  | Some first => String.eqb first "config"
  | None => false
  end.

(** The spawn of a git command other than a query of the configuration;
    the commands of [initializeGit] are such. *)
Definition is_git_command (e : event) : bool :=
  is_git e && negb (is_git_query e).

Definition is_settlement (e : event) : bool :=
  match e with
  | EvSettled _ => true
  | _ => false
  end.

(** What lines 39 to 140 of [create] may add to the trace: console output,
    the queries of the git configuration and their settlements. *)
Definition is_asking (e : event) : bool :=
  is_ui e || is_git_query e || is_settlement e.

(** What [create] adds to the trace before the spinner starts: the above,
    and the spawn of npx. *)
Definition is_preamble (e : event) : bool :=
  is_asking e || is_npx e.

(** What the spawn of [command] looks like in the trace. *)
Definition spawn_event (isWin : bool) (command : string) (args : list string)
    (cwd : option (list string)) (stdio : option string) : event :=
  EvSpawn (fst (Commands.buildCommand isWin command args))
          (snd (Commands.buildCommand isWin command args)) cwd stdio.

(** The world in which [create] calls [generateProject]: the spinner has
    been started. *)
Definition start_world (w : world) : world :=
  {| files := files w;
     trace := trace w ++ [EvSpinner "start" "Generating template"] |}.

(** From [w] to [w'] the trace was extended by events that satisfy [P]. *)
Definition traced (P : event -> bool) (w w' : world) : Prop :=
  exists t, added w w' t /\ forallb P t = true.

(** Every child process settles. *)
Definition settles
    (child : world -> string -> list string -> option (list string) -> option string ->
             settlement * gmap (list string) node) : Prop :=
  forall w command args cwd stdio,
    fst (child w command args cwd stdio) <> NeverSettles.

(** A computation whose every run, however it ends, relates the world
    before to the world after by [R]. *)
Definition respects {A : Type} (R : world -> world -> Prop) (m : M A) : Prop :=
  forall w r w', m w = (r, w') -> R w w'.

(** [e] is the entry found in the tree [files] by following the source
    names [names]. *)
Inductive Member : list entry -> list string -> entry -> Prop :=
| Member_here files e :
    In e files -> Member files [Fs.name e] e
| Member_below files d children names e :
    In (Directory d children) files -> Member children names e ->
    Member files (d :: names) e.

(** A single path component: not empty, not [.], not [..], no slash. *)
Definition component (n : string) : bool :=
  negb (String.eqb n "") && negb (String.eqb n ".") && negb (String.eqb n "..")
  && forallb (fun ch => negb (Ascii.eqb ch "/")) (list_ascii_of_string n).

(** The last text written at [p] in a sequence of writes. *)
Fixpoint last_write (p : list string) (writes : list (list string * string))
    : option string :=
  match writes with
  | [] => None
  | (q, text) :: rest =>
      match last_write p rest with
      | Some later => Some later
      | None => if decide (q = p) then Some text else None
      end
  end.

(** From [w] to [w'] the files are as the sequence of writes leaves them:
    a path written in the sequence holds the last text written there, and a
    file at a path the sequence does not write is untouched. *)
Definition settled (writes : list (list string * string)) (w w' : world) : Prop :=
  forall p,
    match last_write p writes with
    | Some text => files w' !! p = Some (FileNode text)
    | None => forall c, files w !! p = Some (FileNode c) ->
                        files w' !! p = Some (FileNode c)
    end.

(** The messages an error carries, its own and those of its causes. *)
Fixpoint messages (e : error) : list string :=
  match e with
  | SystemError _ syscall p => [syscall; Path.to_string p]
  | SpawnError code => [code]
  | EjsError m => [m]
  | TypeError m => [m]
  | OutsideModel code => [code]
  | Error m => [m]
  | ErrorWithCause m cause => m :: messages cause
  end.

Definition mentions (e : error) (s : string) : bool :=
  existsb (fun m => Js.includes m s) (messages e).

Section Rendered.

Variable ejs_render :
  string -> list (string * value) -> option Ejs.options -> outcome string.
Variable options : GenerateProjectOptions.

(** The files a template tree gives rise to, in the order the copier visits
    them: destination path and rendered text of each file whose name, the
    names above it and text render. *)
Fixpoint rendered_entry (file : entry) (targetPath : list string)
    : list (list string * string) :=
  match Template.renderFileName ejs_render (Fs.name file) options with
  | Ok destName =>
      let destPath := Path.join targetPath destName in
      match file with
      | File _ content =>
          match Template.renderTemplate ejs_render content options with
          | Ok text => [(destPath, text)]
          | _ => []
          end
      | Directory _ children =>
          flat_map (fun f => rendered_entry f destPath) children
      end
  | _ => []
  end.

Definition rendered (files : list entry) (targetPath : list string)
    : list (list string * string) :=
  flat_map (fun f => rendered_entry f targetPath) files.

(** The rendered names along a chain of source names. *)
Definition renders_to (names dests : list string) : Prop :=
  Forall2 (fun n d => Template.renderFileName ejs_render n options = Ok d) names dests.

(** Every name of the tree that renders, renders to a single path
    component. *)
Fixpoint name_ok (file : entry) : bool :=
  match Template.renderFileName ejs_render (Fs.name file) options with
  | Ok d => component d
  | _ => true
  end &&
  match file with
  | File _ _ => true
  | Directory _ children => forallb name_ok children
  end.

Definition well_named (files : list entry) : bool := forallb name_ok files.

(** Every name and every text of the tree renders. *)
Fixpoint renders (file : entry) : bool :=
  match Template.renderFileName ejs_render (Fs.name file) options with
  | Ok _ => true
  | _ => false
  end &&
  match file with
  | File _ content =>
      match Template.renderTemplate ejs_render content options with
      | Ok _ => true
      | _ => false
      end
  | Directory _ children => forallb renders children
  end.

(** The destination of every entry of the tree is there already below
    [targetPath]: a file for a file, a directory for a directory. *)
Definition in_place (files : list entry) (targetPath : list string) (w : world) : Prop :=
  forall names e dests,
    Member files names e -> renders_to names dests ->
    match e with
    | File _ _ => is_file w (targetPath ++ dests)
    | Directory _ _ => is_dir w (targetPath ++ dests)
    end.

End Rendered.

End Spec.

(* ===================================================================== *)
(** ** Concrete catalogs and worlds *)
(* ===================================================================== *)

Module Sample.
Import World Types.

Definition options : GenerateProjectOptions :=
  {| targetPath := ["work"; "my-app"];
     slug := "my-app";
     description := "";
     authorName := None;
     authorEmail := None;
     authorUrl := None;
     repoUrl := None;
     language := typescript;
     bundler := vite;
     packageManager := npm |}.

(** The directory of the program and the template root that
    [generateProject] computes for [options]. *)
Definition dirname : list string := ["app"].
Definition templatePath : list string := ["app"; "templates"; "typescript-vite"].

(** A world in which the target directory exists and is empty. *)
Definition world0 : world :=
  {| files := <[ ["work"; "my-app"] := DirNode ]> {[ ["work"] := DirNode ]};
     trace := [] |}.

(** A catalog is the root directory holding [app/templates]. *)
Definition catalog_of (templates : list entry) : list entry :=
  [Directory "app" [Directory "templates" templates]].

(** A common README overridden by the specific one, and a sentinel-named
    ignore file. *)
Definition catalog_readme : list entry :=
  catalog_of
    [ Directory "common" [File "README.md" "# Common {{%=PACKAGE_NAME%}}"];
      Directory "typescript-vite"
        [ File "README.md" "# TS {{%=PACKAGE_NAME%}}";
          File "$.gitignore" "node_modules";
          Directory "src" [Directory "components" [File "Button.tsx" "export {}"]] ] ].

(** No common tree. *)
Definition catalog_no_common : list entry :=
  catalog_of [Directory "typescript-vite" [File "README.md" "# TS {{%=PACKAGE_NAME%}}"]].

(** A common tree, and no tree for the chosen language and bundler. *)
Definition catalog_common_only : list entry :=
  catalog_of [Directory "common" [File "README.md" "# Common {{%=PACKAGE_NAME%}}"]].

(** A common tree whose README has an unclosed tag, and no tree for the
    chosen language and bundler. *)
Definition catalog_common_unclosed : list entry :=
  catalog_of [Directory "common" [File "README.md" "{{%= PACKAGE_NAME"]].

(** Two entries of the specific tree render to the same name. *)
Definition catalog_shadow (first second : entry) : list entry :=
  catalog_of
    [ Directory "common" [File "x" "common"];
      Directory "typescript-vite" [first; second] ].

(** A file whose text has an unclosed tag, after a file that renders. *)
Definition catalog_unclosed_tag : list entry :=
  catalog_of
    [ Directory "typescript-vite"
        [ File "README.md" "# TS {{%=PACKAGE_NAME%}}";
          File "a.txt" "{{%= PACKAGE_NAME" ] ].

(** A file that does not render, listed before a README that the common
    tree has too. *)
Definition catalog_broken_sibling : list entry :=
  catalog_of
    [ Directory "common" [File "README.md" "# Common {{%=PACKAGE_NAME%}}"];
      Directory "typescript-vite"
        [ File "A.txt" "{{%= PACKAGE_NAME";
          File "README.md" "# TS {{%=PACKAGE_NAME%}}" ] ].

(** A directory named by the sentinel alone. *)
Definition catalog_sentinel_dir : list entry :=
  catalog_of [Directory "typescript-vite" [Directory "$" [File "c.txt" "x"]]].

Definition answers : Answers :=
  {| a_slug := "my-app";
     a_description := "";
     a_authorName := None;
     a_authorEmail := None;
     a_authorUrl := None;
     a_repoUrl := None;
     a_language := typescript;
     a_bundler := vite;
     a_packageManager := npm |}.

(** A machine on which every command but git closes with code 0, and git
    is not installed: the commands run in a shell, which closes with code
    127 when it does not find the program.  No child process touches the
    files. *)
Definition child_without_git (w : world) (command : string) (args : list string)
    (cwd : option (list string)) (stdio : option string)
    : settlement * gmap (list string) node :=
  if String.eqb command "git"
  then (Closed (Some 127), files w)
  else (Closed (Some 0), files w).

(** Lines 39 to 140 of [create] on a machine where the two queries of the
    git configuration close with code 0, no flag is given and the answers
    of the prompt are [answers]. *)
Definition answers_after_queries (basename : string) : M Answers :=
  (emit (EvSpawn "git" ["config"; "--get"; "user.name"] None None) ;;
   emit (EvSettled (Closed (Some 0))) ;;
   emit (EvSpawn "git" ["config"; "--get"; "user.email"] None None) ;;
   emit (EvSettled (Closed (Some 0))) ;;
   ret answers)%M.

(** A world in which the target directory does not exist yet. *)
Definition world_before : world :=
  {| files := {[ ["work"] := DirNode ]}; trace := [] |}.

(** A world in which the target directory holds the directory src. *)
Definition world_with_src : world :=
  {| files := <[ ["work"; "my-app"; "src"] := DirNode ]> (files world0); trace := [] |}.

(** A world in which the target directory holds an earlier README. *)
Definition world_with_readme : world :=
  {| files := <[ ["work"; "my-app"; "README.md"] := FileNode "old" ]> (files world0);
     trace := [] |}.

End Sample.

(* ===================================================================== *)
(** ** project-manager.ts: directoryToProjectName *)
(* ===================================================================== *)

Module ProjectName.

(** The class [a-z0-9]. *)
Definition is_lower_alnum (ch : ascii) : bool :=
  let n := nat_of_ascii ch in
  (Nat.leb 97 n && Nat.leb n 122) || (Nat.leb 48 n && Nat.leb n 57).

(** [.replace(/[^a-z0-9]+/g, "-")]: the pattern is greedy and global, so
    every maximal run of characters outside the class is replaced by one
    hyphen.  [inside] tells that the previous character belonged to the run
    being replaced. *)
Fixpoint hyphenate (s : string) (inside : bool) : string :=
  match s with
  | EmptyString => EmptyString
  | String ch s' =>
      if is_lower_alnum ch then String ch (hyphenate s' false)
      else if inside then hyphenate s' true
      else String "-" (hyphenate s' true)
  end.

(** The first alternative of [/^-+|-+$/g]: the hyphens at the start. *)
Fixpoint drop_leading (s : string) : string :=
  match s with
  | String "-" s' => drop_leading s'
  | _ => s
  end.

(** The second alternative: the hyphens at the end. *)
Fixpoint drop_trailing (s : string) : string :=
  match s with
  | EmptyString => EmptyString
  | String ch s' =>
      match drop_trailing s' with
      | EmptyString => if Ascii.eqb ch "-" then EmptyString else String ch EmptyString
      | kept => String ch kept
      end
  end.

(** [String.prototype.toLowerCase] restricted to ASCII text: the letters A
    to Z are mapped to a to z. *)
Definition lower_char (ch : ascii) : ascii :=
  let n := nat_of_ascii ch in
  if Nat.leb 65 n && Nat.leb n 90 then ascii_of_nat (n + 32) else ch.

Fixpoint ascii_toLowerCase (s : string) : string :=
  match s with
  | EmptyString => EmptyString
  | String ch s' => String (lower_char ch) (ascii_toLowerCase s')
  end.

Section Builtin.

(** [String.prototype.toLowerCase], a builtin of the JavaScript engine.
    Outside ASCII it follows the Unicode case mappings, which can produce
    ASCII letters from other characters; the function below is embedded
    over any lower-casing function. *)
Variable toLowerCase : string -> string.

(** [directoryToProjectName(dir)] *)
Definition directoryToProjectName (dir : string) : string :=
  drop_trailing (drop_leading (hyphenate (toLowerCase dir) false)).

End Builtin.

(** A character of a generated name: [a-z0-9] or the hyphen. *)
Definition name_char (ch : ascii) : bool :=
  is_lower_alnum ch || Ascii.eqb ch "-".

(** The last character of a string. *)
Fixpoint last_char (s : string) : option ascii :=
  match s with
  | EmptyString => None
  | String ch EmptyString => Some ch
  | String _ s' => last_char s'
  end.

(** Words of [a-z0-9] separated by single hyphens: only name characters,
    no hyphen at either end, no two hyphens in a row. *)
Definition hyphen_separated (s : string) : bool :=
  forallb name_char (list_ascii_of_string s)
  && negb (Js.starts_with s "-")
  && negb (match last_char s with Some ch => Ascii.eqb ch "-" | None => false end)
  && negb (Js.includes s "--").

(** Some character of the string is in [a-z0-9]. *)
Definition has_alnum (s : string) : bool :=
  existsb is_lower_alnum (list_ascii_of_string s).

End ProjectName.
(* ===================================================================== *)
(** ** questions.ts *)
(* ===================================================================== *)

Module Questions.

(** What a validator returns: [boolean | string], a string being the
    message shown for a rejected answer. *)
Inductive verdict : Type :=
| VBool (b : bool)
| VString (message : string).

(** [b || v] for a boolean [b]. *)
Definition or_else (b : bool) (v : verdict) : verdict :=
  if b then VBool true else v.

(** [!input] for a string: only the empty string is falsy. *)
Definition is_empty (input : string) : bool := String.eqb input "".

Record choice : Type := { title : string; value : string }.

Inductive prompt_type : Type := text | select.

(** A prompt object.  Of its properties the record keeps those that
    [create] reads ([type], [name], [validate], [choices]) and [initial]
    where it is a value; the two [initial] properties that are functions of
    earlier answers (author-url, repo-url) and the [message] and [active]
    properties are left out. *)
Record question : Type := {
  type : prompt_type;
  name : string;
  initial : option string;
  validate : option (string -> verdict);
  choices : option (list choice)
}.

(** The properties of [initialAnswers] that [getQuestions] reads. *)
Record InitialAnswers : Type := {
  i_slug : option string;
  i_authorName : option string;
  i_authorEmail : option string
}.

(** The pattern of a literal text. *)
Definition lit (s : string) : Regex.re :=
  fold_right (fun ch r => Regex.Cat (Regex.Class false [ch]) r) Regex.Eps
             (list_ascii_of_string s).

(** [\S], ASCII part: anything but tab, line feed, vertical tab, form
    feed, carriage return and space.  (The class also excludes the Unicode
    spaces, which lie outside ASCII.) *)
Definition nonspace : Regex.re :=
  Regex.Class true [" "; "009"; "010"; "011"; "012"; "013"]%char.

(** [\S+@\S+] *)
Definition email_pattern : Regex.re :=
  Regex.Cat (Regex.Plus nonspace)
            (Regex.Cat (Regex.Class false ["@"%char]) (Regex.Plus nonspace)).

(** [https?:\/\/] *)
Definition url_pattern : Regex.re :=
  Regex.Cat (lit "http")
            (Regex.Cat (Regex.Alt (Regex.Class false ["s"%char]) Regex.Eps) (lit "://")).

(** [/^r/.test(s)]: some prefix of the subject matches. *)
Fixpoint test_prefix (r : Regex.re) (s : string) : bool :=
  Regex.nullable r ||
  match s with
  | EmptyString => false
  | String ch s' => test_prefix (Regex.deriv ch r) s'
  end.

Section Builtin.

(** [String.prototype.toLowerCase] *)
Variable toLowerCase : string -> string.

(** [getQuestions(initialAnswers)]: the questions by flag name, in the
    order of the object literal. *)
Definition getQuestions (initialAnswers : InitialAnswers) : list (string * question) :=
  [ ("slug",
     {| type := text; name := "slug";
        initial := Some (ProjectName.directoryToProjectName toLowerCase
                           (Js.or_empty (i_slug initialAnswers)));
        validate := Some (fun input =>
          or_else (ProjectManager.validateProjectName input)
                  (VString "Must be a valid project name"));
        choices := None |});
    ("description",
     {| type := text; name := "description";
        initial := None;
        validate := Some (fun input => or_else (is_empty input) (VString "Cannot be empty"));
        choices := None |});
    ("author-name",
     {| type := text; name := "authorName";
        initial := i_authorName initialAnswers;
        validate := None;
        choices := None |});
    ("author-email",
     {| type := text; name := "authorEmail";
        initial := i_authorEmail initialAnswers;
        validate := Some (fun input =>
          or_else (is_empty input)
            (or_else (Regex.test_anchored email_pattern input)
                     (VString "Must be a valid email address if provided")));
        choices := None |});
    ("author-url",
     {| type := text; name := "authorUrl";
        initial := None;
        validate := Some (fun input =>
          or_else (is_empty input)
            (or_else (test_prefix url_pattern input)
                     (VString "Must be a valid URL if provided")));
        choices := None |});
    ("repo-url",
     {| type := text; name := "repoUrl";
        initial := None;
        validate := Some (fun input =>
          or_else (is_empty input)
            (or_else (test_prefix url_pattern input)
                     (VString "Must be a valid URL if provided")));
        choices := None |});
    ("language",
     {| type := select; name := "language";
        initial := None;
        validate := None;
        choices := Some [ {| title := "Javascript"; value := "javascript" |};
                          {| title := "Typescript"; value := "typescript" |} ] |});
    ("bundler",
     {| type := select; name := "bundler";
        initial := None;
        validate := None;
        choices := Some [ {| title := "Vite"; value := "vite" |};
                          {| title := "Webpack"; value := "webpack" |};
                          {| title := "Rollup"; value := "rollup" |} ] |});
    ("package-manager",
     {| type := select; name := "packageManager";
        initial := None;
        validate := None;
        choices := Some [ {| title := "npm"; value := "npm" |};
                          {| title := "Yarn"; value := "yarn" |};
                          {| title := "pnpm"; value := "pnpm" |};
                          {| title := "Bun"; value := "bun" |} ] |}) ].

End Builtin.

End Questions.

(* ===================================================================== *)
(** ** index.ts: the flags of the command line (lines 47 to 117 of create) *)
(* ===================================================================== *)

Module Cli.
Import World Questions.
Local Open Scope m_scope.

(** [object[key]] on an object given by its entries.  The keys looked up
    are flag names, none of which is a property of [Object.prototype]. *)
Fixpoint lookup {A : Type} (key : string) (entries : list (string * A)) : option A :=
  match entries with
  | [] => None
  | (k, v) :: rest => if String.eqb k key then Some v else lookup key rest
  end.

(** Lines 59 to 74: the verdict on the value of one flag.  The validator
    of the question runs first; a value that it did not reject with a
    message has to be one of the choices, where the question has any. *)
Definition verdict_of (question : question) (value : string) : verdict :=
  let valid :=
    match validate question with
    | Some check => check value
    | None => VBool true
    end in
  match valid with
  | VString _ => valid
  | VBool _ =>
      match choices question with
      | Some choices =>
          if existsb (fun choice => String.eqb (Questions.value choice) value) choices
          then valid
          else VString ("Supported values are - "
                        +:+ String.concat "," (map Questions.value choices))
      | None => valid
      end
  end.

(** The message of line 77, with the suffix of line 82. *)
Definition invalid_message (key value : string) (valid : verdict) : string :=
  "Invalid value " +:+ value +:+ " passed for " +:+ key +:+
  match valid with
  | VString message => ": " +:+ message
  | VBool _ => ""
  end.

(** The loop of lines 48 to 89 over [Object.entries(argv)].  A flag given
    once has a string for its value; [None] is a [null] or [undefined]
    value. *)
Fixpoint validateArguments (questions : list (string * question))
    (argv : list (string * option string)) : M unit :=
  match argv with
  | [] => ret tt
  | (key, None) :: rest => validateArguments questions rest
  | (key, Some value) :: rest =>
      match lookup key questions with
      | None => validateArguments questions rest
      | Some question =>
          match verdict_of question value with
          | VBool true => validateArguments questions rest
          | valid =>
              emit (EvConsole "log" (invalid_message key value valid)) ;;
              exit 1
          end
      end
  end.

(** The filter of lines 105 to 117: the questions handed to [prompts]. *)
Definition questionsToAsk (questions : list (string * question))
    (argv : list (string * option string)) : list (string * question) :=
  List.filter
    (fun entry =>
       let '(key, val) := entry in
       if match lookup key argv with
          | Some (Some given) =>
              match validate val with
              | Some check =>
                  match check given with
                  | VBool false => false
                  | _ => true
                  end
              | None => true
              end
          | _ => false
          end
       then false
       else if match choices val with
               | Some choices => Nat.eqb (length choices) 1
               | None => false
               end
       then false
       else true)
    questions.

(** A flag that the loop passes: it has no value, or no question, or the
    verdict on its value is [true]. *)
Definition accepted (questions : list (string * question))
    (entry : string * option string) : bool :=
  match entry with
  | (key, Some value) =>
      match lookup key questions with
      | Some question =>
          match verdict_of question value with
          | VBool true => true
          | _ => false
          end
      | None => true
      end
  | (_, None) => true
  end.

(** The flag [key] was given a value. *)
Definition given (argv : list (string * option string)) (key : string) : bool :=
  match lookup key argv with
  | Some (Some _) => true
  | _ => false
  end.

(** Text of ASCII characters only. *)
Definition is_ascii (s : string) : bool :=
  forallb (fun ch => Nat.ltb (nat_of_ascii ch) 128) (list_ascii_of_string s).

End Cli.
(* ===================================================================== *)
(** ** Vocabulary for the command sequences *)
(* ===================================================================== *)

Module Protocol.
Import World.

(** The command that the [switch] of [installDependencies] selects for the
    name of a package manager. *)
Definition manager_command (packageManager : string) : string :=
  if existsb (String.eqb packageManager) ["yarn"; "pnpm"; "bun"]
  then packageManager
  else "npm".

(** A sequence of commands run one after the other inside a [try] whose
    [catch] logs a warning: the events it adds to the trace and how it
    ends.  A command is spawned only after the one before it closed with
    code 0; the first command that fails is followed by the warning and by
    nothing else; a command that never settles is the last event. *)
Inductive Attempts (spawn : list string -> event) (warning : event)
    : list (list string) -> list event -> outcome unit -> Prop :=
| attempts_done : Attempts spawn warning [] [] (Ok tt)
| attempts_next args rest t r :
    Attempts spawn warning rest t r ->
    Attempts spawn warning (args :: rest)
             (spawn args :: EvSettled (Closed (Some 0)) :: t) r
| attempts_failed args rest s :
    s <> Closed (Some 0) -> s <> NeverSettles ->
    Attempts spawn warning (args :: rest) [spawn args; EvSettled s; warning] (Ok tt)
| attempts_pending args rest :
    Attempts spawn warning (args :: rest) [spawn args; EvSettled NeverSettles] Hang.


(** A machine on which the named program closes with code 1 and every
    other command with code 0. *)
Definition child_failing (program : string) (w : world) (command : string)
    (args : list string) (cwd : option (list string)) (stdio : option string)
    : settlement * gmap (list string) node :=
  if String.eqb command program then (Closed (Some 1), files w)
  else (Closed (Some 0), files w).

(** A machine on which the named program is not installed: the shell
    that runs the command does not find it and closes with code 127. *)
Definition child_missing (program : string) (w : world) (command : string)
    (args : list string) (cwd : option (list string)) (stdio : option string)
    : settlement * gmap (list string) node :=
  if String.eqb command program then (Closed (Some 127), files w)
  else (Closed (Some 0), files w).

(** A machine on which no process can be spawned for the named program:
    the child emits the error event, with the given code. *)
Definition child_unspawned (program code : string) (w : world) (command : string)
    (args : list string) (cwd : option (list string)) (stdio : option string)
    : settlement * gmap (list string) node :=
  if String.eqb command program then (Errored (SpawnError code), files w)
  else (Closed (Some 0), files w).

End Protocol.
(* ===================================================================== *)
(** ** Vocabulary for templates with placeholders *)
(* ===================================================================== *)

Module Pieces.
Import Types.

(** The data names that [renderTemplate] binds to strings. *)
Inductive key : Type :=
| PACKAGE_NAME | DESCRIPTION | AUTHOR_NAME | AUTHOR_EMAIL | AUTHOR_URL | REPO_URL
| PACKAGE_MANAGER.

Definition key_name (k : key) : string :=
  match k with
  | PACKAGE_NAME => "PACKAGE_NAME"
  | DESCRIPTION => "DESCRIPTION"
  | AUTHOR_NAME => "AUTHOR_NAME"
  | AUTHOR_EMAIL => "AUTHOR_EMAIL"
  | AUTHOR_URL => "AUTHOR_URL"
  | REPO_URL => "REPO_URL"
  | PACKAGE_MANAGER => "PACKAGE_MANAGER"
  end.

(** The string the data object of [renderTemplate] holds for a name. *)
Definition key_value (options : GenerateProjectOptions) (k : key) : string :=
  match k with
  | PACKAGE_NAME => slug options
  | DESCRIPTION => description options
  | AUTHOR_NAME => Js.or_empty (authorName options)
  | AUTHOR_EMAIL => Js.or_empty (authorEmail options)
  | AUTHOR_URL => Js.or_empty (authorUrl options)
  | REPO_URL => Js.or_empty (repoUrl options)
  | PACKAGE_MANAGER => packageManager_name (packageManager options)
  end.

(** The two output tags: escaped (marker [=]) and raw (marker [-]). *)
Inductive marker : Type := Escaped | Raw.

(** The tag of a placeholder, in the delimiters of [renderTemplate]. *)
Definition tag (m : marker) (k : key) : string :=
  match m with
  | Escaped => Spec.placeholder (key_name k)
  | Raw => Spec.raw_placeholder (key_name k)
  end.

(** What the engine writes for the tag. *)
Definition written (options : GenerateProjectOptions) (m : marker) (k : key) : string :=
  match m with
  | Escaped => Ejs.encode (key_value options k)
  | Raw => key_value options k
  end.

(** Text that holds neither the opening of a tag, two braces and a percent
    sign, nor the closing of one, a percent sign and two braces. *)
Definition brace_free (s : string) : bool :=
  negb (Js.includes s "{{%") && negb (Js.includes s "%}}").

(** A template: a text, then placeholders each followed by a text. *)
Fixpoint template_text (head : string) (rest : list (marker * key * string)) : string :=
  match rest with
  | [] => head
  | (m, k, text) :: rest' => head +:+ tag m k +:+ template_text text rest'
  end.

(** The same with every placeholder replaced by what is written for it. *)
Fixpoint substituted (options : GenerateProjectOptions) (head : string)
    (rest : list (marker * key * string)) : string :=
  match rest with
  | [] => head
  | (m, k, text) :: rest' => head +:+ written options m k +:+ substituted options text rest'
  end.

End Pieces.
(* ===================================================================== *)
(** ** Vocabulary for the reach of a copy *)
(* ===================================================================== *)

Module Reach.
Import World.



(** A common tree with a licence and a README, and a specific tree that
    has a README of its own. *)
Definition catalog_licence : list entry :=
  Sample.catalog_of
    [ Directory "common"
        [ File "LICENSE" "MIT, {{%=AUTHOR_NAME%}}";
          File "README.md" "# Common {{%=PACKAGE_NAME%}}" ];
      Directory "typescript-vite" [File "README.md" "# TS {{%=PACKAGE_NAME%}}"] ].

(** A destination in which a file named src lies in the target
    directory. *)
Definition world_with_file : world :=
  {| files := <[ ["work"; "my-app"; "src"] := FileNode "" ]> (files Sample.world0);
     trace := [] |}.

End Reach.

(* ===================================================================== *)
(** * Lemmas and theorems *)
(* ===================================================================== *)

(* ===================================================================== *)
(** ** Facts about the regular-expression matcher *)
(* ===================================================================== *)

Module RegexFacts.
Import Regex.

Lemma append_nil_l (s : string) : "" +:+ s = s.
Proof. reflexivity. Qed.

Lemma append_cons c (s1 s2 : string) : String c s1 +:+ s2 = String c (s1 +:+ s2).
Proof. reflexivity. Qed.

Lemma append_nil_inv (s1 s2 : string) : s1 +:+ s2 = "" -> s1 = "" /\ s2 = "".
Proof. destruct s1; [rewrite append_nil_l; auto | rewrite append_cons; discriminate]. Qed.

Lemma append_nil_r (s : string) : s +:+ "" = s.
Proof.
  induction s as [| c s IH]; [reflexivity | now rewrite append_cons, IH].
Qed.

Lemma Cat_inv r1 r2 s :
  Matches (Cat r1 r2) s ->
  exists s1 s2, s = s1 +:+ s2 /\ Matches r1 s1 /\ Matches r2 s2.
Proof. intros H. inversion H; subst. eauto. Qed.

Lemma Alt_inv r1 r2 s : Matches (Alt r1 r2) s -> Matches r1 s \/ Matches r2 s.
Proof. intros H. inversion H; subst; auto. Qed.

Lemma Class_inv n m s :
  Matches (Class n m) s -> exists c, s = String c "" /\ in_class n m c = true.
Proof. intros H. inversion H; subst. eauto. Qed.

Lemma MCat_cons r1 r2 c s1 s2 :
  Matches r1 (String c s1) -> Matches r2 s2 -> Matches (Cat r1 r2) (String c (s1 +:+ s2)).
Proof. intros H1 H2. rewrite <- append_cons. now constructor. Qed.

Lemma nullable_Matches r : nullable r = true <-> Matches r "".
Proof.
  induction r as [| | n m | r1 IH1 r2 IH2 | r1 IH1 r2 IH2 | r IH]; simpl; split; intros H.
  - discriminate.
  - inversion H.
  - constructor.
  - reflexivity.
  - discriminate.
  - apply Class_inv in H as (c & E & _). discriminate.
  - apply andb_true_iff in H as [H1 H2].
    rewrite <- (append_nil_l ""). constructor; [apply IH1 | apply IH2]; assumption.
  - apply Cat_inv in H as (s1 & s2 & E & M1 & M2).
    symmetry in E. apply append_nil_inv in E as [-> ->].
    apply andb_true_iff. split; [apply IH1 | apply IH2]; assumption.
  - apply orb_true_iff in H as [H | H];
      [apply MAltL, IH1 | apply MAltR, IH2]; assumption.
  - apply orb_true_iff.
    apply Alt_inv in H as [H | H]; [left; apply IH1 | right; apply IH2]; assumption.
  - constructor.
  - reflexivity.
Qed.

(** A non-empty word of [r*] starts with a non-empty word of [r]. *)
Lemma Star_cons_inv r c s :
  Matches (Star r) (String c s) ->
  exists s1 s2, s = s1 +:+ s2 /\ Matches r (String c s1) /\ Matches (Star r) s2.
Proof.
  intros H. remember (Star r) as r' eqn:Er. remember (String c s) as w eqn:Ew.
  revert c s Ew. induction H as [| | | | | | r0 s1 s2 H1 _ H2 IH2];
    intros c0 s0 Ew; try discriminate.
  injection Er as ->.
  destruct s1 as [| c1 s1']; rewrite ?append_nil_l, ?append_cons in Ew.
  - apply IH2; auto.
  - injection Ew as -> <-. exists s1', s2. auto.
Qed.

Lemma deriv_Matches r : forall c s, Matches (deriv c r) s <-> Matches r (String c s).
Proof.
  induction r as [| | n m | r1 IH1 r2 IH2 | r1 IH1 r2 IH2 | r IH]; intros c s; simpl.
  - split; intros H; inversion H.
  - split; intros H; inversion H.
  - destruct (in_class n m c) eqn:E; split; intros H.
    + inversion H; subst. constructor; assumption.
    + apply Class_inv in H as (c' & [= -> ->] & _). constructor.
    + inversion H.
    + apply Class_inv in H as (c' & [= -> ->] & E'). congruence.
  - destruct (nullable r1) eqn:N; split; intros H.
    + apply Alt_inv in H as [H | H].
      * apply Cat_inv in H as (s1 & s2 & -> & M1 & M2).
        apply MCat_cons; [apply IH1 |]; assumption.
      * rewrite <- (append_nil_l (String c s)).
        constructor; [apply nullable_Matches | apply IH2]; assumption.
    + apply Cat_inv in H as (s1 & s2 & E & M1 & M2).
      destruct s1 as [| c1 s1']; rewrite ?append_nil_l, ?append_cons in E.
      * subst s2. apply MAltR, IH2; assumption.
      * injection E as <- ->. apply MAltL. constructor; [apply IH1 |]; assumption.
    + apply Cat_inv in H as (s1 & s2 & -> & M1 & M2).
      apply MCat_cons; [apply IH1 |]; assumption.
    + apply Cat_inv in H as (s1 & s2 & E & M1 & M2).
      destruct s1 as [| c1 s1']; rewrite ?append_nil_l, ?append_cons in E.
      * apply nullable_Matches in M1. congruence.
      * injection E as <- ->. constructor; [apply IH1 |]; assumption.
  - split; intros H.
    + apply Alt_inv in H as [H | H]; [apply MAltL, IH1 | apply MAltR, IH2]; assumption.
    + apply Alt_inv in H as [H | H]; [apply MAltL, IH1 | apply MAltR, IH2]; assumption.
  - split; intros H.
    + apply Cat_inv in H as (s1 & s2 & -> & M1 & M2).
      rewrite <- append_cons. constructor; [apply IH |]; assumption.
    + apply Star_cons_inv in H as (s1 & s2 & -> & M1 & M2).
      constructor; [apply IH |]; assumption.
Qed.

(** The derivative-based matcher decides the declarative meaning. *)
Lemma test_anchored_Matches r s : test_anchored r s = true <-> Matches r s.
Proof.
  revert r. induction s as [| c s IH]; intros r; simpl.
  - apply nullable_Matches.
  - rewrite IH. apply deriv_Matches.
Qed.

(** Words of the iteration of a class: every character belongs to it. *)
Lemma Star_Class_Matches n m s :
  Matches (Star (Class n m)) s <->
  (forall c, In c (list_ascii_of_string s) -> in_class n m c = true).
Proof.
  split.
  - revert s. induction s as [| c s IH]; intros H c' Hin; [destruct Hin |].
    apply Star_cons_inv in H as (s1 & s2 & -> & M1 & M2).
    apply Class_inv in M1 as (c0 & [= -> ->] & E). rewrite append_nil_l in *.
    destruct Hin as [<- | Hin]; [assumption | now apply IH].
  - induction s as [| c s IH]; intros H.
    + constructor.
    + rewrite <- (append_nil_l s), <- append_cons. constructor.
      * constructor. apply H. simpl. auto.
      * apply IH. intros c' Hc'. apply H. simpl. auto.
Qed.

Lemma Plus_Class_Matches n m s :
  Matches (Plus (Class n m)) s <->
  s <> "" /\ (forall c, In c (list_ascii_of_string s) -> in_class n m c = true).
Proof.
  unfold Plus. split.
  - intros H. apply Cat_inv in H as (s1 & s2 & -> & M1 & M2).
    apply Class_inv in M1 as (c0 & -> & E). rewrite append_cons, append_nil_l.
    split; [discriminate |]. simpl.
    intros c' [<- | Hin]; [assumption |].
    eapply Star_Class_Matches; eassumption.
  - intros [Hne H]. destruct s as [| c s]; [congruence |].
    rewrite <- (append_nil_l s), <- append_cons. constructor.
    + constructor. apply H. simpl. auto.
    + apply Star_Class_Matches. intros c' Hc'. apply H. simpl. auto.
Qed.

End RegexFacts.

(* ===================================================================== *)
(** ** The project-name predicate *)
(* ===================================================================== *)

Lemma in_class_negated members ch :
  Regex.in_class true members ch = true <-> ~ In ch members.
Proof.
  unfold Regex.in_class. rewrite xorb_true_l, negb_true_iff.
  rewrite <- not_true_iff_false, existsb_exists. split.
  - intros H Hin. apply H. exists ch. split; [assumption | apply Ascii.eqb_refl].
  - intros H (x & Hin & Heq). apply Ascii.eqb_eq in Heq. subst. auto.
Qed.

(** C9.  [validateProjectName(name)] is true exactly when [name] is not
    empty and none of its characters is one of the eleven characters of the
    class: less-than, greater-than, colon, semicolon, comma, question mark,
    double quote, star, bar, slash, backslash. *)
Theorem C9_validateProjectName_iff (name : string) :
  ProjectManager.validateProjectName name = true <->
  name <> "" /\
  (forall ch, In ch (list_ascii_of_string name) -> ~ In ch ProjectManager.forbidden).
Proof.
  unfold ProjectManager.validateProjectName.
  rewrite RegexFacts.test_anchored_Matches, RegexFacts.Plus_Class_Matches.
  split; intros [Hne H]; (split; [assumption |]); intros ch Hin;
    apply in_class_negated; auto.
Qed.

(* ===================================================================== *)
(** ** Strings *)
(* ===================================================================== *)

Module StringFacts.
Import RegexFacts.

Lemma append_assoc (a b c : string) : (a +:+ b) +:+ c = a +:+ (b +:+ c).
Proof.
  induction a as [| ch a IH]; [reflexivity |].
  now rewrite !append_cons, IH.
Qed.

Lemma strip_prefix_Some p : forall s r, Js.strip_prefix p s = Some r <-> s = p +:+ r.
Proof.
  induction p as [| a p IH]; intros s r; simpl.
  - rewrite append_nil_l. split; [intros [= ->] | intros ->]; reflexivity.
  - destruct s as [| b s]; [split; [discriminate | rewrite append_cons; discriminate] |].
    rewrite append_cons. destruct (Ascii.eqb_spec a b) as [-> | Hne].
    + rewrite IH. split; [intros -> | intros [= ->]]; reflexivity.
    + split; [discriminate | intros [= Hab _]; congruence].
Qed.

Lemma starts_with_true s p : Js.starts_with s p = true <-> exists r, s = p +:+ r.
Proof.
  unfold Js.starts_with. destruct (Js.strip_prefix p s) as [r |] eqn:E.
  - apply strip_prefix_Some in E. split; eauto.
  - split; [discriminate |]. intros [r Hr]. apply strip_prefix_Some in Hr. congruence.
Qed.

Lemma includes_unfold s p :
  Js.includes s p =
  Js.starts_with s p || match s with EmptyString => false | String _ s' => Js.includes s' p end.
Proof. destruct s; reflexivity. Qed.

Lemma includes_append_l a p r : Js.includes a p = true -> Js.includes (a +:+ r) p = true.
Proof.
  induction a as [| ch a IH]; rewrite includes_unfold; intros H.
  - rewrite orb_false_r in H. apply starts_with_true in H as [r' ->].
    rewrite includes_unfold. apply orb_true_iff. left.
    apply starts_with_true. exists (r' +:+ r). apply append_assoc.
  - apply orb_true_iff in H as [H | H].
    + apply starts_with_true in H as [r' Hr']. rewrite Hr'.
      rewrite includes_unfold. apply orb_true_iff. left.
      apply starts_with_true. exists (r' +:+ r). apply append_assoc.
    + rewrite append_cons, includes_unfold. apply orb_true_iff. right. auto.
Qed.

Lemma includes_prefixed s a p :
  Js.starts_with s a = true -> Js.includes a p = true -> Js.includes s p = true.
Proof. intros [r ->]%starts_with_true H. now apply includes_append_l. Qed.

Lemma includes_tail ch s p : Js.includes (String ch s) p = false -> Js.includes s p = false.
Proof. rewrite includes_unfold. now intros [_ H]%orb_false_iff. Qed.

End StringFacts.

(* ===================================================================== *)
(** ** The engine on text without tags, and on a single placeholder *)
(* ===================================================================== *)

Module EjsFacts.
Import RegexFacts StringFacts Spec.

Abbreviation default_delimiters := Ejs.default_delimiters.

Lemma token_free_tail ch s : token_free (String ch s) = true -> token_free s = true.
Proof.
  unfold token_free. rewrite !andb_true_iff, !negb_true_iff.
  intros [H1 H2]. split; eapply includes_tail; eassumption.
Qed.

(** A string that starts with a string containing a delimiter is not
    token free. *)
Lemma token_free_no_prefix s a :
  token_free s = true -> token_free a = false -> Js.starts_with s a = false.
Proof.
  unfold token_free. rewrite andb_true_iff, andb_false_iff, !negb_true_iff, !negb_false_iff.
  intros [H1 H2] Ha. destruct (Js.starts_with s a) eqn:E; [| reflexivity].
  destruct Ha as [Ha | Ha]; eapply includes_prefixed in Ha; try eassumption; congruence.
Qed.

Lemma token_free_neq s a :
  token_free s = true -> token_free a = false -> String.eqb s a = false.
Proof.
  intros Hs Ha. destruct (String.eqb_spec s a) as [-> |]; [congruence | reflexivity].
Qed.

Lemma match_here_token_free s :
  token_free s = true ->
  Ejs.match_here (Ejs.alternatives default_delimiters) s = None.
Proof.
  intros H. cbn.
  repeat (rewrite (token_free_no_prefix s _ H) by reflexivity). reflexivity.
Qed.

Lemma parse_token_free s : forall lit,
  token_free s = true ->
  Ejs.parseTemplateText (Ejs.alternatives default_delimiters) s 0 lit
  = Ejs.flush (lit +:+ s) [].
Proof.
  induction s as [| ch s IH]; intros lit H.
  - cbn. now rewrite append_nil_r.
  - cbn [Ejs.parseTemplateText]. rewrite (match_here_token_free _ H).
    rewrite IH by (eapply token_free_tail; eassumption).
    now rewrite append_assoc.
Qed.

Lemma slurp_before_token_free s : forall blanks,
  token_free s = true -> Ejs.slurp_before s 0 blanks = blanks +:+ s.
Proof.
  induction s as [| ch s IH]; intros blanks H.
  - cbn. now rewrite append_nil_r.
  - cbn [Ejs.slurp_before].
    rewrite (token_free_no_prefix _ "<%_" H) by reflexivity.
    apply token_free_tail in H.
    destruct (Js.is_blank ch).
    + rewrite IH by assumption. now rewrite append_assoc.
    + rewrite IH by assumption. now rewrite append_nil_l.
Qed.

Lemma slurp_after_token_free s :
  token_free s = true -> Ejs.slurp_after s 0 false = s.
Proof.
  induction s as [| ch s IH]; intros H; [reflexivity |].
  cbn [Ejs.slurp_after andb].
  rewrite (token_free_no_prefix _ "_%>" H) by reflexivity.
  now rewrite IH by (eapply token_free_tail; eassumption).
Qed.

Lemma scanLine_token_free s :
  token_free s = true -> s <> "" ->
  Ejs.scanLine default_delimiters s None false = ([Ejs.Append s], None, false).
Proof.
  intros H Hne. unfold Ejs.scanLine. cbn [Ejs.o Ejs.d Ejs.c default_delimiters Ejs.resolve
    Ejs.no_options Ejs.or_default Ejs.openDelimiter Ejs.delimiter Ejs.closeDelimiter].
  repeat (rewrite (token_free_neq s _ H) by reflexivity). cbn [orb].
  unfold Ejs.addOutput. destruct s; [congruence | reflexivity].
Qed.

(** Text without delimiters is rendered as it stands, whatever the data. *)
Lemma render_token_free s data :
  token_free s = true ->
  existsb (fun k => match Js.get k data with Some _ => true | None => false end)
          Ejs.opts_passed_in_data = false ->
  Ejs.render s data None = Ok s.
Proof.
  intros H Hdata. unfold Ejs.render. rewrite Hdata.
  rewrite slurp_before_token_free, append_nil_l by assumption.
  rewrite slurp_after_token_free by assumption.
  fold default_delimiters.
  rewrite parse_token_free, append_nil_l by assumption.
  destruct (String.eqb_spec s "") as [-> | Hne]; [reflexivity |].
  assert (Ejs.flush s [] = [s]) as -> by (destruct s; [congruence | reflexivity]).
  cbn [Ejs.generateSource].
  assert (Ejs.is_opening default_delimiters s = false) as ->.
  { unfold Ejs.is_opening. rewrite (token_free_no_prefix s _ H) by reflexivity. reflexivity. }
  cbn [andb]. rewrite scanLine_token_free by assumption.
  cbn. now rewrite append_nil_l.
Qed.

End EjsFacts.

(* ===================================================================== *)
(** ** renderFileName and renderTemplate over the engine model *)
(* ===================================================================== *)

Module RenderFacts.
Import RegexFacts StringFacts Spec Types.

Lemma options_object_no_engine_options (options : GenerateProjectOptions) :
  existsb (fun k => match Js.get k (options_object options) with
                    | Some _ => true
                    | None => false
                    end) Ejs.opts_passed_in_data = false.
Proof. reflexivity. Qed.

Lemma encode_xml_plain s : xml_plain s = true -> Ejs.encode s = s.
Proof.
  unfold xml_plain. induction s as [| ch s IH]; [reflexivity |].
  cbn [list_ascii_of_string forallb Ejs.encode]. intros [Hch Hs]%andb_true_iff.
  rewrite IH by assumption. clear IH Hs.
  unfold xml_special in Hch. cbn [existsb] in Hch.
  rewrite !negb_orb, !andb_true_iff, !negb_true_iff in Hch.
  destruct Hch as (H1 & H2 & H3 & H4 & H5 & _).
  unfold Ejs.encode_char. now rewrite H1, H2, H3, H4, H5.
Qed.

(** What the placeholders of [renderTemplate] evaluate to. *)
Lemma render_package_name options :
  Template.renderTemplate Ejs.render (placeholder "PACKAGE_NAME") options
  = Ok (Ejs.encode (slug options)).
Proof. reflexivity. Qed.

Lemma render_description options :
  Template.renderTemplate Ejs.render (placeholder "DESCRIPTION") options
  = Ok (Ejs.encode (description options)).
Proof. reflexivity. Qed.

Lemma render_author_name options :
  Template.renderTemplate Ejs.render (placeholder "AUTHOR_NAME") options
  = Ok (Ejs.encode (Js.or_empty (authorName options))).
Proof. reflexivity. Qed.

Lemma render_author_email options :
  Template.renderTemplate Ejs.render (placeholder "AUTHOR_EMAIL") options
  = Ok (Ejs.encode (Js.or_empty (authorEmail options))).
Proof. reflexivity. Qed.

Lemma render_author_url options :
  Template.renderTemplate Ejs.render (placeholder "AUTHOR_URL") options
  = Ok (Ejs.encode (Js.or_empty (authorUrl options))).
Proof. reflexivity. Qed.

Lemma render_repo_url options :
  Template.renderTemplate Ejs.render (placeholder "REPO_URL") options
  = Ok (Ejs.encode (Js.or_empty (repoUrl options))).
Proof. reflexivity. Qed.

Lemma render_raw_package_name options :
  Template.renderTemplate Ejs.render (raw_placeholder "PACKAGE_NAME") options
  = Ok (slug options).
Proof. reflexivity. Qed.

End RenderFacts.

(** C2 (amended).  For a slug free of the five characters that the engine's
    escaped output rewrites, the package-name placeholder renders as the
    slug verbatim; the description placeholder renders as the empty string
    when the description is empty; the placeholder of an unset author name,
    author email, author url or repository url renders as the empty string.
    With the raw-output marker the package-name placeholder renders as the
    slug verbatim for every slug. *)
Theorem C2_renderTemplate_placeholders (options : GenerateProjectOptions) :
  (Spec.xml_plain (Types.slug options) = true ->
   Template.renderTemplate Ejs.render (Spec.placeholder "PACKAGE_NAME") options
   = Ok (Types.slug options)) /\
  (Types.description options = "" ->
   Template.renderTemplate Ejs.render (Spec.placeholder "DESCRIPTION") options = Ok "") /\
  (Types.authorName options = None ->
   Template.renderTemplate Ejs.render (Spec.placeholder "AUTHOR_NAME") options = Ok "") /\
  (Types.authorEmail options = None ->
   Template.renderTemplate Ejs.render (Spec.placeholder "AUTHOR_EMAIL") options = Ok "") /\
  (Types.authorUrl options = None ->
   Template.renderTemplate Ejs.render (Spec.placeholder "AUTHOR_URL") options = Ok "") /\
  (Types.repoUrl options = None ->
   Template.renderTemplate Ejs.render (Spec.placeholder "REPO_URL") options = Ok "") /\
  Template.renderTemplate Ejs.render (Spec.raw_placeholder "PACKAGE_NAME") options
  = Ok (Types.slug options).
Proof.
  repeat split.
  - intros H. rewrite RenderFacts.render_package_name.
    now rewrite RenderFacts.encode_xml_plain.
  - intros H. rewrite RenderFacts.render_description. now rewrite H.
  - intros H. rewrite RenderFacts.render_author_name. now rewrite H.
  - intros H. rewrite RenderFacts.render_author_email. now rewrite H.
  - intros H. rewrite RenderFacts.render_author_url. now rewrite H.
  - intros H. rewrite RenderFacts.render_repo_url. now rewrite H.
Qed.

Lemma C2_witness :
  Template.renderTemplate Ejs.render (Spec.placeholder "PACKAGE_NAME") Sample.options
  = Ok "my-app" /\
  Template.renderTemplate Ejs.render (Spec.placeholder "DESCRIPTION") Sample.options = Ok "" /\
  Template.renderTemplate Ejs.render (Spec.placeholder "AUTHOR_NAME") Sample.options = Ok "" /\
  Template.renderTemplate Ejs.render (Spec.placeholder "AUTHOR_EMAIL") Sample.options = Ok "" /\
  Template.renderTemplate Ejs.render (Spec.placeholder "AUTHOR_URL") Sample.options = Ok "" /\
  Template.renderTemplate Ejs.render (Spec.placeholder "REPO_URL") Sample.options = Ok "".
Proof.
  destruct (C2_renderTemplate_placeholders Sample.options)
    as (H1 & H2 & H3 & H4 & H5 & H6 & _).
  exact (conj (H1 eq_refl) (conj (H2 eq_refl) (conj (H3 eq_refl)
           (conj (H4 eq_refl) (conj (H5 eq_refl) (H6 eq_refl)))))).
Defined.

(** C2 as stated fails: a slug that passes the project-name predicate and
    contains an ampersand is not rendered verbatim by the package-name
    placeholder. *)
Lemma C2_counterexample :
  let options :=
    {| Types.targetPath := ["work"; "a&b"];
       Types.slug := "a&b";
       Types.description := "";
       Types.authorName := None;
       Types.authorEmail := None;
       Types.authorUrl := None;
       Types.repoUrl := None;
       Types.language := typescript;
       Types.bundler := vite;
       Types.packageManager := npm |} in
  ProjectManager.validateProjectName (Types.slug options) = true /\
  Template.renderTemplate Ejs.render (Spec.placeholder "PACKAGE_NAME") options
  = Ok "a&amp;b" /\
  Template.renderTemplate Ejs.render (Spec.placeholder "PACKAGE_NAME") options
  <> Ok (Types.slug options).
Proof.
  cbv zeta. split; [reflexivity | split; [reflexivity |]].
  intros H. vm_compute in H. discriminate H.
Qed.

(** C4 (amended).  A template entry named with the sentinel followed by
    a name that holds no delimiter of the engine, neither the opening nor
    the closing one, is rendered as that name: exactly one leading sentinel
    is removed and the rest is preserved. *)
Theorem C4_renderFileName_strips_sentinel
    (foo : string) (options : GenerateProjectOptions) :
  Spec.token_free foo = true ->
  Template.renderFileName Ejs.render (String "$" foo) options = Ok foo.
Proof.
  intros H. unfold Template.renderFileName. cbn [Template.strip_sentinel].
  rewrite EjsFacts.render_token_free;
    [reflexivity | assumption | apply RenderFacts.options_object_no_engine_options].
Qed.

(** The entry [$.github] is emitted as [.github]. *)
Lemma C4_witness :
  Template.renderFileName Ejs.render "$.github" Sample.options = Ok ".github".
Proof. apply (C4_renderFileName_strips_sentinel ".github" Sample.options). reflexivity. Defined.

(** C4 as stated fails for a name that holds a delimiter of the engine and
    no placeholder.  In [$a%>b] no tag is opened: the name is emitted as
    [ab], the closing delimiter dropped, and not as [a%>b].  In [$a<%b] a
    tag is opened and never closed: [renderFileName] throws. *)
Lemma C4_counterexample :
  Template.renderFileName Ejs.render "$a%>b" Sample.options = Ok "ab" /\
  Template.renderFileName Ejs.render "$a%>b" Sample.options <> Ok "a%>b" /\
  Template.renderFileName Ejs.render "$a<%b" Sample.options
  = Throw (ErrorWithCause "Failed to render file name: $a<%b"
             (EjsError ("Could not find matching close tag for "
                        +:+ String "034" "<%" +:+ String "034" "."))).
Proof.
  split; [vm_compute; reflexivity | split; [| vm_compute; reflexivity]].
  intros H. vm_compute in H. discriminate H.
Qed.

(* ===================================================================== *)
(** ** The monad and the file-system calls *)
(* ===================================================================== *)

Module RunFacts.
Import World.
Local Open Scope m_scope.

Lemma bind_Ok {A B : Type} (m : M A) (k : A -> M B) w a w1 :
  m w = (Ok a, w1) -> bind m k w = k a w1.
Proof. unfold bind. now intros ->. Qed.

Lemma bind_Throw {A B : Type} (m : M A) (k : A -> M B) w e w1 :
  m w = (Throw e, w1) -> bind m k w = (Throw e, w1).
Proof. unfold bind. now intros ->. Qed.

(** A sequence returns only if its first part returned. *)
Lemma bind_Ok_inv {A B : Type} (m : M A) (k : A -> M B) w b w' :
  bind m k w = (Ok b, w') ->
  exists a w1, m w = (Ok a, w1) /\ k a w1 = (Ok b, w').
Proof.
  unfold bind. destruct (m w) as [[a | e | n |] w1]; intros H;
    try discriminate. eauto.
Qed.

(** Whatever the outcome of a sequence, either its first part ended it, or
    the first part returned and the second part ran. *)
Lemma bind_inv {A B : Type} (m : M A) (k : A -> M B) w r w' :
  bind m k w = (r, w') ->
  (exists a w1, m w = (Ok a, w1) /\ k a w1 = (r, w')) \/
  (exists r1, m w = (r1, w') /\ (forall a, r1 <> Ok a) /\
              match r1 with
              | Ok _ => False
              | Throw e => r = Throw e
              | Exit n => r = Exit n
              | Hang => r = Hang
              end).
Proof.
  unfold bind. destruct (m w) as [[a | e | n |] w1] eqn:E; intros H.
  - left. eauto.
  - right. injection H as <- <-. exists (Throw e). repeat split; congruence.
  - right. injection H as <- <-. exists (Exit n). repeat split; congruence.
  - right. injection H as <- <-. exists Hang. repeat split; congruence.
Qed.

Lemma lift_inv {A : Type} (o : outcome A) w r w' :
  lift o w = (r, w') -> r = o /\ w' = w.
Proof. unfold lift. now intros [= <- <-]. Qed.

End RunFacts.

Module FsFacts.
Import World.

Implicit Types (fs : gmap (list string) node) (p q : list string).

(** [mkdir -p] never replaces an existing node. *)
Lemma mkdirp_keeps rest : forall fs done fs' q v,
  Fs.mkdirp fs done rest = inr fs' -> fs !! q = Some v -> fs' !! q = Some v.
Proof.
  induction rest as [| n rest IH]; intros fs done fs' q v H Hq; simpl in H.
  - now injection H as <-.
  - destruct (fs !! (done ++ [n])) as [[c |] |] eqn:E; try discriminate.
    + eapply IH; eassumption.
    + eapply IH; [eassumption |].
      rewrite lookup_insert_ne; [assumption | congruence].
Qed.

(** After [mkdir -p] every directory on the way is a directory. *)
Lemma mkdirp_dirs rest : forall fs done fs' pre n post,
  Fs.mkdirp fs done rest = inr fs' -> rest = pre ++ n :: post ->
  fs' !! (done ++ pre ++ [n]) = Some DirNode.
Proof.
  induction rest as [| m rest IH]; intros fs done fs' pre n post H Hrest.
  - destruct pre; discriminate.
  - simpl in H. destruct pre as [| m' pre]; simpl in Hrest; injection Hrest as -> ->.
    + simpl. destruct (fs !! (done ++ [n])) as [[c |] |] eqn:E; try discriminate.
      * eapply mkdirp_keeps; eassumption.
      * eapply mkdirp_keeps; [eassumption | apply lookup_insert_eq].
    + replace (done ++ (m' :: pre) ++ [n]) with ((done ++ [m']) ++ pre ++ [n])
        by (now rewrite <- !app_assoc).
      destruct (fs !! (done ++ [m'])) as [[c |] |] eqn:E; try discriminate;
        eapply IH; eauto.
Qed.

Lemma mkdirp_target fs p fs' :
  Fs.mkdirp fs [] p = inr fs' -> p <> [] -> fs' !! p = Some DirNode.
Proof.
  intros H Hne. destruct (exists_last Hne) as (pre & n & ->).
  apply (mkdirp_dirs _ _ _ _ pre n [] H). reflexivity.
Qed.

(** A walk over directories that all exist changes nothing. *)
Lemma mkdirp_existing rest : forall fs done,
  (forall pre n post, rest = pre ++ n :: post -> fs !! (done ++ pre ++ [n]) = Some DirNode) ->
  Fs.mkdirp fs done rest = inr fs.
Proof.
  induction rest as [| m rest IH]; intros fs done H; [reflexivity |].
  simpl. pose proof (H [] m rest eq_refl) as Hm. simpl in Hm. rewrite Hm. apply IH.
  intros pre n post ->. rewrite <- app_assoc. apply (H (m :: pre) n post). reflexivity.
Qed.

(** [mkdir -p] is idempotent. *)
Lemma mkdirp_idempotent fs p fs' :
  Fs.mkdirp fs [] p = inr fs' -> Fs.mkdirp fs' [] p = inr fs'.
Proof.
  intros H. apply mkdirp_existing. intros pre n post Hp.
  eapply mkdirp_dirs; eassumption.
Qed.

(** Listing a subdirectory of the catalog gives the children of its entry:
    the recursive call of the copier sees what the structural recursion
    sees. *)
Lemma resolve_child p : forall (root files : list entry) n n' children,
  Fs.resolve root p = Fs.IsDir files ->
  Fs.find n files = Some (Directory n' children) ->
  Fs.resolve root (p ++ [n]) = Fs.IsDir children.
Proof.
  induction p as [| m p IH]; intros root files n n' children Hdir Hfind.
  - cbn in Hdir. injection Hdir as <-. cbn. now rewrite Hfind.
  - cbn [app Fs.resolve] in *.
    destruct (Fs.find m root) as [[? ? | ? sub] |]; try discriminate.
    + destruct p; discriminate.
    + eapply IH; eassumption.
Qed.

Lemma readdirSync_child (root : list entry) p files n n' children :
  Fs.readdirSync root p = Ok files ->
  Fs.find n files = Some (Directory n' children) ->
  Fs.readdirSync root (p ++ [n]) = Ok children.
Proof.
  unfold Fs.readdirSync. intros Hdir Hfind.
  destruct (Fs.resolve root p) as [files' | |] eqn:E; try discriminate.
  injection Hdir as ->. now rewrite (resolve_child _ _ _ _ _ _ E Hfind).
Qed.

Lemma mkdirSync_inv p w r w' :
  Fs.mkdirSync p w = (r, w') ->
  (exists fs', Fs.mkdirp (files w) [] p = inr fs' /\ r = Ok tt /\
               w' = {| files := fs'; trace := trace w ++ [EvMkdir p] |}) \/
  (exists code, Fs.mkdirp (files w) [] p = inl code /\
                r = Throw (SystemError code "mkdir" p) /\ w' = w).
Proof.
  unfold Fs.mkdirSync. destruct (Fs.mkdirp (files w) [] p) as [code | fs'];
    intros [= <- <-]; eauto.
Qed.

Lemma writeFileSync_inv p content w r w' :
  Fs.writeFileSync p content w = (r, w') ->
  (r = Ok tt /\ p <> [] /\ files w !! p <> Some DirNode /\
   w' = {| files := <[p := FileNode content]> (files w);
           trace := trace w ++ [EvWrite p content] |}) \/
  (exists code, r = Throw (SystemError code "open" p) /\ w' = w).
Proof.
  unfold Fs.writeFileSync. destruct p as [| n p]; [intros [= <- <-]; eauto |].
  destruct (Fs.walk (files w) [] (removelast (n :: p))); [intros [= <- <-]; eauto |].
  destruct (files w !! (n :: p)) as [[c |] |] eqn:E; intros [= <- <-]; eauto;
    left; repeat split; congruence.
Qed.

End FsFacts.

(* ===================================================================== *)
(** ** Joining a single component *)
(* ===================================================================== *)

Module PathFacts.
Import RegexFacts StringFacts Spec.

Lemma segments_no_slash s : forall cur,
  forallb (fun ch => negb (Ascii.eqb ch "/")) (list_ascii_of_string s) = true ->
  Path.segments s cur = [cur +:+ s].
Proof.
  induction s as [| ch s IH]; intros cur H.
  - cbn. now rewrite append_nil_r.
  - cbn in H. apply andb_true_iff in H as [Hch Hs].
    cbn [Path.segments]. apply negb_true_iff in Hch. rewrite Hch.
    rewrite IH by assumption. now rewrite append_assoc.
Qed.

(** Joining a single component appends it. *)
Lemma join_component base n : component n = true -> Path.join base n = base ++ [n].
Proof.
  unfold component. rewrite !andb_true_iff, !negb_true_iff.
  intros [[[H1 H2] H3] H4].
  unfold Path.join. rewrite segments_no_slash by assumption.
  rewrite append_nil_l. cbn. unfold Path.step. now rewrite H1, H2, H3.
Qed.

End PathFacts.

(* ===================================================================== *)
(** ** The copier *)
(* ===================================================================== *)

Module TemplateFacts.
Import World Types Spec RunFacts FsFacts.
Local Open Scope m_scope.

(** Induction over a template tree and the lists of entries inside it. *)
Section EntryInduction.

Variable P : entry -> Prop.
Variable Q : list entry -> Prop.
Hypothesis HFile : forall n content, P (File n content).
Hypothesis HDir : forall n children, Q children -> P (Directory n children).
Hypothesis HNil : Q [].
Hypothesis HCons : forall e rest, P e -> Q rest -> Q (e :: rest).

Lemma entry_induction (e : entry) : P e.
Proof.
  revert e. fix IH 1. intros [n content | n children].
  - apply HFile.
  - apply HDir. induction children as [| x rest IHrest].
    + exact HNil.
    + apply HCons; [apply IH | exact IHrest].
Qed.

Lemma entries_induction (l : list entry) : Q l.
Proof.
  induction l as [| e rest IH]; [exact HNil |].
  apply HCons; [apply entry_induction | exact IH].
Qed.

End EntryInduction.

Section Engine.

Variable ejs_render :
  string -> list (string * value) -> option Ejs.options -> outcome string.
Variable catalog : list entry.
Variable options : GenerateProjectOptions.

Abbreviation renderFileName := (Template.renderFileName ejs_render).
Abbreviation renderTemplate := (Template.renderTemplate ejs_render).
Abbreviation copyEntry := (Template.copyEntry ejs_render options).
Abbreviation copyEntries := (Template.copyEntries ejs_render options).
Abbreviation copyTemplateFiles := (Template.copyTemplateFiles ejs_render catalog).
Abbreviation copyTemplate := (Template.copyTemplate ejs_render catalog).

(** The equations of the loop body. *)
Lemma copyEntry_File n content targetPath :
  copyEntry (File n content) targetPath =
  (destName <- lift (renderFileName n options) ;;
   processedContent <- lift (renderTemplate content options) ;;
   Fs.writeFileSync (Path.join targetPath destName) processedContent).
Proof. reflexivity. Qed.

Lemma copyEntry_Directory n children targetPath w :
  copyEntry (Directory n children) targetPath w =
  (destName <- lift (renderFileName n options) ;;
   Fs.mkdirSync (Path.join targetPath destName) ;;
   copyEntries children (Path.join targetPath destName)) w.
Proof.
  assert (forall dest l,
    (fix loop (files : list entry) : M unit :=
       match files with
       | [] => ret tt
       | f :: rest => (copyEntry f dest ;; loop rest)
       end) l = copyEntries l dest) as Hloop.
  { intros dest l. induction l as [| f rest IH]; [reflexivity |].
    cbn [Template.copyEntries]. now rewrite IH. }
  cbn [Template.copyEntry Fs.name].
  destruct (renderFileName n options) as [a | e | c |]; try reflexivity.
  rewrite !(bind_Ok (lift (Ok a)) _ w a w eq_refl).
  now rewrite Hloop.
Qed.

(** *** The destination only grows *)

Lemma only_grew_refl w : only_grew w w.
Proof.
  exists []. unfold added. rewrite app_nil_r.
  repeat split; auto. intros p c [].
Qed.

Lemma only_grew_trans w1 w2 w3 : only_grew w1 w2 -> only_grew w2 w3 -> only_grew w1 w3.
Proof.
  intros (t1 & Ht1 & Hfs1 & Hf1 & Hd1 & Hw1) (t2 & Ht2 & Hfs2 & Hf2 & Hd2 & Hw2).
  exists (t1 ++ t2). unfold added in *. repeat split.
  - now rewrite Ht2, Ht1, app_assoc.
  - rewrite forallb_app. now rewrite Hfs1, Hfs2.
  - auto.
  - auto.
  - intros p c [Hin | Hin]%in_app_iff; eauto.
Qed.

Lemma respects_bind {A B : Type} (R : world -> world -> Prop) (m : M A) (k : A -> M B) :
  (forall w1 w2 w3, R w1 w2 -> R w2 w3 -> R w1 w3) ->
  respects R m -> (forall a, respects R (k a)) -> respects R (bind m k).
Proof.
  intros HT Hm Hk w r w' H.
  apply bind_inv in H as [(a & w1 & H1 & H2) | (r1 & H1 & _)].
  - eapply HT; [eapply Hm | eapply Hk]; eassumption.
  - eapply Hm; eassumption.
Qed.

Lemma respects_lift {A : Type} (R : world -> world -> Prop) (o : outcome A) :
  (forall w, R w w) -> respects R (lift o).
Proof. intros HR w r w' [_ ->]%lift_inv. apply HR. Qed.

Lemma mkdirSync_only_grew p : respects only_grew (Fs.mkdirSync p).
Proof.
  intros w r w' H.
  apply mkdirSync_inv in H as [(fs' & Hfs & -> & ->) | (code & _ & _ & ->)];
    [| apply only_grew_refl].
  exists [EvMkdir p]. unfold added, is_file, is_dir. cbn. repeat split.
  - intros q [c Hq]. exists c. eapply mkdirp_keeps; eassumption.
  - intros q Hq. eapply mkdirp_keeps; eassumption.
  - intros q c [[=] | []].
Qed.

Lemma writeFileSync_only_grew p content : respects only_grew (Fs.writeFileSync p content).
Proof.
  intros w r w' H.
  apply writeFileSync_inv in H as [(-> & Hne & Hnd & ->) | (code & _ & ->)];
    [| apply only_grew_refl].
  exists [EvWrite p content]. unfold added, is_file, is_dir. cbn. repeat split.
  - intros q [c Hq]. destruct (decide (p = q)) as [-> | Hpq].
    + exists content. apply lookup_insert_eq.
    + exists c. now rewrite lookup_insert_ne.
  - intros q Hq. rewrite lookup_insert_ne; [assumption | congruence].
  - intros q c [[= <- <-] | []]. exists content. apply lookup_insert_eq.
Qed.

Lemma copyEntry_only_grew file : forall targetPath,
  respects only_grew (copyEntry file targetPath).
Proof.
  apply (entry_induction
           (fun file => forall targetPath, respects only_grew (copyEntry file targetPath))
           (fun files => forall targetPath, respects only_grew (copyEntries files targetPath))).
  - intros n content targetPath. rewrite copyEntry_File.
    apply respects_bind; [apply only_grew_trans | apply respects_lift, only_grew_refl |].
    intros destName.
    apply respects_bind; [apply only_grew_trans | apply respects_lift, only_grew_refl |].
    intros text. apply writeFileSync_only_grew.
  - intros n children IH targetPath w r w' H. rewrite copyEntry_Directory in H.
    revert w r w' H.
    apply respects_bind; [apply only_grew_trans | apply respects_lift, only_grew_refl |].
    intros destName.
    apply respects_bind; [apply only_grew_trans | apply mkdirSync_only_grew |].
    intros _. apply IH.
  - intros targetPath w r w' [= _ <-]. apply only_grew_refl.
  - intros e rest IHe IHrest targetPath. cbn [Template.copyEntries].
    apply respects_bind; [apply only_grew_trans | apply IHe |].
    intros _. apply IHrest.
Qed.

Lemma copyEntries_only_grew files targetPath :
  respects only_grew (copyEntries files targetPath).
Proof.
  induction files as [| e rest IH]; cbn [Template.copyEntries].
  - intros w r w' [= _ <-]. apply only_grew_refl.
  - apply respects_bind; [apply only_grew_trans | apply copyEntry_only_grew |].
    intros _. apply IH.
Qed.

Lemma copyTemplateFiles_only_grew templatePath targetPath :
  respects only_grew (copyTemplateFiles templatePath targetPath options).
Proof.
  unfold Template.copyTemplateFiles.
  apply respects_bind; [apply only_grew_trans | apply respects_lift, only_grew_refl |].
  intros files. apply copyEntries_only_grew.
Qed.

Lemma copyTemplate_only_grew templatePath targetPath :
  respects only_grew (copyTemplate templatePath targetPath options).
Proof.
  unfold Template.copyTemplate.
  apply respects_bind; [apply only_grew_trans | | intros _; apply copyTemplateFiles_only_grew].
  destruct (Fs.existsSync catalog _).
  - apply copyTemplateFiles_only_grew.
  - intros w r w' [= _ <-]. apply only_grew_refl.
Qed.

(** *** Failures are fatal *)

Lemma copyEntry_name_Throw file targetPath w cause :
  ejs_render (Template.strip_sentinel (Fs.name file)) (options_object options) None
  = Throw cause ->
  copyEntry file targetPath w
  = (Throw (ErrorWithCause ("Failed to render file name: " +:+ Fs.name file) cause), w).
Proof.
  intros H. destruct file as [n content | n children].
  - rewrite copyEntry_File. unfold bind, lift, Template.renderFileName. cbn [Fs.name] in *.
    now rewrite H.
  - rewrite copyEntry_Directory. unfold bind, lift, Template.renderFileName. cbn [Fs.name] in *.
    now rewrite H.
Qed.

Lemma copyEntry_content_Throw n content destName targetPath w cause :
  renderFileName n options = Ok destName ->
  ejs_render content (Template.locals options) Template.braces = Throw cause ->
  copyEntry (File n content) targetPath w
  = (Throw (ErrorWithCause "Failed to render template" cause), w).
Proof.
  intros Hn Hc. rewrite copyEntry_File. unfold bind, lift. rewrite Hn.
  unfold Template.renderTemplate. now rewrite Hc.
Qed.

Lemma copyEntry_children_Throw n children destName targetPath w w1 e w2 :
  renderFileName n options = Ok destName ->
  Fs.mkdirSync (Path.join targetPath destName) w = (Ok tt, w1) ->
  copyEntries children (Path.join targetPath destName) w1 = (Throw e, w2) ->
  copyEntry (Directory n children) targetPath w = (Throw e, w2).
Proof.
  intros Hn Hm Hc. rewrite copyEntry_Directory. unfold bind, lift. rewrite Hn, Hm.
  now rewrite Hc.
Qed.

Lemma copyEntries_app pre : forall rest targetPath w w1,
  copyEntries pre targetPath w = (Ok tt, w1) ->
  copyEntries (pre ++ rest) targetPath w = copyEntries rest targetPath w1.
Proof.
  induction pre as [| e pre IH]; intros rest targetPath w w1 H.
  - now injection H as <-.
  - cbn [Template.copyEntries app] in *.
    apply bind_Ok_inv in H as ([] & w0 & He & Hpre).
    rewrite (bind_Ok _ _ _ _ _ He). now apply IH.
Qed.

Lemma copyEntries_Throw pre file post targetPath w w1 e w2 :
  copyEntries pre targetPath w = (Ok tt, w1) ->
  copyEntry file targetPath w1 = (Throw e, w2) ->
  copyEntries (pre ++ file :: post) targetPath w = (Throw e, w2).
Proof.
  intros Hpre Hfile. rewrite (copyEntries_app _ _ _ _ _ Hpre).
  cbn [Template.copyEntries]. now apply bind_Throw.
Qed.

(** *** Successful runs *)

Lemma copyEntries_In files : forall targetPath w w' e,
  copyEntries files targetPath w = (Ok tt, w') -> In e files ->
  exists w1 w2, copyEntry e targetPath w1 = (Ok tt, w2) /\ only_grew w2 w'.
Proof.
  induction files as [| f rest IH]; intros targetPath w w' e H Hin; [destruct Hin |].
  cbn [Template.copyEntries] in H.
  apply bind_Ok_inv in H as ([] & w0 & Hf & Hrest).
  destruct Hin as [-> | Hin].
  - exists w, w0. split; [assumption |]. eapply copyEntries_only_grew; eassumption.
  - eapply IH; eassumption.
Qed.

Lemma copyEntry_File_Ok n content targetPath w w' :
  copyEntry (File n content) targetPath w = (Ok tt, w') ->
  exists destName text,
    renderFileName n options = Ok destName /\
    renderTemplate content options = Ok text /\
    Fs.writeFileSync (Path.join targetPath destName) text w = (Ok tt, w').
Proof.
  rewrite copyEntry_File. intros H.
  apply bind_Ok_inv in H as (destName & w1 & [Hn ->]%lift_inv & H).
  apply bind_Ok_inv in H as (text & w2 & [Ht ->]%lift_inv & H).
  eauto.
Qed.

Lemma copyEntry_Directory_Ok n children targetPath w w' :
  copyEntry (Directory n children) targetPath w = (Ok tt, w') ->
  exists destName w1,
    renderFileName n options = Ok destName /\
    Fs.mkdirSync (Path.join targetPath destName) w = (Ok tt, w1) /\
    copyEntries children (Path.join targetPath destName) w1 = (Ok tt, w').
Proof.
  rewrite copyEntry_Directory. intros H.
  apply bind_Ok_inv in H as (destName & w1 & [Hn ->]%lift_inv & H).
  apply bind_Ok_inv in H as ([] & w2 & Hm & H).
  eauto.
Qed.

(** *** The last writer wins *)

Lemma last_write_app p l1 l2 :
  last_write p (l1 ++ l2) =
  match last_write p l2 with
  | Some text => Some text
  | None => last_write p l1
  end.
Proof.
  induction l1 as [| [q text] l1 IH]; cbn [app last_write].
  - now destruct (last_write p l2).
  - rewrite IH. now destruct (last_write p l2).
Qed.

Lemma settled_nil w : settled [] w w.
Proof. intros p. cbn. auto. Qed.

Lemma settled_app l1 l2 w w1 w' :
  settled l1 w w1 -> settled l2 w1 w' -> settled (l1 ++ l2) w w'.
Proof.
  intros H1 H2 p. specialize (H1 p). specialize (H2 p). rewrite last_write_app.
  destruct (last_write p l2); [assumption |].
  destruct (last_write p l1); auto.
Qed.

Lemma mkdirSync_settled p w w' :
  Fs.mkdirSync p w = (Ok tt, w') -> settled [] w w'.
Proof.
  intros H. apply mkdirSync_inv in H as [(fs' & Hfs & _ & ->) | (code & _ & [=] & _)].
  intros q c Hq. cbn. eapply mkdirp_keeps; eassumption.
Qed.

Lemma writeFileSync_settled p text w w' :
  Fs.writeFileSync p text w = (Ok tt, w') -> settled [(p, text)] w w'.
Proof.
  intros H. apply writeFileSync_inv in H as [(_ & Hne & Hnd & ->) | (code & [=] & _)].
  intros q. cbn. destruct (decide (p = q)) as [-> | Hpq].
  - apply lookup_insert_eq.
  - intros c Hq. now rewrite lookup_insert_ne.
Qed.

Lemma copyEntry_settled file : forall targetPath w w',
  copyEntry file targetPath w = (Ok tt, w') ->
  settled (rendered_entry ejs_render options file targetPath) w w'.
Proof.
  apply (entry_induction
           (fun file => forall targetPath w w',
              copyEntry file targetPath w = (Ok tt, w') ->
              settled (rendered_entry ejs_render options file targetPath) w w')
           (fun files => forall targetPath w w',
              copyEntries files targetPath w = (Ok tt, w') ->
              settled (rendered ejs_render options files targetPath) w w')).
  - intros n content targetPath w w' H.
    apply copyEntry_File_Ok in H as (destName & text & Hn & Ht & Hw).
    cbn [rendered_entry Fs.name]. rewrite Hn, Ht.
    now apply writeFileSync_settled.
  - intros n children IH targetPath w w' H.
    apply copyEntry_Directory_Ok in H as (destName & w1 & Hn & Hm & Hc).
    cbn [rendered_entry Fs.name]. rewrite Hn.
    change (settled ([] ++ rendered ejs_render options children
                              (Path.join targetPath destName)) w w').
    eapply settled_app; [eapply mkdirSync_settled; eassumption | eapply IH; eassumption].
  - intros targetPath w w' [= <-]. apply settled_nil.
  - intros e rest IHe IHrest targetPath w w' H. cbn [Template.copyEntries] in H.
    apply bind_Ok_inv in H as ([] & w1 & He & Hrest).
    unfold rendered. cbn [flat_map].
    eapply settled_app; [eapply IHe; eassumption | eapply IHrest; eassumption].
Qed.

Lemma copyEntries_settled files targetPath w w' :
  copyEntries files targetPath w = (Ok tt, w') ->
  settled (rendered ejs_render options files targetPath) w w'.
Proof.
  revert w. induction files as [| e rest IH]; intros w H.
  - injection H as <-. apply settled_nil.
  - cbn [Template.copyEntries] in H.
    apply bind_Ok_inv in H as ([] & w1 & He & Hrest).
    unfold rendered. cbn [flat_map].
    eapply settled_app; [eapply copyEntry_settled; eassumption | eapply IH; eassumption].
Qed.

(** *** The structure of the tree is preserved *)

Lemma only_grew_file w w' p : only_grew w w' -> is_file w p -> is_file w' p.
Proof. intros (t & _ & _ & Hf & _ & _). apply Hf. Qed.

Lemma only_grew_dir w w' p : only_grew w w' -> is_dir w p -> is_dir w' p.
Proof. intros (t & _ & _ & _ & Hd & _). apply Hd. Qed.

Lemma writeFileSync_is_file p text w w' :
  Fs.writeFileSync p text w = (Ok tt, w') -> files w' !! p = Some (FileNode text).
Proof.
  intros H. apply writeFileSync_inv in H as [(_ & _ & _ & ->) | (code & [=] & _)].
  apply lookup_insert_eq.
Qed.

Lemma mkdirSync_is_dir p w w' :
  Fs.mkdirSync p w = (Ok tt, w') -> p <> [] -> is_dir w' p.
Proof.
  intros H Hne. apply mkdirSync_inv in H as [(fs' & Hfs & _ & ->) | (code & _ & [=] & _)].
  eapply mkdirp_target; eassumption.
Qed.

Lemma well_named_Member files names e :
  Member files names e ->
  forall d,
    well_named ejs_render options files = true ->
    renderFileName (Fs.name e) options = Ok d ->
    component d = true.
Proof.
  induction 1 as [files e Hin | files dir children names e Hin Hmem IH];
    intros d Hwn Hd; unfold well_named in Hwn; rewrite forallb_forall in Hwn.
  - specialize (Hwn e Hin). destruct e; cbn [name_ok Fs.name] in *;
      rewrite Hd in Hwn; now apply andb_true_iff in Hwn as [? _].
  - specialize (Hwn _ Hin). cbn [name_ok] in Hwn.
    apply andb_true_iff in Hwn as [_ Hch]. now apply IH.
Qed.

Lemma well_named_children files n children :
  well_named ejs_render options files = true ->
  In (Directory n children) files ->
  well_named ejs_render options children = true.
Proof.
  unfold well_named. rewrite forallb_forall. intros Hwn Hin.
  specialize (Hwn _ Hin). cbn [name_ok] in Hwn.
  now apply andb_true_iff in Hwn as [_ Hch].
Qed.

Lemma copyEntries_Member files names e :
  Member files names e ->
  forall targetPath w w',
    well_named ejs_render options files = true ->
    copyEntries files targetPath w = (Ok tt, w') ->
    exists dests,
      renders_to ejs_render options names dests /\
      match e with
      | File _ _ => is_file w' (targetPath ++ dests)
      | Directory _ _ => is_dir w' (targetPath ++ dests)
      end.
Proof.
  induction 1 as [files e Hin | files d children names e Hin Hmem IH];
    intros targetPath w w' Hwn Hcopy.
  - destruct (copyEntries_In _ _ _ _ _ Hcopy Hin) as (w1 & w2 & He & Hgrew).
    destruct e as [n content | n children].
    + apply copyEntry_File_Ok in He as (destName & text & Hn & Ht & Hw).
      pose proof (well_named_Member _ _ _ (Member_here _ _ Hin) _ Hwn Hn) as Hc.
      rewrite (PathFacts.join_component _ _ Hc) in Hw.
      exists [destName]. split; [repeat constructor; assumption |].
      eapply only_grew_file; [eassumption |].
      eexists. eapply writeFileSync_is_file; eassumption.
    + apply copyEntry_Directory_Ok in He as (destName & wa & Hn & Hm & Hch).
      pose proof (well_named_Member _ _ _ (Member_here _ _ Hin) _ Hwn Hn) as Hc.
      rewrite (PathFacts.join_component _ _ Hc) in Hm.
      exists [destName]. split; [repeat constructor; assumption |].
      eapply only_grew_dir; [eassumption |].
      eapply only_grew_dir; [eapply copyEntries_only_grew; eassumption |].
      eapply mkdirSync_is_dir; [eassumption |]. now destruct targetPath.
  - destruct (copyEntries_In _ _ _ _ _ Hcopy Hin) as (w1 & w2 & He & Hgrew).
    apply copyEntry_Directory_Ok in He as (destName & wa & Hn & Hm & Hch).
    pose proof (well_named_Member _ _ _ (Member_here _ _ Hin) _ Hwn Hn) as Hc.
    rewrite (PathFacts.join_component _ _ Hc) in Hch.
    pose proof (well_named_children _ _ _ Hwn Hin) as Hwn'.
    destruct (IH _ _ _ Hwn' Hch) as (dests & Hr & Hat).
    exists (destName :: dests). split; [constructor; assumption |].
    rewrite <- app_assoc in Hat. cbn [app] in Hat.
    destruct e; [eapply only_grew_file | eapply only_grew_dir]; eassumption.
Qed.

(** *** Destinations that exist already *)

Lemma mkdirp_present rest : forall fs done d,
  Fs.walk fs done rest = None ->
  fs !! (done ++ rest ++ [d]) = Some DirNode ->
  Fs.mkdirp fs done (rest ++ [d]) = inr fs.
Proof.
  induction rest as [| n rest IH]; intros fs done d Hwalk Hdir.
  - cbn in *. now rewrite Hdir.
  - cbn [Fs.walk] in Hwalk. cbn [app Fs.mkdirp].
    destruct (fs !! (done ++ [n])) as [[c |] |]; try discriminate Hwalk.
    apply (IH fs (done ++ [n]) d Hwalk). now rewrite <- app_assoc.
Qed.

Lemma walk_snoc rest : forall fs done d,
  Fs.walk fs done rest = None ->
  fs !! (done ++ rest ++ [d]) = Some DirNode ->
  Fs.walk fs done (rest ++ [d]) = None.
Proof.
  induction rest as [| n rest IH]; intros fs done d Hwalk Hdir.
  - cbn in *. now rewrite Hdir.
  - cbn [Fs.walk] in Hwalk. cbn [app Fs.walk].
    destruct (fs !! (done ++ [n])) as [[c |] |]; try discriminate Hwalk.
    apply (IH fs (done ++ [n]) d Hwalk). now rewrite <- app_assoc.
Qed.

Lemma walk_kept rest : forall fs fs' done,
  (forall p, fs !! p = Some DirNode -> fs' !! p = Some DirNode) ->
  Fs.walk fs done rest = None -> Fs.walk fs' done rest = None.
Proof.
  induction rest as [| n rest IH]; intros fs fs' done Hkept Hwalk; [reflexivity |].
  cbn [Fs.walk] in *.
  destruct (fs !! (done ++ [n])) as [[c |] |] eqn:E; try discriminate Hwalk.
  rewrite (Hkept _ E). now apply (IH fs).
Qed.

Lemma writeFileSync_present targetPath d old text w :
  Fs.walk (files w) [] targetPath = None ->
  files w !! (targetPath ++ [d]) = Some (FileNode old) ->
  Fs.writeFileSync (targetPath ++ [d]) text w
  = (Ok tt, {| files := <[targetPath ++ [d] := FileNode text]> (files w);
               trace := trace w ++ [EvWrite (targetPath ++ [d]) text] |}).
Proof.
  intros Hwalk Hfile.
  assert (exists x l, targetPath ++ [d] = x :: l) as (x & l & E).
  { destruct targetPath as [| x l]; eexists _, _; reflexivity. }
  unfold Fs.writeFileSync. rewrite E. cbv iota. rewrite <- E.
  now rewrite removelast_last, Hwalk, Hfile.
Qed.

(** A directory entry whose destination is a directory already: the
    directory is kept as it is, and the children are copied into it. *)
Lemma copyEntry_Directory_present targetPath n d children w :
  Fs.walk (files w) [] targetPath = None ->
  renderFileName n options = Ok d ->
  component d = true ->
  is_dir w (targetPath ++ [d]) ->
  copyEntry (Directory n children) targetPath w
  = copyEntries children (targetPath ++ [d])
      {| files := files w; trace := trace w ++ [EvMkdir (targetPath ++ [d])] |}.
Proof.
  intros Hwalk Hname Hd Hdir.
  rewrite copyEntry_Directory, Hname.
  rewrite (bind_Ok (lift (Ok d)) _ w d w eq_refl).
  rewrite (PathFacts.join_component _ _ Hd).
  assert (Fs.mkdirSync (targetPath ++ [d]) w
          = (Ok tt, {| files := files w;
                       trace := trace w ++ [EvMkdir (targetPath ++ [d])] |})) as Hmkdir.
  { unfold Fs.mkdirSync.
    now rewrite (mkdirp_present targetPath (files w) [] d Hwalk Hdir). }
  now rewrite (bind_Ok _ _ _ _ _ Hmkdir).
Qed.

(** A file entry whose destination is a file already: the text is
    replaced. *)
Lemma copyEntry_File_present targetPath n d content text old w :
  Fs.walk (files w) [] targetPath = None ->
  renderFileName n options = Ok d ->
  component d = true ->
  renderTemplate content options = Ok text ->
  files w !! (targetPath ++ [d]) = Some (FileNode old) ->
  copyEntry (File n content) targetPath w
  = (Ok tt, {| files := <[targetPath ++ [d] := FileNode text]> (files w);
               trace := trace w ++ [EvWrite (targetPath ++ [d]) text] |}).
Proof.
  intros Hwalk Hname Hd Htext Hfile.
  rewrite copyEntry_File, Hname.
  rewrite (bind_Ok (lift (Ok d)) _ w d w eq_refl).
  rewrite Htext.
  rewrite (bind_Ok (lift (Ok text)) _ w text w eq_refl).
  rewrite (PathFacts.join_component _ _ Hd).
  now apply (writeFileSync_present targetPath d old).
Qed.

(** *** A pass run again *)

(** In a completed copy every name and every text rendered. *)
Lemma copyEntry_renders file : forall targetPath w w',
  copyEntry file targetPath w = (Ok tt, w') -> renders ejs_render options file = true.
Proof.
  apply (entry_induction
           (fun file => forall targetPath w w',
              copyEntry file targetPath w = (Ok tt, w') ->
              renders ejs_render options file = true)
           (fun files => forall targetPath w w',
              copyEntries files targetPath w = (Ok tt, w') ->
              forallb (renders ejs_render options) files = true)).
  - intros n content targetPath w w' H.
    apply copyEntry_File_Ok in H as (destName & text & Hn & Ht & _).
    cbn [renders Fs.name]. now rewrite Hn, Ht.
  - intros n children IH targetPath w w' H.
    apply copyEntry_Directory_Ok in H as (destName & w1 & Hn & _ & Hch).
    cbn [renders Fs.name]. rewrite Hn. cbn. eapply IH. eassumption.
  - reflexivity.
  - intros e rest IHe IHrest targetPath w w' H.
    cbn [Template.copyEntries] in H.
    apply bind_Ok_inv in H as ([] & w0 & He & Hrest).
    cbn [forallb]. rewrite (IHe _ _ _ He). cbn. eapply IHrest. eassumption.
Qed.

Lemma copyEntries_renders files targetPath w w' :
  copyEntries files targetPath w = (Ok tt, w') ->
  forallb (renders ejs_render options) files = true.
Proof.
  revert targetPath w w'. induction files as [| e rest IH]; intros targetPath w w' H;
    [reflexivity |].
  cbn [Template.copyEntries] in H.
  apply bind_Ok_inv in H as ([] & w0 & He & Hrest).
  cbn [forallb]. rewrite (copyEntry_renders _ _ _ _ He). cbn. eapply IH. eassumption.
Qed.

Lemma renders_to_functional names : forall d1 d2,
  renders_to ejs_render options names d1 -> renders_to ejs_render options names d2 ->
  d1 = d2.
Proof.
  induction names as [| n names IH]; intros d1 d2 H1 H2;
    inversion H1; inversion H2; subst; [reflexivity |].
  f_equal; [congruence | now apply IH].
Qed.

Lemma Member_incl files files' names e :
  (forall x, In x files -> In x files') ->
  Member files names e -> Member files' names e.
Proof.
  intros Hincl H. destruct H as [files e Hin | files d children names e Hin Hmem].
  - apply Member_here. auto.
  - eapply Member_below; [apply Hincl; eassumption | assumption].
Qed.

Lemma in_place_after files targetPath w w' :
  well_named ejs_render options files = true ->
  copyEntries files targetPath w = (Ok tt, w') ->
  in_place ejs_render options files targetPath w'.
Proof.
  intros Hwn Hcopy names e dests Hmem Hr.
  destruct (copyEntries_Member _ _ _ Hmem _ _ _ Hwn Hcopy) as (dests' & Hr' & Hat).
  now rewrite (renders_to_functional _ _ _ Hr Hr').
Qed.

Lemma in_place_grew files targetPath w w' :
  only_grew w w' ->
  in_place ejs_render options files targetPath w ->
  in_place ejs_render options files targetPath w'.
Proof.
  intros Hgrew Hplace names e dests Hmem Hr.
  specialize (Hplace names e dests Hmem Hr).
  destruct e; [eapply only_grew_file | eapply only_grew_dir]; eassumption.
Qed.

(** Where every destination is in place, the copy completes: each
    directory is found and kept, each file is replaced. *)
Lemma copyEntries_in_place files : forall targetPath w,
  forallb (renders ejs_render options) files = true ->
  well_named ejs_render options files = true ->
  Fs.walk (World.files w) [] targetPath = None ->
  in_place ejs_render options files targetPath w ->
  exists w', copyEntries files targetPath w = (Ok tt, w').
Proof.
  apply (entries_induction
           (fun file => forall targetPath w,
              renders ejs_render options file = true ->
              name_ok ejs_render options file = true ->
              Fs.walk (World.files w) [] targetPath = None ->
              in_place ejs_render options [file] targetPath w ->
              exists w', copyEntry file targetPath w = (Ok tt, w'))
           (fun files => forall targetPath w,
              forallb (renders ejs_render options) files = true ->
              well_named ejs_render options files = true ->
              Fs.walk (World.files w) [] targetPath = None ->
              in_place ejs_render options files targetPath w ->
              exists w', copyEntries files targetPath w = (Ok tt, w'))).
  - intros n content targetPath w Hrenders Hok Hwalk Hplace.
    cbn [renders name_ok Fs.name] in Hrenders, Hok.
    destruct (renderFileName n options) as [d | | |] eqn:Hn; try discriminate Hrenders.
    destruct (renderTemplate content options) as [text | | |] eqn:Ht;
      try discriminate Hrenders.
    rewrite andb_true_r in Hok.
    destruct (Hplace [n] (File n content) [d]) as [old Hfile].
    { apply (Member_here [File n content] (File n content)). now left. }
    { repeat constructor. assumption. }
    eexists. now apply (copyEntry_File_present targetPath n d content text old).
  - intros n children IH targetPath w Hrenders Hok Hwalk Hplace.
    cbn [renders name_ok Fs.name] in Hrenders, Hok.
    destruct (renderFileName n options) as [d | | |] eqn:Hn; try discriminate Hrenders.
    cbn in Hrenders. apply andb_true_iff in Hok as [Hd Hchildren].
    assert (is_dir w (targetPath ++ [d])) as Hdir.
    { apply (Hplace [n] (Directory n children) [d]).
      - apply (Member_here [Directory n children] (Directory n children)). now left.
      - repeat constructor. assumption. }
    rewrite (copyEntry_Directory_present targetPath n d children w Hwalk Hn Hd Hdir).
    apply IH; [assumption | assumption | |].
    + cbn [World.files]. now apply walk_snoc.
    + intros names e dests Hmem Hr.
      assert (renders_to ejs_render options (n :: names) (d :: dests)) as Hr'
        by (constructor; assumption).
      assert (Hat := Hplace (n :: names) e (d :: dests)
                       (Member_below [Directory n children] n children names e
                          (or_introl eq_refl) Hmem) Hr').
      rewrite <- app_assoc. exact Hat.
  - intros targetPath w _ _ _ _. now exists w.
  - intros e rest IHe IHrest targetPath w Hrenders Hwn Hwalk Hplace.
    cbn [forallb] in Hrenders. apply andb_true_iff in Hrenders as [He Hrest].
    unfold well_named in Hwn. cbn [forallb] in Hwn.
    apply andb_true_iff in Hwn as [Hoke Hokrest].
    destruct (IHe targetPath w He Hoke Hwalk) as [w1 Hcopy].
    { intros names x dests Hmem Hr. apply (Hplace names x dests); [| assumption].
      eapply Member_incl; [| eassumption]. intros y [-> | []]. now left. }
    pose proof (copyEntry_only_grew e targetPath w (Ok tt) w1 Hcopy) as Hgrew.
    destruct (IHrest targetPath w1 Hrest Hokrest) as [w' Hcopy'].
    + eapply walk_kept; [| eassumption].
      intros p Hp. exact (only_grew_dir _ _ _ Hgrew Hp).
    + eapply in_place_grew; [eassumption |].
      intros names x dests Hmem Hr. apply (Hplace names x dests); [| assumption].
      eapply Member_incl; [| eassumption]. intros y Hy. now right.
    + exists w'. cbn [Template.copyEntries]. now rewrite (bind_Ok _ _ _ _ _ Hcopy).
Qed.

(** A completed pass can be run again on the world it left. *)
Lemma copyTemplateFiles_again templatePath targetPath files w w' :
  Fs.readdirSync catalog templatePath = Ok files ->
  well_named ejs_render options files = true ->
  Fs.walk (World.files w) [] targetPath = None ->
  copyTemplateFiles templatePath targetPath options w = (Ok tt, w') ->
  exists w'', copyTemplateFiles templatePath targetPath options w' = (Ok tt, w'').
Proof.
  intros Hdir Hwn Hwalk Hrun. unfold Template.copyTemplateFiles in *. rewrite Hdir in *.
  rewrite (bind_Ok (lift (Ok files)) _ w files w eq_refl) in Hrun.
  rewrite (bind_Ok (lift (Ok files)) _ w' files w' eq_refl).
  apply copyEntries_in_place.
  - eapply copyEntries_renders. eassumption.
  - assumption.
  - eapply walk_kept; [| eassumption].
    intros p Hp.
    exact (only_grew_dir _ _ _ (copyEntries_only_grew files targetPath w (Ok tt) w' Hrun) Hp).
  - eapply in_place_after; eassumption.
Qed.

End Engine.

End TemplateFacts.

(* ===================================================================== *)
(** ** copyTemplate: the two passes *)
(* ===================================================================== *)

(** C7.  When the sibling common root does not exist, [copyTemplate] is the
    specific pass alone: nothing is raised for the missing common tree and
    the specific pass runs on the untouched world. *)
Theorem C7_missing_common_is_skipped
    (ejs_render : string -> list (string * value) -> option Ejs.options -> outcome string)
    (catalog : list entry) (templatePath targetPath : list string)
    (options : GenerateProjectOptions) (w : world) :
  Fs.existsSync catalog (Path.join (Path.dirname templatePath) "common") = false ->
  Template.copyTemplate ejs_render catalog templatePath targetPath options w
  = Template.copyTemplateFiles ejs_render catalog templatePath targetPath options w.
Proof.
  intros H. unfold Template.copyTemplate. rewrite H. reflexivity.
Qed.

Lemma C7_witness :
  Template.copyTemplate Ejs.render Sample.catalog_no_common Sample.templatePath
    (Types.targetPath Sample.options) Sample.options Sample.world0
  = Template.copyTemplateFiles Ejs.render Sample.catalog_no_common Sample.templatePath
      (Types.targetPath Sample.options) Sample.options Sample.world0
  /\ fst (Template.copyTemplate Ejs.render Sample.catalog_no_common Sample.templatePath
            (Types.targetPath Sample.options) Sample.options Sample.world0) = Ok tt.
Proof.
  split.
  - apply C7_missing_common_is_skipped. reflexivity.
  - vm_compute. reflexivity.
Defined.

(** C3 (amended).  When the specific template root cannot be resolved,
    [copyTemplate] never returns normally.  Without a common sibling tree
    it fails with the error of listing that root before anything is
    written: the world is unchanged.  With a common sibling tree the common
    pass runs first: when that pass completes, [copyTemplate] fails with
    the error of listing the specific root, in the world the common pass
    left; when that pass itself fails, [copyTemplate] ends as the pass
    ended, with the error of the pass and in the world the pass left, and
    the specific root is never listed. *)
Theorem C3_missing_specific_root
    (ejs_render : string -> list (string * value) -> option Ejs.options -> outcome string)
    (catalog : list entry) (templatePath targetPath : list string)
    (options : GenerateProjectOptions) (code : errno) :
  Fs.resolve catalog templatePath = Fs.Missing code ->
  (forall w,
     fst (Template.copyTemplate ejs_render catalog templatePath targetPath options w)
     <> Ok tt) /\
  (Fs.existsSync catalog (Path.join (Path.dirname templatePath) "common") = false ->
   forall w,
     Template.copyTemplate ejs_render catalog templatePath targetPath options w
     = (Throw (SystemError code "scandir" templatePath), w)) /\
  (Fs.existsSync catalog (Path.join (Path.dirname templatePath) "common") = true ->
   forall w r w1,
     Template.copyTemplateFiles ejs_render catalog
       (Path.join (Path.dirname templatePath) "common") targetPath options w = (r, w1) ->
     Template.copyTemplate ejs_render catalog templatePath targetPath options w
     = (match r with
        | Ok _ => Throw (SystemError code "scandir" templatePath)
        | Throw e => Throw e
        | Exit n => Exit n
        | Hang => Hang
        end, w1)).
Proof.
  intros Hmissing.
  assert (forall w0,
    Template.copyTemplateFiles ejs_render catalog templatePath targetPath options w0
    = (Throw (SystemError code "scandir" templatePath), w0)) as Hspecific.
  { intros w0. unfold Template.copyTemplateFiles, Fs.readdirSync.
    rewrite Hmissing. reflexivity. }
  assert (forall w r w1,
    Fs.existsSync catalog (Path.join (Path.dirname templatePath) "common") = true ->
    Template.copyTemplateFiles ejs_render catalog
      (Path.join (Path.dirname templatePath) "common") targetPath options w = (r, w1) ->
    Template.copyTemplate ejs_render catalog templatePath targetPath options w
    = (match r with
       | Ok _ => Throw (SystemError code "scandir" templatePath)
       | Throw e => Throw e
       | Exit n => Exit n
       | Hang => Hang
       end, w1)) as Hafter.
  { intros w r w1 Hcommon Hpass. unfold Template.copyTemplate. rewrite Hcommon.
    destruct r as [[] | e | n |].
    - rewrite (RunFacts.bind_Ok _ _ _ _ _ Hpass). apply Hspecific.
    - unfold World.bind. now rewrite Hpass.
    - unfold World.bind. now rewrite Hpass.
    - unfold World.bind. now rewrite Hpass. }
  assert (Fs.existsSync catalog (Path.join (Path.dirname templatePath) "common") = false ->
          forall w,
            Template.copyTemplate ejs_render catalog templatePath targetPath options w
            = (Throw (SystemError code "scandir" templatePath), w)) as Hbefore.
  { intros Hcommon w. unfold Template.copyTemplate. rewrite Hcommon.
    rewrite (RunFacts.bind_Ok _ _ w tt w eq_refl). apply Hspecific. }
  split; [| split; assumption || (intros Hcommon w r w1; now apply Hafter)].
  intros w.
  destruct (Fs.existsSync catalog (Path.join (Path.dirname templatePath) "common"))
    eqn:Hcommon.
  - rewrite (Hafter w _ _ eq_refl (surjective_pairing _)). cbn [fst].
    now destruct (fst _) as [[] | e | n |].
  - now rewrite (Hbefore eq_refl w).
Qed.

(** The specific root is missing.  Without a common tree the world is
    untouched; after a common tree that renders the README of that tree is
    in place; a common tree whose README has an unclosed tag ends the run
    with the failure of that file. *)
Lemma C3_witness :
  let common := Path.join (Path.dirname Sample.templatePath) "common" in
  let target := Types.targetPath Sample.options in
  let w1 :=
    snd (Template.copyTemplateFiles Ejs.render Sample.catalog_common_only common target
           Sample.options Sample.world0) in
  Template.copyTemplate Ejs.render (Sample.catalog_of []) Sample.templatePath target
    Sample.options Sample.world0
  = (Throw (SystemError ENOENT "scandir" Sample.templatePath), Sample.world0) /\
  Template.copyTemplate Ejs.render Sample.catalog_common_only Sample.templatePath target
    Sample.options Sample.world0
  = (Throw (SystemError ENOENT "scandir" Sample.templatePath), w1) /\
  Template.copyTemplate Ejs.render Sample.catalog_common_unclosed Sample.templatePath target
    Sample.options Sample.world0
  = (Throw (ErrorWithCause "Failed to render template"
              (EjsError ("Could not find matching close tag for "
                         +:+ String "034" "{{%=" +:+ String "034" "."))),
     Sample.world0).
Proof.
  cbv zeta. split; [| split].
  - exact (proj1 (proj2 (C3_missing_specific_root Ejs.render (Sample.catalog_of [])
                    Sample.templatePath (Types.targetPath Sample.options) Sample.options
                    ENOENT eq_refl)) eq_refl Sample.world0).
  - refine (proj2 (proj2 (C3_missing_specific_root Ejs.render Sample.catalog_common_only
                     Sample.templatePath (Types.targetPath Sample.options) Sample.options
                     ENOENT eq_refl)) eq_refl Sample.world0 (Ok tt) _ _).
    vm_compute. reflexivity.
  - refine (proj2 (proj2 (C3_missing_specific_root Ejs.render Sample.catalog_common_unclosed
                     Sample.templatePath (Types.targetPath Sample.options) Sample.options
                     ENOENT eq_refl)) eq_refl Sample.world0
              (Throw (ErrorWithCause "Failed to render template"
                        (EjsError ("Could not find matching close tag for "
                                   +:+ String "034" "{{%=" +:+ String "034" "."))))
              Sample.world0 _).
    vm_compute. reflexivity.
Defined.

(** C3 as stated fails: the specific root is missing, a common tree exists,
    and at the time of the failure the destination holds a file it did not
    hold before. *)
Lemma C3_counterexample :
  let run :=
    Template.copyTemplate Ejs.render Sample.catalog_common_only Sample.templatePath
      (Types.targetPath Sample.options) Sample.options Sample.world0 in
  Fs.existsSync Sample.catalog_common_only Sample.templatePath = false /\
  fst run = Throw (SystemError ENOENT "scandir" Sample.templatePath) /\
  World.files Sample.world0 !! ["work"; "my-app"; "README.md"] = None /\
  World.files (snd run) !! ["work"; "my-app"; "README.md"] = Some (FileNode "# Common my-app") /\
  World.trace (snd run) = [EvWrite ["work"; "my-app"; "README.md"] "# Common my-app"].
Proof. cbv zeta. repeat apply conj; vm_compute; reflexivity. Qed.

(* ===================================================================== *)
(** ** Render failures *)
(* ===================================================================== *)

(** C5 (amended).  When the engine throws on the name of an entry, the copy
    of that entry fails with an error whose message names the entry and
    whose cause is what the engine threw; when it throws on the text of a
    file, the copy of that file fails with an error whose cause is what the
    engine threw.  Either failure leaves the world as it was when the entry
    was reached.  A failure of an entry ends the loop over its directory,
    the copy of every enclosing directory, the pass and [copyTemplate], with
    the same error and the same world.  However [copyTemplate] ends, the
    destination only grew: nothing that existed or was written is removed. *)
Theorem C5_render_failure_is_fatal
    (ejs_render : string -> list (string * value) -> option Ejs.options -> outcome string)
    (catalog : list entry) (options : GenerateProjectOptions) :
  (forall file targetPath w cause,
     ejs_render (Template.strip_sentinel (Fs.name file)) (Types.options_object options) None
     = Throw cause ->
     Template.copyEntry ejs_render options file targetPath w
     = (Throw (ErrorWithCause ("Failed to render file name: " +:+ Fs.name file) cause), w)) /\
  (forall n content destName targetPath w cause,
     Template.renderFileName ejs_render n options = Ok destName ->
     ejs_render content (Template.locals options) Template.braces = Throw cause ->
     Template.copyEntry ejs_render options (File n content) targetPath w
     = (Throw (ErrorWithCause "Failed to render template" cause), w)) /\
  (forall pre file post targetPath w w1 e w2,
     Template.copyEntries ejs_render options pre targetPath w = (Ok tt, w1) ->
     Template.copyEntry ejs_render options file targetPath w1 = (Throw e, w2) ->
     Template.copyEntries ejs_render options (pre ++ file :: post) targetPath w
     = (Throw e, w2)) /\
  (forall n children destName targetPath w w1 e w2,
     Template.renderFileName ejs_render n options = Ok destName ->
     Fs.mkdirSync (Path.join targetPath destName) w = (Ok tt, w1) ->
     Template.copyEntries ejs_render options children (Path.join targetPath destName) w1
     = (Throw e, w2) ->
     Template.copyEntry ejs_render options (Directory n children) targetPath w
     = (Throw e, w2)) /\
  (forall templatePath targetPath files w e w1,
     Fs.readdirSync catalog templatePath = Ok files ->
     Template.copyEntries ejs_render options files targetPath w = (Throw e, w1) ->
     Template.copyTemplateFiles ejs_render catalog templatePath targetPath options w
     = (Throw e, w1)) /\
  (forall templatePath targetPath w e w1,
     Fs.existsSync catalog (Path.join (Path.dirname templatePath) "common") = true ->
     Template.copyTemplateFiles ejs_render catalog
       (Path.join (Path.dirname templatePath) "common") targetPath options w = (Throw e, w1) ->
     Template.copyTemplate ejs_render catalog templatePath targetPath options w
     = (Throw e, w1)) /\
  (forall templatePath targetPath w w1 e w2,
     (if Fs.existsSync catalog (Path.join (Path.dirname templatePath) "common")
      then Template.copyTemplateFiles ejs_render catalog
             (Path.join (Path.dirname templatePath) "common") targetPath options w
      else (Ok tt, w)) = (Ok tt, w1) ->
     Template.copyTemplateFiles ejs_render catalog templatePath targetPath options w1
     = (Throw e, w2) ->
     Template.copyTemplate ejs_render catalog templatePath targetPath options w
     = (Throw e, w2)) /\
  (forall templatePath targetPath w r w',
     Template.copyTemplate ejs_render catalog templatePath targetPath options w = (r, w') ->
     Spec.only_grew w w').
Proof.
  repeat apply conj.
  - apply TemplateFacts.copyEntry_name_Throw.
  - apply TemplateFacts.copyEntry_content_Throw.
  - apply TemplateFacts.copyEntries_Throw.
  - apply TemplateFacts.copyEntry_children_Throw.
  - intros templatePath targetPath files w e w1 Hdir Hcopy.
    unfold Template.copyTemplateFiles. unfold World.bind at 1. unfold World.lift.
    now rewrite Hdir.
  - intros templatePath targetPath w e w1 Hcommon Hpass.
    unfold Template.copyTemplate. rewrite Hcommon.
    now apply RunFacts.bind_Throw.
  - intros templatePath targetPath w w1 e w2 Hfirst Hsecond.
    unfold Template.copyTemplate.
    destruct (Fs.existsSync catalog _).
    + now rewrite (RunFacts.bind_Ok _ _ _ _ _ Hfirst).
    + injection Hfirst as <-. exact Hsecond.
  - intros templatePath targetPath w r w'.
    apply TemplateFacts.copyTemplate_only_grew.
Qed.

(** The unclosed tag in the text of [a.txt]: the copy fails with the error
    that wraps what the engine threw, in the world left by the entry copied
    before it, whose file is still there. *)
Lemma C5_witness :
  let w1 :=
    snd (Template.copyEntries Ejs.render Sample.options
           [File "README.md" "# TS {{%=PACKAGE_NAME%}}"]
           (Types.targetPath Sample.options) Sample.world0) in
  (exists cause,
     Template.copyTemplate Ejs.render Sample.catalog_unclosed_tag Sample.templatePath
       (Types.targetPath Sample.options) Sample.options Sample.world0
     = (Throw (ErrorWithCause "Failed to render template" cause), w1)) /\
  Spec.only_grew Sample.world0 w1.
Proof.
  cbv zeta.
  destruct (C5_render_failure_is_fatal Ejs.render Sample.catalog_unclosed_tag Sample.options)
    as (_ & Htext & Hloop & _ & Hpass & _ & Htop & Hgrew).
  split.
  - eexists.
    apply (Htop _ _ _ Sample.world0); [reflexivity |].
    apply (Hpass _ _ [File "README.md" "# TS {{%=PACKAGE_NAME%}}"; File "a.txt" "{{%= PACKAGE_NAME"]);
      [reflexivity |].
    apply (Hloop [File "README.md" "# TS {{%=PACKAGE_NAME%}}"] (File "a.txt" "{{%= PACKAGE_NAME") []
                 _ Sample.world0
                 (snd (Template.copyEntries Ejs.render Sample.options
                         [File "README.md" "# TS {{%=PACKAGE_NAME%}}"]
                         (Types.targetPath Sample.options) Sample.world0))).
    + vm_compute. reflexivity.
    + apply (Htext "a.txt" "{{%= PACKAGE_NAME" "a.txt"); reflexivity.
  - apply (Hgrew Sample.templatePath (Types.targetPath Sample.options) _
                 (Throw (ErrorWithCause "Failed to render template"
                           (EjsError ("Could not find matching close tag for "
                                      +:+ String "034" "{{%=" +:+ String "034" "."))))).
    vm_compute. reflexivity.
Defined.

(** C5 as stated fails for the text of a file: the error of the failed copy
    carries the cause, and nothing in it or in its causes names the file
    [a.txt] whose text did not render. *)
Lemma C5_counterexample :
  let run :=
    Template.copyTemplate Ejs.render Sample.catalog_unclosed_tag Sample.templatePath
      (Types.targetPath Sample.options) Sample.options Sample.world0 in
  exists e,
    fst run = Throw e /\
    Spec.messages e = [ "Failed to render template";
                        "Could not find matching close tag for "
                        +:+ String "034" "{{%=" +:+ String "034" "." ] /\
    Spec.mentions e "a.txt" = false.
Proof.
  cbv zeta. eexists. repeat apply conj.
  - vm_compute. reflexivity.
  - vm_compute. reflexivity.
  - vm_compute. reflexivity.
Qed.

(* ===================================================================== *)
(** ** Precedence of the specific tree *)
(* ===================================================================== *)

Lemma last_write_unique p text (writes : list (list string * string)) :
  In (p, text) writes ->
  (forall text', In (p, text') writes -> text' = text) ->
  Spec.last_write p writes = Some text.
Proof.
  induction writes as [| [q t] rest IH]; intros Hin Huniq; [destruct Hin |].
  cbn [Spec.last_write].
  destruct (Spec.last_write p rest) as [later |] eqn:E.
  - assert (In (p, later) rest) as Hlater.
    { clear -E. induction rest as [| [q' t'] rest IH]; [discriminate |].
      cbn [Spec.last_write] in E. destruct (Spec.last_write p rest) as [l |].
      - injection E as ->. right. now apply IH.
      - destruct (decide (q' = p)) as [-> |]; [| discriminate].
        injection E as ->. now left. }
    f_equal. apply Huniq. now right.
  - destruct Hin as [[= -> ->] | Hin].
    + now rewrite decide_True.
    + exfalso. clear -E Hin. induction rest as [| [q' t'] rest IH]; [destruct Hin |].
      cbn [Spec.last_write] in E. destruct (Spec.last_write p rest) as [l |]; [discriminate |].
      destruct Hin as [[= -> ->] | Hin]; [now rewrite decide_True in E | now apply IH].
Qed.

(** C1 (amended).  When [copyTemplate] completes, the common pass (if the
    common tree exists) ran to completion first and the specific pass
    second; every destination path at which the specific tree renders a
    file then holds the text of the specific file rendered there last, in
    particular the text of the only specific file rendered there when there
    is just one, whatever the common pass wrote at that path. *)
Theorem C1_specific_overrides_common
    (ejs_render : string -> list (string * value) -> option Ejs.options -> outcome string)
    (catalog : list entry) (templatePath targetPath : list string)
    (options : GenerateProjectOptions) (specific : list entry) (w w' : world) :
  Fs.readdirSync catalog templatePath = Ok specific ->
  Template.copyTemplate ejs_render catalog templatePath targetPath options w = (Ok tt, w') ->
  (exists w1,
     (if Fs.existsSync catalog (Path.join (Path.dirname templatePath) "common")
      then Template.copyTemplateFiles ejs_render catalog
             (Path.join (Path.dirname templatePath) "common") targetPath options w
      else (Ok tt, w)) = (Ok tt, w1) /\
     Template.copyEntries ejs_render options specific targetPath w1 = (Ok tt, w')) /\
  (forall p text,
     Spec.last_write p (Spec.rendered ejs_render options specific targetPath) = Some text ->
     World.files w' !! p = Some (FileNode text)) /\
  (forall p text,
     In (p, text) (Spec.rendered ejs_render options specific targetPath) ->
     (forall text', In (p, text') (Spec.rendered ejs_render options specific targetPath) ->
                    text' = text) ->
     World.files w' !! p = Some (FileNode text)).
Proof.
  intros Hdir Hrun. unfold Template.copyTemplate in Hrun.
  apply RunFacts.bind_Ok_inv in Hrun as ([] & w1 & Hfirst & Hsecond).
  unfold Template.copyTemplateFiles in Hsecond at 1.
  apply RunFacts.bind_Ok_inv in Hsecond as (files & w2 & [Hfiles ->]%RunFacts.lift_inv & Hcopy).
  rewrite Hdir in Hfiles. injection Hfiles as Hfiles. subst files.
  pose proof (TemplateFacts.copyEntries_settled _ _ _ _ _ _ Hcopy) as Hsettled.
  assert (forall p text,
    Spec.last_write p (Spec.rendered ejs_render options specific targetPath) = Some text ->
    World.files w' !! p = Some (FileNode text)) as Hlast.
  { intros p text Hp. specialize (Hsettled p). now rewrite Hp in Hsettled. }
  repeat apply conj.
  - exists w1. split; [| assumption].
    destruct (Fs.existsSync catalog _); [assumption |].
    now injection Hfirst as <-.
  - exact Hlast.
  - intros p text Hin Huniq. apply Hlast. now apply last_write_unique.
Qed.

(** The README of the specific tree replaces the README of the common tree. *)
Lemma C1_witness :
  let run :=
    Template.copyTemplate Ejs.render Sample.catalog_readme Sample.templatePath
      (Types.targetPath Sample.options) Sample.options Sample.world0 in
  World.files (snd run) !! ["work"; "my-app"; "README.md"] = Some (FileNode "# TS my-app").
Proof.
  cbv zeta.
  refine (proj1 (proj2
    (C1_specific_overrides_common Ejs.render Sample.catalog_readme Sample.templatePath
       (Types.targetPath Sample.options) Sample.options
       [ File "README.md" "# TS {{%=PACKAGE_NAME%}}";
         File "$.gitignore" "node_modules";
         Directory "src" [Directory "components" [File "Button.tsx" "export {}"]] ]
       Sample.world0
       (snd (Template.copyTemplate Ejs.render Sample.catalog_readme Sample.templatePath
               (Types.targetPath Sample.options) Sample.options Sample.world0))
       _ _)) ["work"; "my-app"; "README.md"] "# TS my-app" _).
  - reflexivity.
  - vm_compute. reflexivity.
  - vm_compute. reflexivity.
Defined.

(** C1 as stated fails in two ways.  When two entries of the specific tree
    render to the same path: in either order of the two siblings the run
    completes, both are specific files at the rendered path, the common tree
    has a file at that path too, and the destination differs from the
    rendered text of one of the two.  And when the specific pass fails
    before it reaches the file: the destination keeps the text of the common
    file. *)
Lemma C1_counterexample :
  let target := Types.targetPath Sample.options in
  let run first second :=
    Template.copyTemplate Ejs.render (Sample.catalog_shadow first second)
      Sample.templatePath target Sample.options Sample.world0 in
  let specific first second :=
    Spec.rendered Ejs.render Sample.options [first; second] target in
  let p := ["work"; "my-app"; "x"] in
  let broken :=
    Template.copyTemplate Ejs.render Sample.catalog_broken_sibling
      Sample.templatePath target Sample.options Sample.world0 in
  let readme := ["work"; "my-app"; "README.md"] in
  (fst (run (File "$x" "A") (File "x" "B")) = Ok tt /\
   In (p, "A") (specific (File "$x" "A") (File "x" "B")) /\
   World.files (snd (run (File "$x" "A") (File "x" "B"))) !! p = Some (FileNode "B")) /\
  (fst (run (File "x" "B") (File "$x" "A")) = Ok tt /\
   In (p, "B") (specific (File "x" "B") (File "$x" "A")) /\
   World.files (snd (run (File "x" "B") (File "$x" "A"))) !! p = Some (FileNode "A")) /\
  (In (readme, "# TS my-app")
      (specific (File "A.txt" "{{%= PACKAGE_NAME") (File "README.md" "# TS {{%=PACKAGE_NAME%}}")) /\
   World.files (snd broken) !! readme = Some (FileNode "# Common my-app")).
Proof.
  cbv zeta. repeat apply conj; try (vm_compute; reflexivity).
  - vm_compute. auto.
  - vm_compute. auto.
  - vm_compute. auto.
Qed.

(* ===================================================================== *)
(** ** Structure of the destination tree *)
(* ===================================================================== *)

(** C6 (amended).  For a template tree whose names all render to single
    path components, a completed [copyTemplateFiles] leaves, for every
    entry found in the tree under the source names [n1/.../nk], a
    destination node under the rendered names [d1/.../dk] below the target:
    a file for a file, a directory for a directory, one level per level.
    The copier meets an existing destination without an error: for a
    directory entry whose destination directory exists it keeps that
    directory as it is and copies the children into it, and for a file
    entry whose destination file exists it replaces the text of that file.
    Hence a completed pass over such a tree can be run again on the world
    it left, and completes again. *)
Theorem C6_structure_preserved
    (ejs_render : string -> list (string * value) -> option Ejs.options -> outcome string)
    (catalog : list entry) (options : GenerateProjectOptions) :
  (forall templatePath targetPath files names e w w',
     Fs.readdirSync catalog templatePath = Ok files ->
     Spec.well_named ejs_render options files = true ->
     Spec.Member files names e ->
     Template.copyTemplateFiles ejs_render catalog templatePath targetPath options w
     = (Ok tt, w') ->
     exists dests,
       Spec.renders_to ejs_render options names dests /\
       length dests = length names /\
       match e with
       | File _ _ => Spec.is_file w' (targetPath ++ dests)
       | Directory _ _ => Spec.is_dir w' (targetPath ++ dests)
       end) /\
  (forall targetPath n d children w,
     Fs.walk (World.files w) [] targetPath = None ->
     Template.renderFileName ejs_render n options = Ok d ->
     Spec.component d = true ->
     Spec.is_dir w (targetPath ++ [d]) ->
     Template.copyEntry ejs_render options (Directory n children) targetPath w
     = Template.copyEntries ejs_render options children (targetPath ++ [d])
         {| World.files := World.files w;
            World.trace := World.trace w ++ [EvMkdir (targetPath ++ [d])] |}) /\
  (forall targetPath n d content text old w,
     Fs.walk (World.files w) [] targetPath = None ->
     Template.renderFileName ejs_render n options = Ok d ->
     Spec.component d = true ->
     Template.renderTemplate ejs_render content options = Ok text ->
     World.files w !! (targetPath ++ [d]) = Some (FileNode old) ->
     Template.copyEntry ejs_render options (File n content) targetPath w
     = (Ok tt,
        {| World.files := <[targetPath ++ [d] := FileNode text]> (World.files w);
           World.trace := World.trace w ++ [EvWrite (targetPath ++ [d]) text] |})) /\
  (forall templatePath targetPath files w w',
     Fs.readdirSync catalog templatePath = Ok files ->
     Spec.well_named ejs_render options files = true ->
     Fs.walk (World.files w) [] targetPath = None ->
     Template.copyTemplateFiles ejs_render catalog templatePath targetPath options w
     = (Ok tt, w') ->
     exists w'',
       Template.copyTemplateFiles ejs_render catalog templatePath targetPath options w'
       = (Ok tt, w'')).
Proof.
  split; [| split; [| split]].
  - intros templatePath targetPath files names e w w' Hdir Hwn Hmem Hrun.
    unfold Template.copyTemplateFiles in Hrun.
    apply RunFacts.bind_Ok_inv in Hrun as (files' & w1 & [Hfiles ->]%RunFacts.lift_inv & Hcopy).
    rewrite Hdir in Hfiles. injection Hfiles as Hfiles. subst files'.
    destruct (TemplateFacts.copyEntries_Member _ _ _ _ _ Hmem _ _ _ Hwn Hcopy)
      as (dests & Hr & Hat).
    exists dests. repeat apply conj; [assumption | | assumption].
    symmetry. eapply Forall2_length. exact Hr.
  - intros targetPath n d children w.
    apply TemplateFacts.copyEntry_Directory_present.
  - intros targetPath n d content text old w.
    apply TemplateFacts.copyEntry_File_present.
  - intros templatePath targetPath files w w'.
    apply TemplateFacts.copyTemplateFiles_again.
Qed.

(** The nested file [src/components/Button.tsx] of the sample tree lands at
    the same three levels below the target.  Where the target holds the
    directory src already, the copy of a directory entry src puts its file
    into that directory; where the target holds an earlier README, the copy
    of the README entry replaces its text; and the pass over the sample
    tree completes a second time on the world the first pass left. *)
Lemma C6_witness :
  let target := Types.targetPath Sample.options in
  let run :=
    Template.copyTemplateFiles Ejs.render Sample.catalog_readme Sample.templatePath
      target Sample.options Sample.world0 in
  (exists dests,
     Spec.renders_to Ejs.render Sample.options ["src"; "components"; "Button.tsx"] dests /\
     length dests = 3 /\
     Spec.is_file (snd run) (target ++ dests)) /\
  Template.copyEntry Ejs.render Sample.options (Directory "src" [File "a.ts" "x"]) target
    Sample.world_with_src
  = (Ok tt,
     {| World.files :=
          <[ target ++ ["src"; "a.ts"] := FileNode "x" ]> (World.files Sample.world_with_src);
        World.trace := [ EvMkdir (target ++ ["src"]);
                         EvWrite (target ++ ["src"; "a.ts"]) "x" ] |}) /\
  Template.copyEntry Ejs.render Sample.options (File "README.md" "# TS {{%=PACKAGE_NAME%}}")
    target Sample.world_with_readme
  = (Ok tt,
     {| World.files :=
          <[ target ++ ["README.md"] := FileNode "# TS my-app" ]>
            (World.files Sample.world_with_readme);
        World.trace := [EvWrite (target ++ ["README.md"]) "# TS my-app"] |}) /\
  (exists w'',
     Template.copyTemplateFiles Ejs.render Sample.catalog_readme Sample.templatePath
       target Sample.options (snd run) = (Ok tt, w'')).
Proof.
  cbv zeta.
  destruct (C6_structure_preserved Ejs.render Sample.catalog_readme Sample.options)
    as (Hstructure & Hdirectory & Hfile & Hagain).
  split; [| split; [| split]].
  - refine (Hstructure Sample.templatePath (Types.targetPath Sample.options) _
              ["src"; "components"; "Button.tsx"] (File "Button.tsx" "export {}")
              Sample.world0 _ eq_refl _ _ _).
    + vm_compute. reflexivity.
    + apply (Spec.Member_below _ "src"
               [Directory "components" [File "Button.tsx" "export {}"]]);
        [cbn; auto |].
      apply (Spec.Member_below _ "components" [File "Button.tsx" "export {}"]);
        [cbn; auto |].
      apply (Spec.Member_here [File "Button.tsx" "export {}"] (File "Button.tsx" "export {}")).
      cbn; auto.
    + vm_compute. reflexivity.
  - rewrite (Hdirectory (Types.targetPath Sample.options) "src" "src" [File "a.ts" "x"]
               Sample.world_with_src eq_refl eq_refl eq_refl eq_refl).
    vm_compute. reflexivity.
  - exact (Hfile (Types.targetPath Sample.options) "README.md" "README.md"
             "# TS {{%=PACKAGE_NAME%}}" "# TS my-app" "old" Sample.world_with_readme
             eq_refl eq_refl eq_refl eq_refl eq_refl).
  - refine (Hagain Sample.templatePath (Types.targetPath Sample.options) _
              Sample.world0 _ eq_refl _ _ _).
    + vm_compute. reflexivity.
    + vm_compute. reflexivity.
    + vm_compute. reflexivity.
Defined.

(** C6 as stated fails for a directory named by the sentinel alone: its
    name renders to the empty string, its file [c.txt], two levels down in
    the template tree, lands one level below the target, and nothing lies
    two levels below the target. *)
Lemma C6_counterexample :
  let target := Types.targetPath Sample.options in
  let run :=
    Template.copyTemplateFiles Ejs.render Sample.catalog_sentinel_dir Sample.templatePath
      target Sample.options Sample.world0 in
  Spec.Member [Directory "$" [File "c.txt" "x"]] ["$"; "c.txt"] (File "c.txt" "x") /\
  Spec.renders_to Ejs.render Sample.options ["$"; "c.txt"] [""; "c.txt"] /\
  fst run = Ok tt /\
  World.files (snd run) !! (target ++ ["c.txt"]) = Some (FileNode "x") /\
  (forall p v, World.files (snd run) !! p = Some v -> length p <= length target + 1).
Proof.
  cbv zeta. repeat apply conj.
  - apply (Spec.Member_below _ "$" [File "c.txt" "x"] ["c.txt"]); [now left |].
    apply (Spec.Member_here [File "c.txt" "x"] (File "c.txt" "x")). now left.
  - repeat constructor.
  - vm_compute. reflexivity.
  - vm_compute. reflexivity.
  - intros p v Hp. apply elem_of_map_to_list in Hp.
    assert (map_to_list
              (World.files
                 (snd (Template.copyTemplateFiles Ejs.render Sample.catalog_sentinel_dir
                         Sample.templatePath (Types.targetPath Sample.options)
                         Sample.options Sample.world0)))
            = [ (["work"; "my-app"; "c.txt"], FileNode "x");
                (["work"; "my-app"], DirNode);
                (["work"], DirNode) ]) as Hlist by (vm_compute; reflexivity).
    rewrite Hlist in Hp.
    repeat (apply elem_of_cons in Hp as [[= -> _] | Hp]; [cbn; lia |]).
    inversion Hp.
Qed.

(* ===================================================================== *)
(** ** Child processes *)
(* ===================================================================== *)

Module CommandsFacts.
Import World Spec RunFacts.
Local Open Scope m_scope.

Lemma traced_refl P w : traced P w w.
Proof. exists []. unfold added. now rewrite app_nil_r. Qed.

Lemma traced_trans P w1 w2 w3 : traced P w1 w2 -> traced P w2 w3 -> traced P w1 w3.
Proof.
  intros (t1 & H1 & F1) (t2 & H2 & F2). exists (t1 ++ t2). unfold added in *. split.
  - now rewrite H2, H1, app_assoc.
  - now rewrite forallb_app, F1, F2.
Qed.

Lemma traced_weaken (P Q : event -> bool) w w' :
  (forall e, P e = true -> Q e = true) -> traced P w w' -> traced Q w w'.
Proof.
  intros HPQ (t & Ht & Hall). exists t. split; [assumption |].
  rewrite forallb_forall in *. auto.
Qed.

Lemma emit_run e w :
  emit e w = (Ok tt, {| files := files w; trace := trace w ++ [e] |}).
Proof. reflexivity. Qed.

Lemma emit_traced P e : P e = true -> respects (traced P) (emit e).
Proof.
  intros He w r w' [= _ <-]. exists [e]. unfold added. cbn. now rewrite He.
Qed.

Lemma try_catch_respects {A : Type} (R : world -> world -> Prop)
    (body : M A) (handler : error -> M A) :
  (forall w1 w2 w3, R w1 w2 -> R w2 w3 -> R w1 w3) ->
  respects R body -> (forall e, respects R (handler e)) ->
  respects R (try_catch body handler).
Proof.
  intros HT Hb Hh w r w' H. unfold try_catch in H.
  destruct (body w) as [[a | e | n |] w1] eqn:E;
    try (injection H as <- <-; eapply Hb; eassumption).
  eapply HT; [eapply Hb | eapply Hh]; eassumption.
Qed.

Section Platform.

Variable isWin : bool.
Variable child :
  world -> string -> list string -> option (list string) -> option string ->
  settlement * gmap (list string) node.

Abbreviation runCommand := (Commands.runCommand isWin child).
Abbreviation initializeGit := (Commands.initializeGit isWin child).
Abbreviation installDependencies := (Commands.installDependencies isWin child).

Abbreviation spawn_event := (Spec.spawn_event isWin).

(** One awaited command: the spawn and the settlement are added to the
    trace, and the outcome follows the settlement. *)
Lemma runCommand_inv command args cwd stdio w r w' :
  runCommand command args cwd stdio w = (r, w') ->
  exists s,
    trace w' = trace w ++ [spawn_event command args cwd stdio; EvSettled s] /\
    match s with
    | Closed (Some 0) => r = Ok tt
    | Closed _ => exists e, r = Throw e
    | Errored e => r = Throw e
    | NeverSettles => r = Hang
    end.
Proof.
  unfold Commands.runCommand, Spec.spawn_event.
  destruct (Commands.buildCommand isWin command args) as [cmd cmdArgs]. cbn [fst snd].
  destruct (child _ cmd cmdArgs cwd stdio) as [s fs']. cbn [trace].
  intros H. exists s.
  destruct s as [[[| n] |] | e |]; injection H as <- <-; cbn [trace];
    rewrite <- app_assoc; split; eauto.
Qed.

Lemma program_spawn_event command args cwd stdio :
  command <> "cmd.exe" ->
  program (spawn_event command args cwd stdio) = Some command.
Proof.
  intros Hne. unfold Spec.spawn_event, Commands.buildCommand, program.
  destruct isWin; cbn [fst snd].
  - reflexivity.
  - apply String.eqb_neq in Hne. now rewrite Hne.
Qed.

Lemma runCommand_git_traced args cwd stdio :
  respects (traced is_git_step) (runCommand "git" args cwd stdio).
Proof.
  intros w r w' H. apply runCommand_inv in H as (s & Ht & _).
  eexists. split; [exact Ht |]. cbn [forallb is_git_step]. rewrite andb_true_r.
  unfold Spec.spawn_event. cbn [is_git_step]. fold (Spec.spawn_event isWin "git" args cwd stdio).
  unfold is_git. rewrite program_spawn_event by discriminate. reflexivity.
Qed.

Lemma initializeGit_traced targetPath :
  respects (traced is_git_step) (initializeGit targetPath).
Proof.
  unfold Commands.initializeGit.
  apply try_catch_respects; [apply traced_trans | |].
  - repeat (apply TemplateFacts.respects_bind;
            [apply traced_trans | apply runCommand_git_traced | intros _]).
    apply runCommand_git_traced.
  - intros e. apply emit_traced. reflexivity.
Qed.

(** A command returns, throws or hangs; it does not end the process. *)
Lemma runCommand_outcome command args cwd stdio w r w' :
  runCommand command args cwd stdio w = (r, w') ->
  r = Ok tt \/ (exists e, r = Throw e) \/
  (r = Hang /\ exists w0 c a d s, fst (child w0 c a d s) = NeverSettles).
Proof.
  unfold Commands.runCommand.
  destruct (Commands.buildCommand isWin command args) as [cmd cmdArgs].
  destruct (child _ cmd cmdArgs cwd stdio) as [s fs'] eqn:E.
  intros H.
  destruct s as [[[| n] |] | e |]; injection H as <- <-; eauto.
  right. right. split; [reflexivity |]. do 5 eexists. now rewrite E.
Qed.

(** [initializeGit] returns or hangs, and hangs only with a child process
    that never settles. *)
Lemma initializeGit_outcome targetPath w r w' :
  initializeGit targetPath w = (r, w') ->
  r = Ok tt \/ (r = Hang /\ exists w0 c a d s, fst (child w0 c a d s) = NeverSettles).
Proof.
  unfold Commands.initializeGit, try_catch. intros H.
  destruct ((runCommand "git" ["init"] (Some targetPath) (Some "ignore") ;;
             runCommand "git" ["add"; "."] (Some targetPath) (Some "ignore") ;;
             runCommand "git" _ (Some targetPath) (Some "ignore"))%M w)
    as [[[] | e | n |] w1] eqn:E.
  - injection H as <- <-. now left.
  - injection H as <- <-. now left.
  - exfalso. injection H as <- <-.
    apply bind_inv in E as [(a & wa & H1 & E) | (r1 & H1 & _ & Hr)].
    + apply bind_inv in E as [(b & wb & H2 & E) | (r2 & H2 & _ & Hr)].
      * apply runCommand_outcome in E as [E | [[e E] | [E _]]]; discriminate.
      * apply runCommand_outcome in H2 as [-> | [[e ->] | [-> _]]]; try discriminate; tauto.
    + apply runCommand_outcome in H1 as [-> | [[e ->] | [-> _]]]; try discriminate; tauto.
  - injection H as <- <-. right. split; [reflexivity |].
    apply bind_inv in E as [(a & wa & H1 & E) | (r1 & H1 & _ & Hr)].
    + apply bind_inv in E as [(b & wb & H2 & E) | (r2 & H2 & _ & Hr)].
      * apply runCommand_outcome in E as [E | [[e E] | [_ E]]]; try discriminate; exact E.
      * apply runCommand_outcome in H2 as [-> | [[e ->] | [-> E]]];
          try discriminate; try tauto; exact E.
    + apply runCommand_outcome in H1 as [-> | [[e ->] | [-> E]]];
        try discriminate; try tauto; exact E.
Qed.

(** [isNpxPresent], by the settlement of its command. *)
Lemma isNpxPresent_run w :
  Commands.isNpxPresent isWin child w
  = let spawned :=
      {| files := files w;
         trace := trace w ++ [spawn_event "npx" ["--help"] None None] |} in
    let settled :=
      child spawned (fst (Commands.buildCommand isWin "npx" ["--help"]))
            (snd (Commands.buildCommand isWin "npx" ["--help"])) None None in
    (match fst settled with
     | Closed (Some 0) => Ok tt
     | Closed code =>
         Throw (Error ("npx --help failed with code " +:+ Commands.show_code code))
     | Errored e => if Commands.is_enoent e then Exit 1 else Throw e
     | NeverSettles => Hang
     end,
     {| files := snd settled;
        trace := trace w ++
          [spawn_event "npx" ["--help"] None None; EvSettled (fst settled)] ++
          match fst settled with
          | Errored e =>
              if Commands.is_enoent e
              then [EvConsole "log"
                      "Couldn't find npx! Please install it by running npm install -g npx"]
              else []
          | _ => []
          end |}).
Proof.
  cbv zeta. unfold Commands.isNpxPresent, World.try_catch, Commands.runCommand,
    Spec.spawn_event.
  destruct (Commands.buildCommand isWin "npx" ["--help"]) as [cmd cmdArgs]. cbn [fst snd].
  destruct (child _ cmd cmdArgs None None) as [s fs']. cbn [fst snd trace files].
  destruct s as [[[| n] |] | e |];
    try (cbn; now rewrite <- ?app_assoc, ?app_nil_r).
  destruct (Commands.is_enoent e); cbn; now rewrite <- ?app_assoc, ?app_nil_r.
Qed.

End Platform.

End CommandsFacts.

(* ===================================================================== *)
(** ** Events and their order *)
(* ===================================================================== *)

Module TraceFacts.
Import World Types Spec CommandsFacts.

(** Where an event with a property occurs in a list whose first part has
    no such event. *)
Lemma split_after (P : event -> bool) (l1 : list event) : forall l2 t1 e t2,
  l1 ++ l2 = t1 ++ e :: t2 ->
  forallb (fun x => negb (P x)) l1 = true ->
  P e = true ->
  exists pre, t1 = l1 ++ pre /\ l2 = pre ++ e :: t2.
Proof.
  induction l1 as [| x l1 IH]; intros l2 t1 e t2 Heq Hall He.
  - exists t1. split; [reflexivity | exact Heq].
  - cbn [forallb] in Hall. apply andb_true_iff in Hall as [Hx Hall].
    destruct t1 as [| y t1]; cbn [app] in Heq; injection Heq as -> Heq.
    + rewrite He in Hx. discriminate.
    + destruct (IH _ _ _ _ Heq Hall He) as (pre & -> & ->). now exists pre.
Qed.

Lemma forallb_In (P : event -> bool) l e : forallb P l = true -> In e l -> P e = true.
Proof. rewrite forallb_forall. auto. Qed.

Lemma forallb_weaken (P Q : event -> bool) l :
  (forall e, P e = true -> Q e = true) -> forallb P l = true -> forallb Q l = true.
Proof. rewrite !forallb_forall. auto. Qed.

Lemma is_install_spawn e : is_install e = true -> is_spawn e = true.
Proof. destruct e; try discriminate. reflexivity. Qed.

Lemma is_git_spawn e : is_git e = true -> is_spawn e = true.
Proof. destruct e; try discriminate. reflexivity. Qed.

Lemma is_git_not_install e : is_git e = true -> is_install e = false.
Proof.
  unfold is_git, is_install. destruct (program e) as [c |]; [| discriminate].
  intros ->%String.eqb_eq. reflexivity.
Qed.

Lemma is_git_not_install_conv e : is_install e = true -> is_git e = false.
Proof.
  intros H. destruct (is_git e) eqn:E; [| reflexivity].
  apply is_git_not_install in E. congruence.
Qed.

Lemma is_fs_not_spawn e : is_fs_event e = true -> is_spawn e = false.
Proof. destruct e; try discriminate; reflexivity. Qed.

Lemma is_ui_not_spawn e : is_ui e = true -> is_spawn e = false.
Proof. destruct e; try discriminate; reflexivity. Qed.

Lemma is_ui_not_fs e : is_ui e = true -> is_fs_event e = false.
Proof. destruct e; try discriminate; reflexivity. Qed.

Lemma is_git_step_not_fs e : is_git_step e = true -> is_fs_event e = false.
Proof. destruct e; try discriminate; reflexivity. Qed.

Lemma is_git_step_not_install e : is_git_step e = true -> is_install e = false.
Proof.
  destruct e; try discriminate; try reflexivity.
  cbn [is_git_step]. apply is_git_not_install.
Qed.

Lemma install_event_is_install isWin pm cwd stdio :
  is_install (spawn_event isWin (packageManager_name pm) ["install"] cwd stdio) = true.
Proof.
  unfold is_install. rewrite program_spawn_event by (destruct pm; discriminate).
  destruct pm; reflexivity.
Qed.

End TraceFacts.

(* ===================================================================== *)
(** ** The steps of create *)
(* ===================================================================== *)

Module IndexFacts.
Import World Types Spec RunFacts CommandsFacts TraceFacts.
Local Open Scope m_scope.

Section Program.
Variable ejs_render :
  string -> list (string * value) -> option Ejs.options -> outcome string.
Variable catalog : list entry.
Variable isWin : bool.
Variable child :
  world -> string -> list string -> option (list string) -> option string ->
  settlement * gmap (list string) node.
Variable dirname : list string.

Abbreviation generateProject := (Index.generateProject ejs_render catalog dirname).
Abbreviation generate := (Index.generate ejs_render catalog isWin child dirname).

Lemma installDependencies_eq folder pm :
  Commands.installDependencies isWin child folder (packageManager_name pm)
  = Commands.runCommand isWin child (packageManager_name pm) ["install"] (Some folder) None.
Proof. destruct pm; reflexivity. Qed.

Lemma generateProject_only_grew options :
  respects only_grew (generateProject options).
Proof.
  unfold Index.generateProject.
  apply TemplateFacts.respects_bind;
    [apply TemplateFacts.only_grew_trans | apply TemplateFacts.mkdirSync_only_grew |].
  intros _. apply TemplateFacts.copyTemplate_only_grew.
Qed.

Lemma generate_shape folder basename answers w r w' :
  generate folder basename answers w = (r, w') ->
  exists rg w2,
    generateProject (Index.options_of folder answers) (start_world w) = (rg, w2) /\
    match rg with
    | Ok _ =>
        exists s tail,
          trace w' = trace w2 ++
                     [ EvSpinner "text" "Installing dependencies...";
                       spawn_event isWin (packageManager_name (a_packageManager answers))
                         ["install"] (Some folder) None;
                       EvSettled s ] ++ tail /\
          match s with
          | Closed (Some O) =>
              forallb (fun e => is_git_step e || is_ui e) tail = true /\
              (r = Ok tt \/ r = Hang)
          | Closed _ | Errored _ => forallb is_ui tail = true /\ r = Exit 1
          | NeverSettles => tail = [] /\ r = Hang
          end
    | Throw e =>
        r = Exit 1 /\ exists tail, trace w' = trace w2 ++ tail /\ forallb is_ui tail = true
    | Exit n => r = Exit n /\ w' = w2
    | Hang => r = Hang /\ w' = w2
    end.
Proof.
  unfold Index.generate. intros H.
  rewrite (bind_Ok _ _ _ _ _ (emit_run _ w)) in H. fold (start_world w) in H.
  destruct (generateProject (Index.options_of folder answers) (start_world w))
    as [rg w2] eqn:Hgen.
  exists rg, w2. split; [reflexivity |].
  unfold try_catch in H. rewrite installDependencies_eq in H.
  destruct rg as [[] | e | n |].
  - (* generation returned *)
    rewrite (bind_Ok _ _ _ _ _ Hgen) in H.
    rewrite (bind_Ok _ _ _ _ _ (emit_run _ w2)) in H.
    match type of H with
    | context [bind (Commands.runCommand isWin child ?c ?a ?d ?s) ?k ?w0] =>
        destruct (Commands.runCommand isWin child c a d s w0) as [ri w3] eqn:Hinstall
    end.
    pose proof (runCommand_inv _ _ _ _ _ _ _ _ _ Hinstall) as (s & Ht3 & Hs).
    cbn [trace] in Ht3. rewrite <- app_assoc in Ht3. cbn [app] in Ht3.
    exists s.
    destruct s as [[[| code] |] | e |].
    + (* installed *)
      subst ri. rewrite (bind_Ok _ _ _ _ _ Hinstall) in H.
      rewrite (bind_Ok _ _ _ _ _ (emit_run _ w3)) in H.
      match type of H with
      | context [bind (Commands.initializeGit isWin child ?t) ?k ?w0] =>
          destruct (Commands.initializeGit isWin child t w0) as [rgit w4] eqn:Hgit
      end.
      pose proof (initializeGit_traced _ _ _ _ _ _ Hgit) as (G & HG & HGall).
      unfold added in HG. cbn [trace] in HG.
      pose proof (initializeGit_outcome _ _ _ _ _ _ Hgit) as [-> | [-> _]].
      * rewrite (bind_Ok _ _ _ _ _ Hgit) in H. cbn in H. injection H as <- <-.
        eexists. split.
        { cbn [trace]. rewrite HG, Ht3. rewrite <- !app_assoc. cbn [app]. reflexivity. }
        split; [| now left].
        cbn [forallb]. rewrite forallb_app. cbn [forallb is_ui is_git_step orb].
        rewrite !orb_true_r. rewrite andb_true_r. cbn.
        rewrite forallb_forall in *. intros x Hx. now rewrite HGall.
      * unfold bind in H at 1. rewrite Hgit in H. injection H as <- <-.
        eexists. split.
        { rewrite HG, Ht3. rewrite <- !app_assoc. cbn [app]. reflexivity. }
        split; [| now right].
        cbn [forallb is_ui is_git_step orb andb].
        rewrite forallb_forall in *. intros x Hx. now rewrite HGall.
    + destruct Hs as [e ->]. unfold bind in H at 1. rewrite Hinstall in H.
      cbn in H. injection H as <- <-. eexists. split.
      { cbn [trace]. rewrite Ht3. rewrite <- !app_assoc. cbn [app]. reflexivity. }
      split; reflexivity.
    + destruct Hs as [e ->]. unfold bind in H at 1. rewrite Hinstall in H.
      cbn in H. injection H as <- <-. eexists. split.
      { cbn [trace]. rewrite Ht3. rewrite <- !app_assoc. cbn [app]. reflexivity. }
      split; reflexivity.
    + subst ri. unfold bind in H at 1. rewrite Hinstall in H.
      cbn in H. injection H as <- <-. eexists. split.
      { cbn [trace]. rewrite Ht3. rewrite <- !app_assoc. cbn [app]. reflexivity. }
      split; reflexivity.
    + subst ri. unfold bind in H at 1. rewrite Hinstall in H.
      injection H as <- <-. exists []. split; [| split; reflexivity].
      rewrite Ht3. reflexivity.
  - rewrite (bind_Throw _ _ _ _ _ Hgen) in H. cbn in H. injection H as <- <-.
    split; [reflexivity |]. eexists. split.
    { cbn [trace]. rewrite <- app_assoc. reflexivity. }
    reflexivity.
  - unfold bind in H at 1. rewrite Hgen in H. injection H as <- <-. split; reflexivity.
  - unfold bind in H at 1. rewrite Hgen in H. injection H as <- <-. split; reflexivity.
Qed.


(** The events of the generation itself. *)
Lemma generateProject_trace options w rg w2 :
  generateProject options (start_world w) = (rg, w2) ->
  exists F,
    trace w2 = trace w ++ EvSpinner "start" "Generating template" :: F /\
    forallb is_fs_event F = true.
Proof.
  intros Hgen. apply generateProject_only_grew in Hgen as (F & HF & Hall & _).
  exists F. split; [| assumption].
  unfold added, start_world in HF. cbn [trace] in HF. now rewrite HF, <- app_assoc.
Qed.

(** A run in which the generation does not return spawns nothing. *)
Lemma generate_failure folder basename answers w r w' t rg w2 :
  generate folder basename answers w = (r, w') ->
  trace w' = trace w ++ t ->
  generateProject (Index.options_of folder answers) (start_world w) = (rg, w2) ->
  rg <> Ok tt ->
  forallb (fun e => negb (is_spawn e)) t = true /\ (forall e, rg = Throw e -> r = Exit 1).
Proof.
  intros Hrun Ht Hgen Hrg.
  destruct (generate_shape _ _ _ _ _ _ Hrun) as (rg' & w2' & Hgen' & Hshape).
  rewrite Hgen in Hgen'. injection Hgen' as <- <-.
  destruct (generateProject_trace _ _ _ _ Hgen) as (F & HF & HFall).
  assert (forallb (fun e => negb (is_spawn e)) F = true) as HFspawn.
  { eapply forallb_weaken; [| exact HFall]. intros e He.
    now rewrite is_fs_not_spawn. }
  destruct rg as [[] | e | n |]; [congruence | | |].
  - destruct Hshape as (-> & tail & Htail & Hui). split; [| reflexivity].
    rewrite Htail, HF, <- app_assoc in Ht. apply app_inv_head in Ht. subst t.
    cbn [app forallb is_spawn negb andb]. rewrite forallb_app, HFspawn.
    eapply forallb_weaken; [| exact Hui]. intros x Hx. now rewrite is_ui_not_spawn.
  - destruct Hshape as (-> & ->). split; [| discriminate].
    rewrite HF in Ht. apply app_inv_head in Ht. subst t. exact HFspawn.
  - destruct Hshape as (-> & ->). split; [| discriminate].
    rewrite HF in Ht. apply app_inv_head in Ht. subst t. exact HFspawn.
Qed.

(** What follows the settlement of the installation holds no write to the
    destination and no second installation. *)
Lemma tail_clean (s : settlement) (tail : list event) (r : outcome unit) :
  match s with
  | Closed (Some O) =>
      forallb (fun e => is_git_step e || is_ui e) tail = true /\ (r = Ok tt \/ r = Hang)
  | Closed _ | Errored _ => forallb is_ui tail = true /\ r = Exit 1
  | NeverSettles => tail = [] /\ r = Hang
  end ->
  forallb (fun x => negb (is_install x) && negb (is_fs_event x)) (EvSettled s :: tail) = true /\
  (s <> Closed (Some 0) -> forallb (fun x => negb (is_git x)) tail = true).
Proof.
  intros H.
  assert (forallb (fun e => is_git_step e || is_ui e) tail = true /\
          (s <> Closed (Some 0) -> forallb is_ui tail = true)) as [Hall Hui].
  { destruct s as [[[| n] |] | e |].
    - destruct H as [H _]. split; [assumption | congruence].
    - destruct H as [H _]. split; [| auto].
      eapply forallb_weaken; [| exact H]. intros x ->. apply orb_true_r.
    - destruct H as [H _]. split; [| auto].
      eapply forallb_weaken; [| exact H]. intros x ->. apply orb_true_r.
    - destruct H as [H _]. split; [| auto].
      eapply forallb_weaken; [| exact H]. intros x ->. apply orb_true_r.
    - destruct H as [-> _]. split; reflexivity. }
  split.
  - cbn [forallb is_install program is_fs_event negb andb].
    eapply forallb_weaken; [| exact Hall]. intros x [Hx | Hx]%orb_true_iff.
    + now rewrite is_git_step_not_install, is_git_step_not_fs.
    + rewrite is_ui_not_fs by assumption.
      destruct x; try discriminate; reflexivity.
  - intros Hs. eapply forallb_weaken; [| exact (Hui Hs)].
    intros x Hx. destruct x; try discriminate; reflexivity.
Qed.

(** The installation is spawned in the world the generation returned in,
    after the spinner text was updated; nothing is written to the
    destination from then on. *)
Lemma generate_install folder basename answers w r w' t1 e t2 :
  generate folder basename answers w = (r, w') ->
  trace w' = trace w ++ t1 ++ e :: t2 ->
  is_install e = true ->
  exists w2,
    generateProject (Index.options_of folder answers) (start_world w) = (Ok tt, w2) /\
    trace w ++ t1 = trace w2 ++ [EvSpinner "text" "Installing dependencies..."] /\
    forallb (fun x => negb (is_fs_event x)) (e :: t2) = true.
Proof.
  intros Hrun Ht He.
  destruct (generate_shape _ _ _ _ _ _ Hrun) as (rg & w2 & Hgen & Hshape).
  destruct (generateProject_trace _ _ _ _ Hgen) as (F & HF & HFall).
  assert (rg = Ok tt \/ rg <> Ok tt) as [-> | Hrg]
    by (destruct rg as [[] | | |]; [now left | right; discriminate ..]).
  - destruct Hshape as (s & tail & Htail & Hs).
    exists w2. split; [assumption |].
    destruct (tail_clean _ _ _ Hs) as [Hclean _].
    assert ((EvSpinner "start" "Generating template"
               :: F ++ [EvSpinner "text" "Installing dependencies..."])
            ++ spawn_event isWin (packageManager_name (a_packageManager answers))
                 ["install"] (Some folder) None :: EvSettled s :: tail
            = t1 ++ e :: t2) as Ht'.
    { apply (app_inv_head (trace w)). rewrite <- Ht, Htail, HF.
      repeat first [rewrite <- app_assoc | rewrite <- app_comm_cons]. reflexivity. }
    clear Ht. rename Ht' into Ht.
    apply (split_after is_install) in Ht as (pre & -> & Hpre); [| | assumption].
    + destruct pre as [| x pre]; cbn [app] in Hpre; injection Hpre as <- Hpre.
      * subst t2. split.
        { rewrite app_nil_r, HF, <- app_assoc. reflexivity. }
        cbn [forallb]. apply andb_true_iff. split; [reflexivity |].
        eapply forallb_weaken; [| exact Hclean].
        now intros x [_ Hx]%andb_true_iff.
      * exfalso.
        assert (In e (EvSettled s :: tail)) as Hin
          by (rewrite Hpre; apply in_or_app; right; now left).
        apply (forallb_In _ _ _ Hclean) in Hin. now rewrite He in Hin.
    + assert (forallb (fun x => negb (is_install x)) F = true) as HFP.
      { eapply forallb_weaken; [| exact HFall].
        intros x Hx. destruct x; try discriminate; reflexivity. }
      cbn [forallb app]. rewrite forallb_app, HFP. reflexivity.
  - exfalso.
    destruct (generate_failure _ _ _ _ _ _ _ _ _ Hrun Ht Hgen Hrg) as [Hno _].
    assert (In e (t1 ++ e :: t2)) as Hin by (apply in_or_app; right; now left).
    apply (forallb_In _ _ _ Hno) in Hin. now rewrite is_install_spawn in Hin.
Qed.

(** A git command is spawned only after the installation was spawned and
    closed with code 0; from then on nothing is installed and nothing is
    written to the destination. *)
Lemma generate_git folder basename answers w r w' t1 e t2 :
  generate folder basename answers w = (r, w') ->
  trace w' = trace w ++ t1 ++ e :: t2 ->
  is_git e = true ->
  exists a i c,
    t1 = a ++ i :: EvSettled (Closed (Some 0)) :: c /\
    is_install i = true /\
    forallb (fun x => negb (is_install x) && negb (is_fs_event x)) (e :: t2) = true.
Proof.
  intros Hrun Ht He.
  destruct (generate_shape _ _ _ _ _ _ Hrun) as (rg & w2 & Hgen & Hshape).
  destruct (generateProject_trace _ _ _ _ Hgen) as (F & HF & HFall).
  assert (rg = Ok tt \/ rg <> Ok tt) as [-> | Hrg]
    by (destruct rg as [[] | | |]; [now left | right; discriminate ..]).
  - destruct Hshape as (s & tail & Htail & Hs).
    destruct (tail_clean _ _ _ Hs) as [Hclean Hnogit].
    assert ((EvSpinner "start" "Generating template"
               :: F ++ [ EvSpinner "text" "Installing dependencies...";
                         spawn_event isWin (packageManager_name (a_packageManager answers))
                           ["install"] (Some folder) None;
                         EvSettled s ])
            ++ tail
            = t1 ++ e :: t2) as Ht'.
    { apply (app_inv_head (trace w)). rewrite <- Ht, Htail, HF.
      repeat first [rewrite <- app_assoc | rewrite <- app_comm_cons]. reflexivity. }
    clear Ht. rename Ht' into Ht.
    apply (split_after is_git) in Ht as (pre & -> & Hpre); [| | assumption].
    + assert (In e tail) as Hin by (rewrite Hpre; apply in_or_app; right; now left).
      assert (s = Closed (Some 0)) as ->.
      { destruct s as [[[| n] |] | err |]; [reflexivity | exfalso ..];
          (assert (forallb (fun x => negb (is_git x)) tail = true) as Hno
             by (apply Hnogit; discriminate));
          apply (forallb_In _ _ _ Hno) in Hin; now rewrite He in Hin. }
      exists (EvSpinner "start" "Generating template"
                :: F ++ [EvSpinner "text" "Installing dependencies..."]),
             (spawn_event isWin (packageManager_name (a_packageManager answers))
                ["install"] (Some folder) None),
             pre.
      repeat apply conj.
      * cbn [app]. rewrite <- !app_assoc. reflexivity.
      * apply install_event_is_install.
      * cbn [forallb] in Hclean. apply andb_true_iff in Hclean as [_ Hclean].
        rewrite Hpre, forallb_app in Hclean. now apply andb_true_iff in Hclean as [_ ?].
    + assert (forallb (fun x => negb (is_git x)) F = true) as HFP.
      { eapply forallb_weaken; [| exact HFall].
        intros x Hx. destruct x; try discriminate; reflexivity. }
      cbn [forallb app]. rewrite forallb_app, HFP. cbn [forallb].
      rewrite (is_git_not_install_conv _ (install_event_is_install isWin _ _ _)).
      reflexivity.
  - exfalso.
    destruct (generate_failure _ _ _ _ _ _ _ _ _ Hrun Ht Hgen Hrg) as [Hno _].
    assert (In e (t1 ++ e :: t2)) as Hin by (apply in_or_app; right; now left).
    apply (forallb_In _ _ _ Hno) in Hin. now rewrite is_git_spawn in Hin.
Qed.

(** Once the files are generated and the dependencies installed, the run
    cannot fail any more, whatever the git commands do. *)
Lemma generate_after_install folder basename answers w w2 w3 r w' :
  generateProject (Index.options_of folder answers) (start_world w) = (Ok tt, w2) ->
  Commands.installDependencies isWin child folder
    (packageManager_name (a_packageManager answers))
    {| files := files w2;
       trace := trace w2 ++ [EvSpinner "text" "Installing dependencies..."] |}
  = (Ok tt, w3) ->
  generate folder basename answers w = (r, w') ->
  (r = Ok tt \/ r = Hang) /\ (settles child -> r = Ok tt).
Proof.
  intros Hgen Hinstall H. unfold Index.generate in H.
  rewrite (bind_Ok _ _ _ _ _ (emit_run _ w)) in H. fold (start_world w) in H.
  unfold try_catch in H.
  rewrite (bind_Ok _ _ _ _ _ Hgen) in H.
  rewrite (bind_Ok _ _ _ _ _ (emit_run _ w2)) in H.
  rewrite (bind_Ok _ _ _ _ _ Hinstall) in H.
  rewrite (bind_Ok _ _ _ _ _ (emit_run _ w3)) in H.
  match type of H with
  | context [bind (Commands.initializeGit isWin child ?t) ?k ?w0] =>
      destruct (Commands.initializeGit isWin child t w0) as [rgit w4] eqn:Hgit
  end.
  pose proof (initializeGit_outcome _ _ _ _ _ _ Hgit) as [-> | [-> Hnever]].
  - rewrite (bind_Ok _ _ _ _ _ Hgit) in H. cbn in H. injection H as <- <-.
    split; [now left | reflexivity].
  - unfold bind in H at 1. rewrite Hgit in H. injection H as <- <-.
    split; [now right |].
    intros Hsettles. destruct Hnever as (w0 & c & a & d & s & Hn).
    now destruct (Hsettles w0 c a d s).
Qed.

Variable cwd : list string.
Variable collectAnswers : string -> M Answers.

(** [create] returns only through its last step. *)
Lemma create_inv projectName w r w' :
  Index.create ejs_render catalog isWin child dirname cwd collectAnswers projectName w
  = (r, w') ->
  (exists folder basename answers w0,
     generate folder basename answers w0 = (r, w')) \/
  (forall a, r <> Ok a).
Proof.
  unfold Index.create. intros H.
  apply bind_inv in H as [(fb & w1 & _ & H) | (r1 & _ & Hr1 & Hr)].
  - apply bind_inv in H as [(u & w2 & _ & H) | (r2 & _ & Hr2 & Hr)].
    + apply bind_inv in H as [(answers & w3 & _ & H) | (r3 & _ & Hr3 & Hr)].
      * left. eauto.
      * right. destruct r3; try (subst r; discriminate). now destruct Hr.
    + right. destruct r2; try (subst r; discriminate). now destruct Hr.
  - right. destruct r1; try (subst r; discriminate). now destruct Hr.
Qed.

(** *** The part of create before the spinner *)

Lemma preamble_not_install e : is_preamble e = true -> is_install e = false.
Proof.
  destruct e as [p | p c | command args d s | s | kind text | method text];
    try reflexivity.
  unfold is_preamble, is_asking, is_git_query, is_npx, is_install, is_git.
  cbn [is_ui is_settlement orb].
  destruct (program (EvSpawn command args d s)) as [c |]; [| reflexivity].
  destruct (String.eqb_spec c "git") as [-> | _]; [reflexivity |].
  cbn [andb orb]. now intros ->%String.eqb_eq.
Qed.

Lemma preamble_not_git_command e : is_preamble e = true -> is_git_command e = false.
Proof.
  destruct e as [p | p c | command args d s | s | kind text | method text];
    try reflexivity.
  unfold is_preamble, is_asking, is_git_command, is_npx.
  cbn [is_ui is_settlement orb].
  destruct (is_git_query (EvSpawn command args d s)); [now rewrite andb_false_r |].
  cbn [orb]. unfold is_git.
  destruct (program (EvSpawn command args d s)) as [c |]; [| reflexivity].
  now intros ->%String.eqb_eq.
Qed.

Lemma generate_extends folder basename answers w r w' :
  generate folder basename answers w = (r, w') -> exists t, trace w' = trace w ++ t.
Proof.
  intros H. destruct (generate_shape _ _ _ _ _ _ H) as (rg & w2 & Hgen & Hshape).
  destruct (generateProject_only_grew _ _ _ _ Hgen) as (t2 & Ht2 & _).
  unfold added in Ht2. cbn [start_world trace] in Ht2.
  destruct rg as [[] | e | n |].
  - destruct Hshape as (s & tail & Ht & _). rewrite Ht, Ht2, <- !app_assoc. eauto.
  - destruct Hshape as (_ & tail & Ht & _). rewrite Ht, Ht2, <- !app_assoc. eauto.
  - destruct Hshape as [_ ->]. rewrite Ht2, <- !app_assoc. eauto.
  - destruct Hshape as [_ ->]. rewrite Ht2, <- !app_assoc. eauto.
Qed.

Lemma validateAndGetProject_traced projectName :
  respects (traced is_preamble) (Index.validateAndGetProject cwd projectName).
Proof.
  intros w r w' H. unfold Index.validateAndGetProject in H.
  destruct projectName as [| [| ch name] | [| n | n]];
    try (injection H as <- <-; first [apply traced_refl | now exists [EvConsole "log" "Please specify the project name"]]).
  destruct (Fs.exists_in w (Path.join cwd (String ch name))).
  - injection H as <- <-. now exists [EvConsole "log" "A folder already exists"].
  - destruct (negb (ProjectManager.validateProjectName (Path.basename (String ch name)))).
    + injection H as <- <-.
      now exists [EvConsole "log" "Cannot create a project with this name"].
    + injection H as <- <-. apply traced_refl.
Qed.

Lemma npx_event_is_preamble :
  is_preamble (Spec.spawn_event isWin "npx" ["--help"] None None) = true.
Proof.
  unfold is_preamble, is_npx.
  rewrite (program_spawn_event isWin) by discriminate. apply orb_true_r.
Qed.

Lemma isNpxPresent_traced :
  respects (traced is_preamble) (Commands.isNpxPresent isWin child).
Proof.
  intros w r w'. rewrite isNpxPresent_run. cbv zeta. intros [= _ <-].
  eexists. split; [reflexivity |].
  cbn [forallb app]. rewrite npx_event_is_preamble. cbn [andb is_preamble is_asking
    is_ui is_git_query is_git program is_settlement orb].
  destruct (fst _) as [code | e |]; try reflexivity.
  now destruct (Commands.is_enoent e).
Qed.

Hypothesis collectAnswers_asks :
  forall basename, respects (traced is_asking) (collectAnswers basename).

Lemma collectAnswers_traced basename :
  respects (traced is_preamble) (collectAnswers basename).
Proof.
  intros w r w' H. eapply traced_weaken; [| eapply collectAnswers_asks; eassumption].
  intros e He. unfold is_preamble. now rewrite He.
Qed.

(** The steps of [create] before the spinner, when they all return. *)
Lemma create_reaches projectName folder basename answers w wa wb w0 :
  Index.validateAndGetProject cwd projectName w = (Ok (folder, basename), wa) ->
  Commands.isNpxPresent isWin child wa = (Ok tt, wb) ->
  collectAnswers basename wb = (Ok answers, w0) ->
  Index.create ejs_render catalog isWin child dirname cwd collectAnswers projectName w
  = generate folder basename answers w0 /\
  traced is_preamble w w0.
Proof.
  intros Hv Hn Hc. split.
  - unfold Index.create.
    rewrite (bind_Ok _ _ _ _ _ Hv). cbn [fst snd].
    rewrite (bind_Ok _ _ _ _ _ Hn).
    now rewrite (bind_Ok _ _ _ _ _ Hc).
  - eapply traced_trans; [eapply validateAndGetProject_traced; eassumption |].
    eapply traced_trans; [eapply isNpxPresent_traced; eassumption |].
    eapply collectAnswers_traced; eassumption.
Qed.

(** Every run of [create] ends before the spinner without returning, or
    goes through the steps from the spinner on. *)
Lemma create_shape projectName w r w' :
  Index.create ejs_render catalog isWin child dirname cwd collectAnswers projectName w
  = (r, w') ->
  (traced is_preamble w w' /\ forall a, r <> Ok a) \/
  (exists folder basename answers w0,
     traced is_preamble w w0 /\ generate folder basename answers w0 = (r, w')).
Proof.
  unfold Index.create. intros H.
  apply bind_inv in H as [(fb & w1 & Hv & H) | (r1 & Hv & Hr1 & Hr)].
  - pose proof (validateAndGetProject_traced _ _ _ _ Hv) as Tv.
    apply bind_inv in H as [(u & w2 & Hn & H) | (r2 & Hn & Hr2 & Hr)].
    + pose proof (traced_trans _ _ _ _ Tv (isNpxPresent_traced _ _ _ Hn)) as Tn.
      apply bind_inv in H as [(answers & w3 & Hc & H) | (r3 & Hc & Hr3 & Hr)].
      * right. exists (fst fb), (snd fb), answers, w3. split; [| assumption].
        eapply traced_trans; [exact Tn |]. eapply collectAnswers_traced; eassumption.
      * left. split.
        -- eapply traced_trans; [exact Tn |]. eapply collectAnswers_traced; eassumption.
        -- destruct r3; try (subst r; discriminate). now destruct Hr.
    + left. split.
      * eapply traced_trans; [exact Tv |]. eapply isNpxPresent_traced; eassumption.
      * destruct r2; try (subst r; discriminate). now destruct Hr.
  - left. split.
    + eapply validateAndGetProject_traced; eassumption.
    + destruct r1; try (subst r; discriminate). now destruct Hr.
Qed.

(** An event that is not of the preamble lies in the part of the trace that
    the steps from the spinner on added. *)
Lemma create_event (Q : event -> bool) projectName w r w' t1 e t2 :
  (forall x, is_preamble x = true -> Q x = false) ->
  Index.create ejs_render catalog isWin child dirname cwd collectAnswers projectName w
  = (r, w') ->
  trace w' = trace w ++ t1 ++ e :: t2 ->
  Q e = true ->
  exists folder basename answers w0 P pre,
    trace w0 = trace w ++ P /\ forallb is_preamble P = true /\
    t1 = P ++ pre /\
    generate folder basename answers w0 = (r, w') /\
    trace w' = trace w0 ++ pre ++ e :: t2.
Proof.
  intros HQ Hrun Ht He.
  assert (forall P, forallb is_preamble P = true ->
                    forallb (fun x => negb (Q x)) P = true) as Hnot.
  { intros P HP. eapply forallb_weaken; [| exact HP].
    intros x Hx. now rewrite (HQ x Hx). }
  destruct (create_shape _ _ _ _ Hrun)
    as [[(P & HP & Hall) _] | (folder & basename & answers & w0 & (P & HP & Hall) & Hgen)].
  - exfalso. unfold added in HP. rewrite HP in Ht. apply app_inv_head in Ht.
    pose proof (forallb_In _ _ e (Hnot P Hall)) as Hin.
    rewrite Ht, He in Hin. discriminate Hin. apply in_elt.
  - unfold added in HP.
    destruct (generate_extends _ _ _ _ _ _ Hgen) as [tg Htg].
    assert (P ++ tg = t1 ++ e :: t2) as Hsplit.
    { apply (app_inv_head (trace w)). now rewrite <- Ht, app_assoc, <- HP. }
    destruct (split_after Q P tg t1 e t2 Hsplit (Hnot P Hall) He) as (pre & -> & ->).
    exists folder, basename, answers, w0, P, pre. now repeat split.
Qed.

(** When the installation is spawned, [generateProject] has returned. *)
Lemma create_install projectName w r w' t1 e t2 :
  Index.create ejs_render catalog isWin child dirname cwd collectAnswers projectName w
  = (r, w') ->
  trace w' = trace w ++ t1 ++ e :: t2 ->
  is_install e = true ->
  exists folder answers w0 w2,
    traced is_preamble w w0 /\
    generateProject (Index.options_of folder answers) (start_world w0) = (Ok tt, w2) /\
    trace w ++ t1 = trace w2 ++ [EvSpinner "text" "Installing dependencies..."] /\
    forallb (fun x => negb (is_fs_event x)) (e :: t2) = true.
Proof.
  intros Hrun Ht He.
  destruct (create_event is_install _ _ _ _ _ _ _ preamble_not_install Hrun Ht He)
    as (folder & basename & answers & w0 & P & pre & HP & Hall & -> & Hgen & Ht0).
  destruct (generate_install _ _ _ _ _ _ _ _ _ Hgen Ht0 He) as (w2 & Hproject & Hup & Hfs).
  exists folder, answers, w0, w2. repeat split; try assumption.
  - now exists P.
  - now rewrite app_assoc, <- HP.
Qed.

(** A git command is spawned only after the installation closed with
    code 0. *)
Lemma create_git projectName w r w' t1 e t2 :
  Index.create ejs_render catalog isWin child dirname cwd collectAnswers projectName w
  = (r, w') ->
  trace w' = trace w ++ t1 ++ e :: t2 ->
  is_git_command e = true ->
  exists a i c,
    t1 = a ++ i :: EvSettled (Closed (Some 0)) :: c /\
    is_install i = true /\
    forallb (fun x => negb (is_install x) && negb (is_fs_event x)) (e :: t2) = true.
Proof.
  intros Hrun Ht He.
  destruct (create_event is_git_command _ _ _ _ _ _ _ preamble_not_git_command Hrun Ht He)
    as (folder & basename & answers & w0 & P & pre & HP & Hall & -> & Hgen & Ht0).
  assert (is_git e = true) as Hgit.
  { unfold is_git_command in He. now apply andb_true_iff in He as [He _]. }
  destruct (generate_git _ _ _ _ _ _ _ _ _ Hgen Ht0 Hgit) as (a & i & c & -> & Hi & Hafter).
  exists (P ++ a), i, c. repeat split; try assumption. now rewrite <- app_assoc.
Qed.

(** When [generateProject] does not return, nothing is installed and no git
    command is run. *)
Lemma create_failure projectName folder basename answers w wa wb w0 rg w2 :
  Index.validateAndGetProject cwd projectName w = (Ok (folder, basename), wa) ->
  Commands.isNpxPresent isWin child wa = (Ok tt, wb) ->
  collectAnswers basename wb = (Ok answers, w0) ->
  generateProject (Index.options_of folder answers) (start_world w0) = (rg, w2) ->
  rg <> Ok tt ->
  let run :=
    Index.create ejs_render catalog isWin child dirname cwd collectAnswers projectName w in
  (forall a, fst run <> Ok a) /\
  (forall err, rg = Throw err -> fst run = Exit 1) /\
  exists t,
    trace (snd run) = trace w ++ t /\
    forallb (fun x => negb (is_install x) && negb (is_git_command x)) t = true.
Proof.
  intros Hv Hn Hc Hgen Hrg. cbv zeta.
  destruct (create_reaches _ _ _ _ _ _ _ _ Hv Hn Hc) as [-> (P & HP & Hall)].
  unfold added in HP.
  destruct (generate folder basename answers w0) as [r w'] eqn:Hrun. cbn [fst snd].
  destruct (generate_extends _ _ _ _ _ _ Hrun) as [tg Htg].
  destruct (generate_failure _ _ _ _ _ _ tg _ _ Hrun Htg Hgen Hrg) as [Hno Hexit].
  split; [| split].
  - destruct (generate_shape _ _ _ _ _ _ Hrun) as (rg' & w2' & Hgen' & Hshape).
    rewrite Hgen in Hgen'. injection Hgen' as <- <-.
    destruct rg as [[] | e | n |]; [now elim Hrg | | |].
    + destruct Hshape as [-> _]. discriminate.
    + destruct Hshape as [-> _]. discriminate.
    + destruct Hshape as [-> _]. discriminate.
  - exact Hexit.
  - exists (P ++ tg). split; [now rewrite Htg, HP, app_assoc |].
    rewrite forallb_app. apply andb_true_iff. split.
    + eapply forallb_weaken; [| exact Hall].
      intros x Hx.
      now rewrite (preamble_not_install x Hx), (preamble_not_git_command x Hx).
    + eapply forallb_weaken; [| exact Hno].
      intros x Hx. destruct x; try discriminate Hx; reflexivity.
Qed.

End Program.

End IndexFacts.

(* ===================================================================== *)
(** ** Order of the steps *)
(* ===================================================================== *)

(** C8.  The lines of [create] between the check for npx and the spinner
    (the git user, the flags, the prompt) are left to the environment,
    which adds only console output, queries of the git configuration and
    their settlements to the trace.  Then, in every run of [create]:
    the run ends before the spinner without returning, having spawned
    nothing but npx and those queries, or it goes through the steps from
    the spinner on; when the installation is spawned, [generateProject] has
    returned, the trace up to the spawn is the trace it returned with plus
    the spinner text, and nothing is written to the destination
    afterwards; a git command other than a query of the configuration is
    spawned only after the installation was spawned and closed with code 0,
    and nothing is installed or written afterwards.  When the run reaches
    [generateProject] and that call does not return (in particular when it
    throws, which ends the run with exit code 1), the run does not return,
    nothing is installed and no git command is run.  The last part states
    the same of the steps from the spinner on, started in any world. *)
Theorem C8_create_steps_are_sequential
    (ejs_render : string -> list (string * value) -> option Ejs.options -> outcome string)
    (catalog : list entry) (isWin : bool)
    (child : world -> string -> list string -> option (list string) -> option string ->
             settlement * gmap (list string) node)
    (dirname cwd : list string) (collectAnswers : string -> M Answers) :
  (forall basename,
     Spec.respects (Spec.traced Spec.is_asking) (collectAnswers basename)) ->
  (forall projectName w r w',
     Index.create ejs_render catalog isWin child dirname cwd collectAnswers projectName w
     = (r, w') ->
     ((Spec.traced Spec.is_preamble w w' /\ forall a, r <> Ok a) \/
      (exists folder basename answers w0,
         Spec.traced Spec.is_preamble w w0 /\
         Index.generate ejs_render catalog isWin child dirname folder basename answers w0
         = (r, w'))) /\
     (forall t1 e t2,
        World.trace w' = World.trace w ++ t1 ++ e :: t2 ->
        Spec.is_install e = true ->
        exists folder answers w0 w2,
          Spec.traced Spec.is_preamble w w0 /\
          Index.generateProject ejs_render catalog dirname
            (Index.options_of folder answers) (Spec.start_world w0) = (Ok tt, w2) /\
          World.trace w ++ t1
          = World.trace w2 ++ [EvSpinner "text" "Installing dependencies..."] /\
          forallb (fun x => negb (Spec.is_fs_event x)) (e :: t2) = true) /\
     (forall t1 e t2,
        World.trace w' = World.trace w ++ t1 ++ e :: t2 ->
        Spec.is_git_command e = true ->
        exists a i c,
          t1 = a ++ i :: EvSettled (Closed (Some 0)) :: c /\
          Spec.is_install i = true /\
          forallb (fun x => negb (Spec.is_install x) && negb (Spec.is_fs_event x))
                  (e :: t2) = true)) /\
  (forall projectName folder basename answers w wa wb w0 rg w2,
     Index.validateAndGetProject cwd projectName w = (Ok (folder, basename), wa) ->
     Commands.isNpxPresent isWin child wa = (Ok tt, wb) ->
     collectAnswers basename wb = (Ok answers, w0) ->
     Index.generateProject ejs_render catalog dirname
       (Index.options_of folder answers) (Spec.start_world w0) = (rg, w2) ->
     rg <> Ok tt ->
     let run :=
       Index.create ejs_render catalog isWin child dirname cwd collectAnswers
         projectName w in
     (forall a, fst run <> Ok a) /\
     (forall err, rg = Throw err -> fst run = Exit 1) /\
     exists t,
       World.trace (snd run) = World.trace w ++ t /\
       forallb (fun x => negb (Spec.is_install x) && negb (Spec.is_git_command x)) t
       = true) /\
  (forall folder basename answers w r w',
     Index.generate ejs_render catalog isWin child dirname folder basename answers w
     = (r, w') ->
     (forall t1 e t2,
        World.trace w' = World.trace w ++ t1 ++ e :: t2 ->
        Spec.is_install e = true ->
        exists w2,
          Index.generateProject ejs_render catalog dirname
            (Index.options_of folder answers) (Spec.start_world w) = (Ok tt, w2) /\
          World.trace w ++ t1
          = World.trace w2 ++ [EvSpinner "text" "Installing dependencies..."] /\
          forallb (fun x => negb (Spec.is_fs_event x)) (e :: t2) = true) /\
     (forall t1 e t2,
        World.trace w' = World.trace w ++ t1 ++ e :: t2 ->
        Spec.is_git e = true ->
        exists a i c,
          t1 = a ++ i :: EvSettled (Closed (Some 0)) :: c /\
          Spec.is_install i = true /\
          forallb (fun x => negb (Spec.is_install x) && negb (Spec.is_fs_event x))
                  (e :: t2) = true) /\
     (forall t rg w2,
        World.trace w' = World.trace w ++ t ->
        Index.generateProject ejs_render catalog dirname
          (Index.options_of folder answers) (Spec.start_world w) = (rg, w2) ->
        rg <> Ok tt ->
        forallb (fun x => negb (Spec.is_spawn x)) t = true /\
        (forall err, rg = Throw err -> r = Exit 1))).
Proof.
  intros Hasks. split; [| split].
  - intros projectName w r w' Hrun. split; [| split].
    + eapply IndexFacts.create_shape; eassumption.
    + intros t1 e t2 Ht He. eapply IndexFacts.create_install; eassumption.
    + intros t1 e t2 Ht He. eapply IndexFacts.create_git; eassumption.
  - intros projectName folder basename answers w wa wb w0 rg w2 Hv Hn Hc Hgen Hrg.
    eapply IndexFacts.create_failure; eassumption.
  - intros folder basename answers w r w' Hrun. repeat apply conj.
    + intros t1 e t2 Ht He. eapply IndexFacts.generate_install; eassumption.
    + intros t1 e t2 Ht He. eapply IndexFacts.generate_git; eassumption.
    + intros t rg w2 Ht Hgen Hrg. eapply IndexFacts.generate_failure; eassumption.
Qed.

(** Two runs of [create] for the project my-app, on a machine where npx and
    the installation close with code 0 and git is not installed, after the
    two queries of the git configuration.  With a template that has an
    unclosed tag the generation throws: the run ends with exit code 1, and
    its trace holds no installation and no git command.  With the sample
    template the sixteenth event is the spawn of the installation: the
    trace before it is the one [generateProject] returned with plus the
    spinner text, and nothing is written from there on; the nineteenth is
    the spawn of git init, and the installation was spawned and closed with
    code 0 before it. *)
Lemma C8_witness :
  let failing :=
    Index.create Ejs.render Sample.catalog_unclosed_tag false Sample.child_without_git
      Sample.dirname ["work"] Sample.answers_after_queries (Index.Text "my-app")
      Sample.world_before in
  let passing :=
    Index.create Ejs.render Sample.catalog_readme false Sample.child_without_git
      Sample.dirname ["work"] Sample.answers_after_queries (Index.Text "my-app")
      Sample.world_before in
  (fst failing = Exit 1 /\
   forallb (fun x => negb (Spec.is_install x) && negb (Spec.is_git_command x))
           (World.trace (snd failing)) = true) /\
  (exists folder answers w0 w2,
     Spec.traced Spec.is_preamble Sample.world_before w0 /\
     Index.generateProject Ejs.render Sample.catalog_readme Sample.dirname
       (Index.options_of folder answers) (Spec.start_world w0) = (Ok tt, w2) /\
     firstn 15 (World.trace (snd passing))
     = World.trace w2 ++ [EvSpinner "text" "Installing dependencies..."] /\
     forallb (fun x => negb (Spec.is_fs_event x)) (skipn 15 (World.trace (snd passing)))
     = true) /\
  (exists a i c,
     firstn 18 (World.trace (snd passing)) = a ++ i :: EvSettled (Closed (Some 0)) :: c /\
     Spec.is_install i = true /\
     forallb (fun x => negb (Spec.is_install x) && negb (Spec.is_fs_event x))
             (skipn 18 (World.trace (snd passing))) = true).
Proof.
  cbv zeta.
  assert (forall basename,
            Spec.respects (Spec.traced Spec.is_asking)
              (Sample.answers_after_queries basename)) as Hasks.
  { intros basename w r w' H. injection H as _ <-.
    exists [ EvSpawn "git" ["config"; "--get"; "user.name"] None None;
             EvSettled (Closed (Some 0));
             EvSpawn "git" ["config"; "--get"; "user.email"] None None;
             EvSettled (Closed (Some 0)) ].
    split; [| reflexivity]. unfold Spec.added. cbn. now rewrite <- !app_assoc. }
  split; [| split].
  - destruct (C8_create_steps_are_sequential Ejs.render Sample.catalog_unclosed_tag false
                Sample.child_without_git Sample.dirname ["work"]
                Sample.answers_after_queries Hasks) as (_ & Hfailure & _).
    destruct (Hfailure (Index.Text "my-app") ["work"; "my-app"] "my-app" Sample.answers
                Sample.world_before Sample.world_before
                (snd (Commands.isNpxPresent false Sample.child_without_git
                        Sample.world_before))
                (snd (Sample.answers_after_queries "my-app"
                        (snd (Commands.isNpxPresent false Sample.child_without_git
                                Sample.world_before))))
                (fst (Index.generateProject Ejs.render Sample.catalog_unclosed_tag
                        Sample.dirname
                        (Index.options_of ["work"; "my-app"] Sample.answers)
                        (Spec.start_world
                           (snd (Sample.answers_after_queries "my-app"
                              (snd (Commands.isNpxPresent false Sample.child_without_git
                                      Sample.world_before)))))))
                (snd (Index.generateProject Ejs.render Sample.catalog_unclosed_tag
                        Sample.dirname
                        (Index.options_of ["work"; "my-app"] Sample.answers)
                        (Spec.start_world
                           (snd (Sample.answers_after_queries "my-app"
                              (snd (Commands.isNpxPresent false Sample.child_without_git
                                      Sample.world_before))))))))
      as (_ & Hexit & t & Ht & Hall).
    + reflexivity.
    + reflexivity.
    + reflexivity.
    + apply surjective_pairing.
    + vm_compute. discriminate.
    + split.
      * eapply Hexit. vm_compute. reflexivity.
      * rewrite Ht. exact Hall.
  - destruct (C8_create_steps_are_sequential Ejs.render Sample.catalog_readme false
                Sample.child_without_git Sample.dirname ["work"]
                Sample.answers_after_queries Hasks) as (Hsteps & _ & _).
    destruct (Hsteps (Index.Text "my-app") Sample.world_before _ _ (surjective_pairing _))
      as (_ & Hinstall & _).
    apply (Hinstall _ (EvSpawn "npm" ["install"] (Some ["work"; "my-app"]) None)
             (skipn 16 (World.trace (snd (Index.create Ejs.render Sample.catalog_readme
                false Sample.child_without_git Sample.dirname ["work"]
                Sample.answers_after_queries (Index.Text "my-app")
                Sample.world_before))))).
    + vm_compute. reflexivity.
    + reflexivity.
  - destruct (C8_create_steps_are_sequential Ejs.render Sample.catalog_readme false
                Sample.child_without_git Sample.dirname ["work"]
                Sample.answers_after_queries Hasks) as (Hsteps & _ & _).
    destruct (Hsteps (Index.Text "my-app") Sample.world_before _ _ (surjective_pairing _))
      as (_ & _ & Hgit).
    apply (Hgit _ (EvSpawn "git" ["init"] (Some ["work"; "my-app"]) (Some "ignore"))
             (skipn 19 (World.trace (snd (Index.create Ejs.render Sample.catalog_readme
                false Sample.child_without_git Sample.dirname ["work"]
                Sample.answers_after_queries (Index.Text "my-app")
                Sample.world_before))))).
    + vm_compute. reflexivity.
    + reflexivity.
Defined.

(* ===================================================================== *)
(** ** Git initialisation *)
(* ===================================================================== *)

(** C10.  [initializeGit] never throws and never ends the process: it
    returns, or waits for ever on a git process that never settles; it adds
    to the trace only git processes, their settlements and the warning.
    Once the files are generated and the dependencies installed, [create]
    cannot fail: whatever the git commands do, the run returns (or waits for
    ever on a process that never settles). *)
Theorem C10_initializeGit_never_throws
    (isWin : bool)
    (child : world -> string -> list string -> option (list string) -> option string ->
             settlement * gmap (list string) node) :
  (forall targetPath w r w',
     Commands.initializeGit isWin child targetPath w = (r, w') ->
     (r = Ok tt \/ r = Hang) /\
     (Spec.settles child -> r = Ok tt) /\
     Spec.traced Spec.is_git_step w w') /\
  (forall ejs_render catalog dirname folder basename answers w w2 w3 r w',
     Index.generateProject ejs_render catalog dirname
       (Index.options_of folder answers) (Spec.start_world w) = (Ok tt, w2) ->
     Commands.installDependencies isWin child folder
       (Types.packageManager_name (Types.a_packageManager answers))
       {| World.files := World.files w2;
          World.trace := World.trace w2 ++ [EvSpinner "text" "Installing dependencies..."] |}
     = (Ok tt, w3) ->
     Index.generate ejs_render catalog isWin child dirname folder basename answers w
     = (r, w') ->
     (r = Ok tt \/ r = Hang) /\ (Spec.settles child -> r = Ok tt)).
Proof.
  split.
  - intros targetPath w r w' H. repeat apply conj.
    + destruct (CommandsFacts.initializeGit_outcome _ _ _ _ _ _ H) as [-> | [-> _]]; auto.
    + intros Hsettles.
      destruct (CommandsFacts.initializeGit_outcome _ _ _ _ _ _ H)
        as [-> | [-> (w0 & c & a & d & s & Hn)]]; [reflexivity |].
      now destruct (Hsettles w0 c a d s).
    + eapply CommandsFacts.initializeGit_traced. eassumption.
  - intros ejs_render catalog dirname folder basename answers w w2 w3 r w'.
    apply IndexFacts.generate_after_install.
Qed.

Lemma child_without_git_settles : Spec.settles Sample.child_without_git.
Proof.
  intros w command args cwd stdio. unfold Sample.child_without_git.
  destruct (String.eqb command "git"); discriminate.
Qed.

(** On a machine without git the first git command fails: [initializeGit]
    returns, and the trace holds the spawn, its failure and the warning.
    The same holds when no process can be spawned for git. *)
Lemma C10_witness :
  let run :=
    Commands.initializeGit false Sample.child_without_git ["work"; "my-app"]
      Sample.world0 in
  let unspawned :=
    Commands.initializeGit false (Protocol.child_unspawned "git" "ENOENT")
      ["work"; "my-app"] Sample.world0 in
  (fst run = Ok tt /\
   World.trace (snd run)
   = [ EvSpawn "git" ["init"] (Some ["work"; "my-app"]) (Some "ignore");
       EvSettled (Closed (Some 127));
       EvConsole "warn" "Warning: Git initialization failed" ]) /\
  (fst unspawned = Ok tt /\
   World.trace (snd unspawned)
   = [ EvSpawn "git" ["init"] (Some ["work"; "my-app"]) (Some "ignore");
       EvSettled (Errored (SpawnError "ENOENT"));
       EvConsole "warn" "Warning: Git initialization failed" ]).
Proof.
  cbv zeta. split; split.
  - destruct (C10_initializeGit_never_throws false Sample.child_without_git) as [Hgit _].
    destruct (Hgit ["work"; "my-app"] Sample.world0 _ _ (surjective_pairing _))
      as (_ & Hreturns & _).
    apply Hreturns. apply child_without_git_settles.
  - vm_compute. reflexivity.
  - destruct (C10_initializeGit_never_throws false
                (Protocol.child_unspawned "git" "ENOENT")) as [Hgit _].
    destruct (Hgit ["work"; "my-app"] Sample.world0 _ _ (surjective_pairing _))
      as (_ & Hreturns & _).
    apply Hreturns. intros w command args cwd stdio.
    unfold Protocol.child_unspawned.
    destruct (String.eqb command "git"); discriminate.
  - vm_compute. reflexivity.
Defined.

(* ===================================================================== *)
(** ** Names derived from directory names *)
(* ===================================================================== *)

Module ProjectNameFacts.
Import ProjectName RegexFacts StringFacts.

Lemma alnum_not_hyphen ch : is_lower_alnum ch = true -> Ascii.eqb ch "-" = false.
Proof.
  intros H. destruct (Ascii.eqb_spec ch "-") as [-> |]; [discriminate H | reflexivity].
Qed.

Lemma name_char_cases ch :
  name_char ch = true -> is_lower_alnum ch = true \/ (is_lower_alnum ch = false /\ ch = "-"%char).
Proof.
  unfold name_char. destruct (is_lower_alnum ch); [now left |].
  simpl. intros H. right. split; [reflexivity |]. now apply Ascii.eqb_eq.
Qed.

Lemma starts_with_hyphen ch s :
  Js.starts_with (String ch s) "-" = Ascii.eqb ch "-".
Proof.
  unfold Js.starts_with. cbn [Js.strip_prefix]. rewrite Ascii.eqb_sym.
  now destruct (Ascii.eqb ch "-").
Qed.

Lemma starts_with_hyphens ch s :
  Js.starts_with (String ch s) "--" = Ascii.eqb ch "-" && Js.starts_with s "-".
Proof.
  unfold Js.starts_with. cbn [Js.strip_prefix]. rewrite Ascii.eqb_sym.
  destruct (Ascii.eqb ch "-"); [| reflexivity]. cbn [andb].
  destruct s as [| c s]; [reflexivity |]. cbn [Js.strip_prefix].
  now destruct (Ascii.eqb "-" c).
Qed.

(** *** The three passes keep the shape *)

Lemma hyphenate_chars s : forall inside,
  forallb name_char (list_ascii_of_string (hyphenate s inside)) = true.
Proof.
  induction s as [| ch s IH]; intros inside; simpl; [reflexivity |].
  destruct (is_lower_alnum ch) eqn:Hch.
  - simpl. unfold name_char at 1. rewrite Hch. simpl. apply IH.
  - destruct inside; [apply IH |]. simpl. apply IH.
Qed.

Lemma hyphenate_single s : forall inside,
  Js.includes (hyphenate s inside) "--" = false /\
  (inside = true -> Js.starts_with (hyphenate s inside) "-" = false).
Proof.
  induction s as [| ch s IH]; intros inside; simpl.
  - split; [reflexivity |]. intros _. reflexivity.
  - destruct (is_lower_alnum ch) eqn:Hch.
    + destruct (IH false) as [Hin _]. split.
      * rewrite includes_unfold, starts_with_hyphens, (alnum_not_hyphen _ Hch). exact Hin.
      * intros _. rewrite starts_with_hyphen. now apply alnum_not_hyphen.
    + destruct inside.
      * apply IH.
      * destruct (IH true) as [Hin Hst]. split; [| discriminate].
        rewrite includes_unfold, starts_with_hyphens, (Hst eq_refl). exact Hin.
Qed.

Lemma drop_leading_suffix s : exists hyphens, s = hyphens +:+ drop_leading s.
Proof.
  induction s as [| ch s [h IH]].
  - now exists "".
  - simpl. destruct (Ascii.eqb_spec ch "-") as [-> | Hne].
    + exists (String "-" h). rewrite append_cons. now f_equal.
    + exists "". rewrite append_nil_l.
      destruct ch as [[] [] [] [] [] [] [] []]; try reflexivity. now elim Hne.
Qed.

Lemma drop_leading_not_hyphen s : Js.starts_with (drop_leading s) "-" = false.
Proof.
  induction s as [| ch s IH]; [reflexivity |].
  simpl. destruct (Ascii.eqb_spec ch "-") as [-> | Hne]; [exact IH |].
  assert (Hs : drop_leading (String ch s) = String ch s).
  { destruct ch as [[] [] [] [] [] [] [] []]; try reflexivity. now elim Hne. }
  simpl in Hs. rewrite Hs, starts_with_hyphen. now apply Ascii.eqb_neq.
Qed.

Lemma drop_trailing_prefix s : exists hyphens, s = drop_trailing s +:+ hyphens.
Proof.
  induction s as [| ch s [h IH]].
  - now exists "".
  - simpl. destruct (drop_trailing s) as [| c kept] eqn:Hd.
    + rewrite append_nil_l in IH. subst h.
      destruct (Ascii.eqb ch "-").
      * now exists (String ch s).
      * exists s. now rewrite append_cons, append_nil_l.
    + exists h. rewrite append_cons. now f_equal.
Qed.

Lemma drop_trailing_last s :
  match last_char (drop_trailing s) with
  | Some ch => Ascii.eqb ch "-"
  | None => false
  end = false.
Proof.
  induction s as [| ch s IH]; [reflexivity |].
  simpl. destruct (drop_trailing s) as [| c kept] eqn:Hd.
  - destruct (Ascii.eqb ch "-") eqn:Hch; simpl; [reflexivity | exact Hch].
  - exact IH.
Qed.

Lemma chars_append a b :
  list_ascii_of_string (a +:+ b) = list_ascii_of_string a ++ list_ascii_of_string b.
Proof.
  induction a as [| ch a IH]; [reflexivity |].
  rewrite append_cons. simpl. now rewrite IH.
Qed.

Lemma includes_append_r a : forall b p,
  Js.includes b p = true -> Js.includes (a +:+ b) p = true.
Proof.
  induction a as [| ch a IH]; intros b p H.
  - now rewrite append_nil_l.
  - rewrite append_cons, includes_unfold, (IH _ _ H). apply orb_true_r.
Qed.

Lemma starts_with_append s t p :
  Js.starts_with s p = true -> Js.starts_with (s +:+ t) p = true.
Proof.
  intros H. apply starts_with_true in H as [r ->].
  apply starts_with_true. exists (r +:+ t). apply append_assoc.
Qed.

(** A piece cut out of a string of the shape: between hyphens dropped at
    the start and hyphens dropped at the end. *)
Lemma inner_piece_shape pre mid post :
  forallb name_char (list_ascii_of_string (pre +:+ mid +:+ post)) = true ->
  Js.includes (pre +:+ mid +:+ post) "--" = false ->
  forallb name_char (list_ascii_of_string mid) = true /\ Js.includes mid "--" = false.
Proof.
  intros Hc Hi. split.
  - rewrite !chars_append, !forallb_app in Hc.
    now apply andb_true_iff in Hc as [_ [Hc _]%andb_true_iff].
  - destruct (Js.includes mid "--") eqn:Hm; [| reflexivity].
    rewrite includes_append_r in Hi; [discriminate |].
    now apply includes_append_l.
Qed.

Lemma directoryToProjectName_shape toLowerCase dir :
  hyphen_separated (directoryToProjectName toLowerCase dir) = true.
Proof.
  unfold directoryToProjectName, hyphen_separated.
  set (h := hyphenate (toLowerCase dir) false).
  destruct (drop_leading_suffix h) as [pre Hpre].
  destruct (drop_trailing_prefix (drop_leading h)) as [post Hpost].
  assert (Hh : h = pre +:+ drop_trailing (drop_leading h) +:+ post) by congruence.
  destruct (inner_piece_shape pre (drop_trailing (drop_leading h)) post) as [Hc Hi].
  { rewrite <- Hh. apply hyphenate_chars. }
  { rewrite <- Hh. apply hyphenate_single. }
  rewrite Hc, Hi, drop_trailing_last. simpl.
  destruct (Js.starts_with (drop_trailing (drop_leading h)) "-") eqn:Hs; [| reflexivity].
  apply (starts_with_append _ post) in Hs. rewrite <- Hpost in Hs.
  now rewrite drop_leading_not_hyphen in Hs.
Qed.

(** *** Which names come out empty *)

Lemma has_alnum_hyphenate s : forall inside, has_alnum (hyphenate s inside) = has_alnum s.
Proof.
  unfold has_alnum.
  induction s as [| ch s IH]; intros inside; simpl; [reflexivity |].
  destruct (is_lower_alnum ch) eqn:Hch; simpl.
  - now rewrite Hch.
  - destruct inside; [apply IH |]. simpl. apply IH.
Qed.

Lemma has_alnum_drop_leading s : has_alnum (drop_leading s) = has_alnum s.
Proof.
  induction s as [| ch s IH]; [reflexivity |].
  simpl. destruct (Ascii.eqb_spec ch "-") as [-> | Hne]; [exact IH |].
  destruct ch as [[] [] [] [] [] [] [] []]; try reflexivity. now elim Hne.
Qed.

Lemma has_alnum_drop_trailing s : has_alnum (drop_trailing s) = has_alnum s.
Proof.
  induction s as [| ch s IH]; [reflexivity |].
  simpl. unfold has_alnum in *. simpl.
  destruct (drop_trailing s) as [| c kept] eqn:Hd.
  - rewrite <- IH. simpl.
    destruct (Ascii.eqb_spec ch "-") as [-> | _]; [reflexivity |].
    simpl. reflexivity.
  - simpl in *. now rewrite IH.
Qed.

Lemma shape_without_alnum r :
  hyphen_separated r = true -> has_alnum r = false -> r = "".
Proof.
  unfold hyphen_separated, has_alnum.
  destruct r as [| ch r]; [reflexivity |].
  rewrite starts_with_hyphen. simpl.
  intros H Hno. apply orb_false_iff in Hno as [Hch _].
  apply andb_true_iff in H as [[[[Hn _]%andb_true_iff Hs]%andb_true_iff _]%andb_true_iff _].
  unfold name_char in Hn. rewrite Hch in Hn. simpl in Hn. now rewrite Hn in Hs.
Qed.

Lemma directoryToProjectName_has_alnum toLowerCase dir :
  has_alnum (directoryToProjectName toLowerCase dir) = has_alnum (toLowerCase dir).
Proof.
  unfold directoryToProjectName.
  now rewrite has_alnum_drop_trailing, has_alnum_drop_leading, has_alnum_hyphenate.
Qed.

Lemma alnum_not_forbidden ch :
  is_lower_alnum ch = true -> ~ In ch ProjectManager.forbidden.
Proof.
  intros H Hin. unfold ProjectManager.forbidden in Hin. simpl in Hin.
  repeat (destruct Hin as [<- | Hin]; [discriminate H |]). exact Hin.
Qed.

Lemma name_char_not_forbidden ch :
  name_char ch = true -> ~ In ch ProjectManager.forbidden.
Proof.
  intros [H | [_ ->]]%name_char_cases; [now apply alnum_not_forbidden |].
  intros Hin. simpl in Hin.
  repeat (destruct Hin as [Hin | Hin]; [discriminate Hin |]). exact Hin.
Qed.

Lemma shape_valid r :
  hyphen_separated r = true -> r <> "" -> ProjectManager.validateProjectName r = true.
Proof.
  intros H Hne. unfold ProjectManager.validateProjectName.
  apply test_anchored_Matches, Plus_Class_Matches. split; [exact Hne |].
  intros ch Hin. apply in_class_negated. apply name_char_not_forbidden.
  unfold hyphen_separated in H.
  apply andb_true_iff in H as [[[Hc _]%andb_true_iff _]%andb_true_iff _].
  rewrite forallb_forall in Hc. now apply Hc.
Qed.

(** *** Names of the shape are fixed points *)

Lemma hyphenate_fixed r : forall inside,
  forallb name_char (list_ascii_of_string r) = true ->
  Js.includes r "--" = false ->
  (inside = true -> Js.starts_with r "-" = false) ->
  hyphenate r inside = r.
Proof.
  induction r as [| ch r IH]; intros inside Hc Hi Hs; [reflexivity |].
  simpl in Hc. apply andb_true_iff in Hc as [Hch Hc].
  rewrite includes_unfold, starts_with_hyphens in Hi.
  apply orb_false_iff in Hi as [Hst Hi].
  simpl. destruct (name_char_cases _ Hch) as [Ha | [Ha ->]]; rewrite Ha.
  - f_equal. apply IH; [assumption | assumption | discriminate].
  - destruct inside.
    + specialize (Hs eq_refl). now rewrite starts_with_hyphen in Hs.
    + f_equal. apply IH; [assumption | assumption |]. intros _. exact Hst.
Qed.

Lemma drop_leading_fixed r : Js.starts_with r "-" = false -> drop_leading r = r.
Proof.
  destruct r as [| ch r]; [reflexivity |].
  rewrite starts_with_hyphen. intros H%Ascii.eqb_neq.
  destruct ch as [[] [] [] [] [] [] [] []]; try reflexivity. now elim H.
Qed.

Lemma drop_trailing_fixed r :
  match last_char r with Some ch => Ascii.eqb ch "-" | None => false end = false ->
  drop_trailing r = r.
Proof.
  induction r as [| ch r IH]; [reflexivity |].
  destruct r as [| c r].
  - simpl. intros ->. reflexivity.
  - intros H. change (last_char (String ch (String c r))) with (last_char (String c r)) in H.
    specialize (IH H).
    change (drop_trailing (String ch (String c r)))
      with (match drop_trailing (String c r) with
            | EmptyString => if Ascii.eqb ch "-" then EmptyString else String ch EmptyString
            | kept => String ch kept
            end).
    now rewrite IH.
Qed.

Lemma shape_fixed toLowerCase r :
  (forall s, forallb name_char (list_ascii_of_string s) = true -> toLowerCase s = s) ->
  hyphen_separated r = true ->
  directoryToProjectName toLowerCase r = r.
Proof.
  intros Hlow H. unfold hyphen_separated in H.
  apply andb_true_iff in H as [[[Hc Hs]%andb_true_iff Hl]%andb_true_iff Hi].
  apply negb_true_iff in Hs, Hl, Hi.
  unfold directoryToProjectName.
  rewrite (Hlow _ Hc), (hyphenate_fixed r false Hc Hi), (drop_leading_fixed _ Hs);
    [now apply drop_trailing_fixed | discriminate].
Qed.

Lemma lower_char_fixed ch : name_char ch = true -> lower_char ch = ch.
Proof.
  intros [H | [_ ->]]%name_char_cases; [| reflexivity].
  unfold lower_char, is_lower_alnum in *. cbv zeta in *.
  destruct (Nat.leb_spec 65 (nat_of_ascii ch)), (Nat.leb_spec (nat_of_ascii ch) 90);
    simpl; try reflexivity.
  destruct (Nat.leb_spec 97 (nat_of_ascii ch)), (Nat.leb_spec (nat_of_ascii ch) 122),
           (Nat.leb_spec 48 (nat_of_ascii ch)), (Nat.leb_spec (nat_of_ascii ch) 57);
    simpl in H; try discriminate H; lia.
Qed.

Lemma ascii_toLowerCase_fixed s :
  forallb name_char (list_ascii_of_string s) = true -> ascii_toLowerCase s = s.
Proof.
  induction s as [| ch s IH]; [reflexivity |].
  simpl. intros [Hch Hs]%andb_true_iff. now rewrite (lower_char_fixed _ Hch), IH.
Qed.

End ProjectNameFacts.

(** X1.  Whatever the directory name, [directoryToProjectName] returns
    words of lowercase letters and digits separated by single hyphens: every
    character is in a-z, 0-9 or a hyphen, the result neither starts nor ends
    with a hyphen, and it holds no two hyphens in a row. *)
Theorem X1_directoryToProjectName_shape (toLowerCase : string -> string) (dir : string) :
  let name := ProjectName.directoryToProjectName toLowerCase dir in
  forallb ProjectName.name_char (list_ascii_of_string name) = true /\
  Js.starts_with name "-" = false /\
  ProjectName.last_char name <> Some "-"%char /\
  Js.includes name "--" = false.
Proof.
  cbv zeta.
  pose proof (ProjectNameFacts.directoryToProjectName_shape toLowerCase dir) as H.
  unfold ProjectName.hyphen_separated in H.
  apply andb_true_iff in H as [[[Hc Hs]%andb_true_iff Hl]%andb_true_iff Hi].
  apply negb_true_iff in Hs, Hl, Hi. repeat apply conj; try assumption.
  intros Hlast. rewrite Hlast in Hl. discriminate Hl.
Qed.

(** X2.  The result of [directoryToProjectName] is empty exactly when the
    lower-cased directory name holds no character of a-z or 0-9; in every
    other case it is a name that [validateProjectName] accepts. *)
Theorem X2_directoryToProjectName_valid (toLowerCase : string -> string) (dir : string) :
  (ProjectName.directoryToProjectName toLowerCase dir = "" <->
   existsb ProjectName.is_lower_alnum (list_ascii_of_string (toLowerCase dir)) = false) /\
  (ProjectName.directoryToProjectName toLowerCase dir <> "" ->
   ProjectManager.validateProjectName (ProjectName.directoryToProjectName toLowerCase dir)
   = true).
Proof.
  split.
  - pose proof (ProjectNameFacts.directoryToProjectName_has_alnum toLowerCase dir) as H.
    unfold ProjectName.has_alnum in H. rewrite <- H. split.
    + intros ->. reflexivity.
    + apply ProjectNameFacts.shape_without_alnum.
      apply ProjectNameFacts.directoryToProjectName_shape.
  - apply ProjectNameFacts.shape_valid. apply ProjectNameFacts.directoryToProjectName_shape.
Qed.

Lemma X2_witness :
  ProjectName.directoryToProjectName ProjectName.ascii_toLowerCase "My App 2.0" = "my-app-2-0" /\
  ProjectManager.validateProjectName "my-app-2-0" = true.
Proof.
  refine (conj eq_refl _).
  apply (proj2 (X2_directoryToProjectName_valid ProjectName.ascii_toLowerCase "My App 2.0")).
  discriminate.
Defined.

(** X3.  A name that already consists of lowercase words separated by
    single hyphens is returned unchanged, so [directoryToProjectName] is
    idempotent.  (The lower-casing of the engine leaves such names as they
    are.) *)
Theorem X3_directoryToProjectName_idempotent (toLowerCase : string -> string) :
  (forall s, forallb ProjectName.name_char (list_ascii_of_string s) = true ->
             toLowerCase s = s) ->
  (forall name, ProjectName.hyphen_separated name = true ->
                ProjectName.directoryToProjectName toLowerCase name = name) /\
  (forall dir,
     ProjectName.directoryToProjectName toLowerCase
       (ProjectName.directoryToProjectName toLowerCase dir)
     = ProjectName.directoryToProjectName toLowerCase dir).
Proof.
  intros Hlow. split.
  - intros name. now apply ProjectNameFacts.shape_fixed.
  - intros dir. apply ProjectNameFacts.shape_fixed; [exact Hlow |].
    apply ProjectNameFacts.directoryToProjectName_shape.
Qed.

Lemma X3_witness :
  ProjectName.directoryToProjectName ProjectName.ascii_toLowerCase "my-react-app"
  = "my-react-app" /\
  ProjectName.directoryToProjectName ProjectName.ascii_toLowerCase
    (ProjectName.directoryToProjectName ProjectName.ascii_toLowerCase "My@React#App")
  = ProjectName.directoryToProjectName ProjectName.ascii_toLowerCase "My@React#App".
Proof.
  destruct (X3_directoryToProjectName_idempotent ProjectName.ascii_toLowerCase
              ProjectNameFacts.ascii_toLowerCase_fixed) as [Hfixed Hidem].
  exact (conj (Hfixed "my-react-app" eq_refl) (Hidem "My@React#App")).
Defined.
(* ===================================================================== *)
(** ** The questions and the flags of the command line *)
(* ===================================================================== *)

Module QuestionsFacts.
Import Regex RegexFacts StringFacts Questions.

Lemma Eps_inv s : Matches Eps s -> s = "".
Proof. intros H. now inversion H. Qed.

Lemma lit_Matches p : forall s, Matches (lit p) s <-> s = p.
Proof.
  induction p as [| ch p IH]; intros s.
  - split; [apply Eps_inv | intros ->; constructor].
  - change (lit (String ch p)) with (Cat (Class false [ch]) (lit p)). split.
    + intros (s1 & s2 & -> & (c & -> & Hc)%Class_inv & H2%IH)%Cat_inv. subst s2.
      unfold in_class in Hc. simpl in Hc. rewrite orb_false_r in Hc.
      apply Ascii.eqb_eq in Hc. now subst c.
    + intros ->. apply (MCat (Class false [ch]) (lit p) (String ch "") p).
      * constructor. unfold in_class. simpl. now rewrite Ascii.eqb_refl.
      * now apply IH.
Qed.

Lemma test_prefix_Matches s : forall r,
  test_prefix r s = true <-> exists s1 s2, s = s1 +:+ s2 /\ Matches r s1.
Proof.
  induction s as [| ch s IH]; intros r; simpl.
  - rewrite orb_false_r, nullable_Matches. split.
    + intros H. now exists "", "".
    + intros (s1 & s2 & Heq & H). symmetry in Heq.
      apply append_nil_inv in Heq as [-> _]. exact H.
  - rewrite orb_true_iff, nullable_Matches, IH. split.
    + intros [H | (s1 & s2 & -> & H)].
      * now exists "", (String ch s).
      * exists (String ch s1), s2. split; [now rewrite append_cons |].
        now apply deriv_Matches.
    + intros (s1 & s2 & Heq & H). destruct s1 as [| c s1].
      * now left.
      * right. rewrite append_cons in Heq. injection Heq as -> ->.
        exists s1, s2. split; [reflexivity |]. now apply deriv_Matches.
Qed.

Lemma url_pattern_Matches s :
  Matches url_pattern s <-> s = "http://" \/ s = "https://".
Proof.
  unfold url_pattern. split.
  - intros (s1 & s2 & -> & ->%lit_Matches &
            (s3 & s4 & -> & H3%Alt_inv & ->%lit_Matches)%Cat_inv)%Cat_inv.
    destruct H3 as [(c & -> & Hc)%Class_inv | ->%Eps_inv].
    + unfold in_class in Hc. simpl in Hc. rewrite orb_false_r in Hc.
      apply Ascii.eqb_eq in Hc. subst c. now right.
    + now left.
  - intros [-> | ->].
    + apply (MCat _ _ "http" "://"); [now apply lit_Matches |].
      apply (MCat _ _ "" "://"); [apply MAltR; constructor | now apply lit_Matches].
    + apply (MCat _ _ "http" "s://"); [now apply lit_Matches |].
      apply (MCat _ _ "s" "://"); [apply MAltL; now constructor | now apply lit_Matches].
Qed.

Lemma test_prefix_url s :
  test_prefix url_pattern s = true <->
  Js.starts_with s "http://" = true \/ Js.starts_with s "https://" = true.
Proof.
  rewrite test_prefix_Matches, !starts_with_true. split.
  - intros (s1 & s2 & -> & [-> | ->]%url_pattern_Matches); [left | right]; now exists s2.
  - intros [[r ->] | [r ->]].
    + exists "http://", r. split; [reflexivity |]. apply url_pattern_Matches. now left.
    + exists "https://", r. split; [reflexivity |]. apply url_pattern_Matches. now right.
Qed.

Lemma email_pattern_Matches s :
  Matches email_pattern s <->
  exists user host,
    s = user +:+ "@" +:+ host /\ user <> "" /\ host <> "" /\
    (forall ch, In ch (list_ascii_of_string user) -> Js.is_space ch = false) /\
    (forall ch, In ch (list_ascii_of_string host) -> Js.is_space ch = false).
Proof.
  assert (Hclass : forall ch,
            in_class true [" "; "009"; "010"; "011"; "012"; "013"]%char ch = true
            <-> Js.is_space ch = false).
  { intros ch. unfold in_class, Js.is_space. now rewrite xorb_true_l, negb_true_iff. }
  unfold email_pattern, nonspace. split.
  - intros (user & rest & -> & [Hu1 Hu2]%Plus_Class_Matches &
            (at_ & host & -> & (c & -> & Hc)%Class_inv & [Hh1 Hh2]%Plus_Class_Matches)%Cat_inv)%Cat_inv.
    unfold in_class in Hc. simpl in Hc. rewrite orb_false_r in Hc.
    apply Ascii.eqb_eq in Hc. subst c.
    exists user, host. repeat apply conj; try assumption; try reflexivity.
    + intros ch Hin. now apply Hclass, Hu2.
    + intros ch Hin. now apply Hclass, Hh2.
  - intros (user & host & -> & Hu & Hh & Hus & Hhs).
    apply MCat.
    + apply Plus_Class_Matches. split; [exact Hu |]. intros ch Hin. now apply Hclass, Hus.
    + apply (MCat _ _ "@" host).
      * now constructor.
      * apply Plus_Class_Matches. split; [exact Hh |]. intros ch Hin. now apply Hclass, Hhs.
Qed.

Lemma is_empty_true input : is_empty input = true <-> input = "".
Proof. apply String.eqb_eq. Qed.

End QuestionsFacts.

Module CliFacts.
Import World Questions Cli RunFacts QuestionsFacts.
Local Open Scope m_scope.

(** The loop stops at the first flag that is not accepted; up to there it
    leaves the world as it is. *)
Lemma validateArguments_run questions argv : forall w,
  (forallb (accepted questions) argv = true /\
   validateArguments questions argv w = (Ok tt, w)) \/
  (exists pre key value post q,
     argv = pre ++ (key, Some value) :: post /\
     forallb (accepted questions) pre = true /\
     lookup key questions = Some q /\
     verdict_of q value <> VBool true /\
     validateArguments questions argv w
     = (Exit 1,
        {| files := files w;
           trace := trace w ++ [EvConsole "log"
                                  (invalid_message key value (verdict_of q value))] |})).
Proof.
  induction argv as [| [key [value |]] rest IH]; intros w.
  - left. now split.
  - assert (Hnext :
      accepted questions (key, Some value) = true ->
      validateArguments questions ((key, Some value) :: rest) w
      = validateArguments questions rest w ->
      (forallb (accepted questions) ((key, Some value) :: rest) = true /\
       validateArguments questions ((key, Some value) :: rest) w = (Ok tt, w)) \/
      (exists pre key0 value0 post q,
         (key, Some value) :: rest = pre ++ (key0, Some value0) :: post /\
         forallb (accepted questions) pre = true /\
         lookup key0 questions = Some q /\
         verdict_of q value0 <> VBool true /\
         validateArguments questions ((key, Some value) :: rest) w
         = (Exit 1,
            {| files := files w;
               trace := trace w ++ [EvConsole "log"
                          (invalid_message key0 value0 (verdict_of q value0))] |}))).
    { intros Hacc Hstep. rewrite Hstep.
      destruct (IH w) as [[Hall Hrun] | (pre & k & v & post & q & -> & Hpre & Hq & Hv & Hrun)].
      - left. split; [| exact Hrun]. cbn [forallb]. now rewrite Hacc, Hall.
      - right. exists ((key, Some value) :: pre), k, v, post, q.
        repeat apply conj; try assumption; [reflexivity |].
        cbn [forallb]. now rewrite Hacc, Hpre. }
    destruct (lookup key questions) as [q |] eqn:Hq.
    + destruct (verdict_of q value) as [[] | message] eqn:Hv.
      * apply Hnext; [| cbn [validateArguments]; now rewrite Hq, Hv].
        unfold accepted. now rewrite Hq, Hv.
      * right. exists [], key, value, rest, q. rewrite Hv.
        repeat apply conj; try reflexivity; try assumption; [discriminate |].
        cbn [validateArguments]. now rewrite Hq, Hv.
      * right. exists [], key, value, rest, q. rewrite Hv.
        repeat apply conj; try reflexivity; try assumption; [discriminate |].
        cbn [validateArguments]. now rewrite Hq, Hv.
    + apply Hnext; [| cbn [validateArguments]; now rewrite Hq].
      unfold accepted. now rewrite Hq.
  - cbn [validateArguments].
    destruct (IH w) as [[Hall Hrun] | (pre & k & v & post & q & -> & Hpre & Hq & Hv & Hrun)].
    + left. now split.
    + right. exists ((key, None) :: pre), k, v, post, q.
      repeat apply conj; try assumption. reflexivity.
Qed.

Lemma validateArguments_rejects questions argv w entry :
  In entry argv -> accepted questions entry = false ->
  fst (validateArguments questions argv w) = Exit 1.
Proof.
  intros Hin Hrej.
  destruct (validateArguments_run questions argv w)
    as [[Hall _] | (pre & k & v & post & q & _ & _ & _ & _ & ->)]; [| reflexivity].
  rewrite forallb_forall in Hall. rewrite (Hall _ Hin) in Hrej. discriminate.
Qed.

Lemma choice_accepted (values : list choice) value :
  existsb (fun choice => String.eqb (Questions.value choice) value) values = true <->
  In value (map Questions.value values).
Proof.
  rewrite existsb_exists, in_map_iff. split.
  - intros (c & Hin & Heq%String.eqb_eq). now exists c.
  - intros (c & <- & Hin). exists c. split; [exact Hin | apply String.eqb_refl].
Qed.

(** Looks the question of a flag up and unfolds the verdict on its value. *)
Ltac flag_verdict :=
  cbv beta iota zeta delta
    [accepted verdict_of lookup getQuestions String.eqb Ascii.eqb Bool.eqb
     validate choices or_else].

End CliFacts.

(** X4.  The validation of the flags stops at the first flag whose value
    is not accepted: it logs one message that names the flag and its value
    and ends the process with exit code 1.  When every flag is accepted it
    returns and leaves the world as it was.  It never throws. *)
Theorem X4_validateArguments_fails_fast
    (questions : list (string * Questions.question))
    (argv : list (string * option string)) (w : world) :
  (forallb (Cli.accepted questions) argv = true /\
   Cli.validateArguments questions argv w = (Ok tt, w)) \/
  (exists pre key value post q,
     argv = pre ++ (key, Some value) :: post /\
     forallb (Cli.accepted questions) pre = true /\
     Cli.lookup key questions = Some q /\
     Cli.verdict_of q value <> Questions.VBool true /\
     Cli.validateArguments questions argv w
     = (Exit 1,
        {| World.files := World.files w;
           World.trace := World.trace w ++
             [EvConsole "log" (Cli.invalid_message key value (Cli.verdict_of q value))] |})).
Proof. apply CliFacts.validateArguments_run. Qed.

(** X5.  The values the flags accept, whatever the initial answers: a slug
    that [validateProjectName] accepts; for the description only the empty
    string; any author name; for the two URLs the empty string or a text
    that starts with http:// or https://; for language, bundler and package
    manager one of the listed choices. *)
Theorem X5_accepted_flag_values
    (toLowerCase : string -> string) (initialAnswers : Questions.InitialAnswers) :
  let accepts key value :=
    Cli.accepted (Questions.getQuestions toLowerCase initialAnswers) (key, Some value) in
  let is_url value :=
    value = "" \/ Js.starts_with value "http://" = true
    \/ Js.starts_with value "https://" = true in
  (forall v, accepts "slug" v = true <-> ProjectManager.validateProjectName v = true) /\
  (forall v, accepts "description" v = true <-> v = "") /\
  (forall v, accepts "author-name" v = true) /\
  (forall v, accepts "author-url" v = true <-> is_url v) /\
  (forall v, accepts "repo-url" v = true <-> is_url v) /\
  (forall v, accepts "language" v = true <-> In v ["javascript"; "typescript"]) /\
  (forall v, accepts "bundler" v = true <-> In v ["vite"; "webpack"; "rollup"]) /\
  (forall v, accepts "package-manager" v = true <-> In v ["npm"; "yarn"; "pnpm"; "bun"]).
Proof.
  cbv zeta.
  assert (Hchoice : forall (values : list Questions.choice) v,
    match (if existsb (fun choice => String.eqb (Questions.value choice) v) values
           then Questions.VBool true
           else Questions.VString ("Supported values are - "
                  +:+ String.concat "," (map Questions.value values))) with
    | Questions.VBool true => true
    | _ => false
    end = true <-> In v (map Questions.value values)).
  { intros values v. rewrite <- CliFacts.choice_accepted.
    destruct (existsb _ values); simpl; intuition discriminate. }
  repeat apply conj; intros v; CliFacts.flag_verdict.
  - destruct (ProjectManager.validateProjectName v); simpl; intuition discriminate.
  - rewrite <- QuestionsFacts.is_empty_true.
    destruct (Questions.is_empty v); simpl; intuition discriminate.
  - reflexivity.
  - rewrite <- QuestionsFacts.test_prefix_url, <- QuestionsFacts.is_empty_true.
    destruct (Questions.is_empty v), (Questions.test_prefix Questions.url_pattern v);
      simpl; intuition discriminate.
  - rewrite <- QuestionsFacts.test_prefix_url, <- QuestionsFacts.is_empty_true.
    destruct (Questions.is_empty v), (Questions.test_prefix Questions.url_pattern v);
      simpl; intuition discriminate.
  - apply (Hchoice [ {| Questions.title := "Javascript"; Questions.value := "javascript" |};
                     {| Questions.title := "Typescript"; Questions.value := "typescript" |} ]).
  - apply (Hchoice [ {| Questions.title := "Vite"; Questions.value := "vite" |};
                     {| Questions.title := "Webpack"; Questions.value := "webpack" |};
                     {| Questions.title := "Rollup"; Questions.value := "rollup" |} ]).
  - apply (Hchoice [ {| Questions.title := "npm"; Questions.value := "npm" |};
                     {| Questions.title := "Yarn"; Questions.value := "yarn" |};
                     {| Questions.title := "pnpm"; Questions.value := "pnpm" |};
                     {| Questions.title := "Bun"; Questions.value := "bun" |} ]).
Qed.

(** X6.  A description passed on the command line is rejected unless it is
    empty: whatever the other flags are, the validation ends the process
    with exit code 1. *)
Theorem X6_description_flag_is_rejected
    (toLowerCase : string -> string) (initialAnswers : Questions.InitialAnswers)
    (argv : list (string * option string)) (text : string) (w : world) :
  In ("description", Some text) argv ->
  text <> "" ->
  fst (Cli.validateArguments (Questions.getQuestions toLowerCase initialAnswers) argv w)
  = Exit 1.
Proof.
  intros Hin Hne. eapply CliFacts.validateArguments_rejects; [exact Hin |].
  CliFacts.flag_verdict. unfold Questions.is_empty.
  destruct (String.eqb_spec text ""); [contradiction | reflexivity].
Qed.

Lemma X6_witness :
  fst (Cli.validateArguments
         (Questions.getQuestions ProjectName.ascii_toLowerCase
            {| Questions.i_slug := Some "my-app";
               Questions.i_authorName := None;
               Questions.i_authorEmail := None |})
         [ ("project-name", Some "my-app"); ("language", Some "typescript");
           ("description", Some "A new app") ]
         Sample.world0)
  = Exit 1.
Proof.
  apply (X6_description_flag_is_rejected ProjectName.ascii_toLowerCase _ _ "A new app").
  - right. right. left. reflexivity.
  - discriminate.
Defined.

(** X7.  For ASCII input, the validator of the author's email address
    accepts the empty string, and otherwise exactly the texts without white
    space that hold an at-sign with at least one character on each side. *)
Theorem X7_email_flag_values
    (toLowerCase : string -> string) (initialAnswers : Questions.InitialAnswers)
    (input : string) :
  Cli.is_ascii input = true ->
  Cli.accepted (Questions.getQuestions toLowerCase initialAnswers)
               ("author-email", Some input) = true <->
  input = "" \/
  exists user host,
    input = user +:+ "@" +:+ host /\ user <> "" /\ host <> "" /\
    (forall ch, In ch (list_ascii_of_string user) -> Js.is_space ch = false) /\
    (forall ch, In ch (list_ascii_of_string host) -> Js.is_space ch = false).
Proof.
  intros _. rewrite <- QuestionsFacts.email_pattern_Matches, <- RegexFacts.test_anchored_Matches,
    <- QuestionsFacts.is_empty_true.
  CliFacts.flag_verdict.
  destruct (Questions.is_empty input), (Regex.test_anchored Questions.email_pattern input);
    simpl; intuition discriminate.
Qed.

Lemma X7_witness :
  Cli.accepted (Questions.getQuestions ProjectName.ascii_toLowerCase
                  {| Questions.i_slug := None;
                     Questions.i_authorName := None;
                     Questions.i_authorEmail := None |})
               ("author-email", Some "jane@example.org") = true.
Proof.
  apply (X7_email_flag_values ProjectName.ascii_toLowerCase _ "jane@example.org" eq_refl).
  right. exists "jane", "example.org". repeat apply conj; try discriminate; [reflexivity | |];
    intros ch Hin; simpl in Hin;
    repeat (destruct Hin as [<- | Hin]; [reflexivity |]); contradiction.
Defined.

(** X8.  The questions handed to the prompt are the questions whose flag
    was not given a value, in the order of their declaration: a flag that
    was given is never asked again, since no validator returns [false] and
    no question has a single choice. *)
Theorem X8_questions_asked
    (toLowerCase : string -> string) (initialAnswers : Questions.InitialAnswers)
    (argv : list (string * option string)) :
  Cli.questionsToAsk (Questions.getQuestions toLowerCase initialAnswers) argv
  = List.filter (fun entry => negb (Cli.given argv (fst entry)))
      (Questions.getQuestions toLowerCase initialAnswers).
Proof.
  unfold Cli.questionsToAsk. apply List.filter_ext_in.
  intros [key q] Hin. unfold Cli.given. cbn [fst].
  unfold Questions.getQuestions in Hin. simpl in Hin.
  repeat (destruct Hin as [Hin | Hin];
          [injection Hin as <- <-; cbn;
           destruct (Cli.lookup _ argv) as [[v |] |]; try reflexivity |]);
    try contradiction.
  - now destruct (ProjectManager.validateProjectName v).
  - now destruct (Questions.is_empty v).
  - now destruct (Questions.is_empty v), (Regex.test_anchored Questions.email_pattern v).
  - now destruct (Questions.is_empty v), (Questions.test_prefix Questions.url_pattern v).
  - now destruct (Questions.is_empty v), (Questions.test_prefix Questions.url_pattern v).
Qed.

(** X9.  The name that the slug question offers as its default is derived
    from the initial slug by [directoryToProjectName], and it is either
    empty or a name that the validator of the same question accepts. *)
Theorem X9_default_slug_is_valid
    (toLowerCase : string -> string) (initialAnswers : Questions.InitialAnswers) :
  exists question offered check,
    Cli.lookup "slug" (Questions.getQuestions toLowerCase initialAnswers) = Some question /\
    Questions.initial question = Some offered /\
    Questions.validate question = Some check /\
    offered = ProjectName.directoryToProjectName toLowerCase
                (Js.or_empty (Questions.i_slug initialAnswers)) /\
    (offered = "" \/ check offered = Questions.VBool true).
Proof.
  eexists _, _, _. repeat apply conj; try reflexivity.
  set (offered := ProjectName.directoryToProjectName toLowerCase _).
  destruct (String.eqb_spec offered "") as [-> | Hne]; [now left | right].
  cbv beta. unfold offered in *.
  now rewrite (ProjectNameFacts.shape_valid _
                 (ProjectNameFacts.directoryToProjectName_shape _ _) Hne).
Qed.
(* ===================================================================== *)
(** ** The commands one by one *)
(* ===================================================================== *)

Module ProtocolFacts.
Import World Spec RunFacts Protocol.
Local Open Scope m_scope.

Section Platform.

Variable isWin : bool.
Variable child :
  world -> string -> list string -> option (list string) -> option string ->
  settlement * gmap (list string) node.

Abbreviation runCommand := (Commands.runCommand isWin child).
Abbreviation spawn_event := (Spec.spawn_event isWin).

(** The run of one command, by the settlement of its child. *)
Lemma runCommand_run command args cwd stdio w :
  exists s fs',
    runCommand command args cwd stdio w
    = (match s with
       | Closed (Some 0) => Ok tt
       | Closed code =>
           Throw (Error (command +:+ " " +:+ String.concat " " args
                         +:+ " failed with code " +:+ Commands.show_code code))
       | Errored e => Throw e
       | NeverSettles => Hang
       end,
       {| files := fs';
          trace := trace w ++ [spawn_event command args cwd stdio; EvSettled s] |}).
Proof.
  unfold Commands.runCommand, Spec.spawn_event.
  destruct (Commands.buildCommand isWin command args) as [cmd cmdArgs]. cbn [fst snd].
  destruct (child _ cmd cmdArgs cwd stdio) as [s fs']. cbn [trace].
  exists s, fs'. rewrite <- app_assoc.
  now destruct s as [[[| n] |] | e |].
Qed.

(** The same for a child whose settlement is known. *)
Lemma runCommand_settled command args cwd stdio w s :
  (forall w0,
     fst (child w0 (fst (Commands.buildCommand isWin command args))
                (snd (Commands.buildCommand isWin command args)) cwd stdio) = s) ->
  exists fs',
    runCommand command args cwd stdio w
    = (match s with
       | Closed (Some 0) => Ok tt
       | Closed code =>
           Throw (Error (command +:+ " " +:+ String.concat " " args
                         +:+ " failed with code " +:+ Commands.show_code code))
       | Errored e => Throw e
       | NeverSettles => Hang
       end,
       {| files := fs';
          trace := trace w ++ [spawn_event command args cwd stdio; EvSettled s] |}).
Proof.
  intros Hchild. unfold Commands.runCommand, Spec.spawn_event.
  destruct (Commands.buildCommand isWin command args) as [cmd cmdArgs]. cbn [fst snd] in *.
  match goal with
  | |- context [child ?w0 cmd cmdArgs cwd stdio] =>
      specialize (Hchild w0); destruct (child w0 cmd cmdArgs cwd stdio) as [s0 fs']
  end.
  cbn [fst] in Hchild. subst s0. cbn [trace].
  exists fs'. rewrite <- app_assoc.
  now destruct s as [[[| n] |] | e |].
Qed.


Lemma manager_command_switch packageManager :
  (if String.eqb packageManager "yarn" then ("yarn", ["install"])
   else if String.eqb packageManager "pnpm" then ("pnpm", ["install"])
   else if String.eqb packageManager "bun" then ("bun", ["install"])
   else ("npm", ["install"]))
  = (manager_command packageManager, ["install"]).
Proof.
  unfold manager_command. cbn [existsb].
  destruct (String.eqb_spec packageManager "yarn") as [-> |]; [reflexivity |].
  destruct (String.eqb_spec packageManager "pnpm") as [-> |]; [reflexivity |].
  destruct (String.eqb_spec packageManager "bun") as [-> |]; reflexivity.
Qed.

(** A sequence of awaited commands inside the [try] of [initializeGit]. *)
Lemma attempts_run spawn warning (steps : list (list string)) (body : M unit)
    args cwd stdio :
  (forall a, spawn a = spawn_event "git" a cwd stdio) ->
  (forall w, exists t, trace (snd (try_catch body (fun _ => emit warning) w)) = trace w ++ t /\
                       Attempts spawn warning steps t
                                (fst (try_catch body (fun _ => emit warning) w))) ->
  forall w, exists t,
    trace (snd (try_catch (runCommand "git" args cwd stdio ;; body)
                          (fun _ => emit warning) w)) = trace w ++ t /\
    Attempts spawn warning (args :: steps) t
             (fst (try_catch (runCommand "git" args cwd stdio ;; body)
                             (fun _ => emit warning) w)).
Proof.
  intros Hspawn Hbody w.
  destruct (runCommand_run "git" args cwd stdio w) as (s & fs' & Hrun).
  unfold try_catch, bind. rewrite Hrun.
  destruct s as [[[| n] |] | e |].
  - specialize (Hbody {| files := fs';
                         trace := trace w ++ [spawn_event "git" args cwd stdio;
                                              EvSettled (Closed (Some 0))] |}).
    destruct Hbody as (t & Ht & Hatt). unfold try_catch in Ht, Hatt.
    exists (spawn args :: EvSettled (Closed (Some 0)) :: t). split.
    + rewrite Hspawn, Ht. cbn [trace]. now rewrite <- app_assoc.
    + constructor. exact Hatt.
  - exists [spawn args; EvSettled (Closed (Some (S n))); warning]. split.
    + rewrite Hspawn. cbn. now rewrite <- app_assoc.
    + now constructor.
  - exists [spawn args; EvSettled (Closed None); warning]. split.
    + rewrite Hspawn. cbn. now rewrite <- app_assoc.
    + now constructor.
  - exists [spawn args; EvSettled (Errored e); warning]. split.
    + rewrite Hspawn. cbn. now rewrite <- app_assoc.
    + now constructor.
  - exists [spawn args; EvSettled NeverSettles]. split.
    + rewrite Hspawn. reflexivity.
    + constructor.
Qed.

End Platform.

End ProtocolFacts.

(** X10.  [installDependencies] spawns one process: the package manager
    named, or npm for any name other than yarn, pnpm and bun, with the
    argument install, in the target directory (behind cmd.exe /c on
    Windows).  It returns when the process closes with code 0; any other
    close makes it throw an error whose message names the command and the
    code, and a spawn error is thrown as it is. *)
Theorem X10_installDependencies_runs_one_command
    (isWin : bool)
    (child : world -> string -> list string -> option (list string) -> option string ->
             settlement * gmap (list string) node)
    (targetPath : list string) (packageManager : string) (w : world) :
  let run := Commands.installDependencies isWin child targetPath packageManager w in
  let command := Protocol.manager_command packageManager in
  exists s,
    World.trace (snd run)
    = World.trace w ++ [Spec.spawn_event isWin command ["install"] (Some targetPath) None;
                        EvSettled s] /\
    fst run = match s with
              | Closed (Some 0) => Ok tt
              | Closed code =>
                  Throw (Error (command +:+ " install failed with code "
                                +:+ Commands.show_code code))
              | Errored e => Throw e
              | NeverSettles => Hang
              end.
Proof.
  cbv zeta. unfold Commands.installDependencies.
  rewrite ProtocolFacts.manager_command_switch.
  destruct (ProtocolFacts.runCommand_run isWin child
              (Protocol.manager_command packageManager) ["install"] (Some targetPath) None w)
    as (s & fs' & ->).
  exists s. split; [reflexivity |]. now destruct s as [[[| n] |] | e |].
Qed.

(** X11.  [initializeGit] runs git init, git add . and git commit in this
    order, each only after the one before it closed with code 0.  The first
    command that fails is followed by the warning and by no further
    command, and the call returns; when all three close with code 0 the
    call returns without a warning. *)
Theorem X11_initializeGit_stops_at_first_failure
    (isWin : bool)
    (child : world -> string -> list string -> option (list string) -> option string ->
             settlement * gmap (list string) node)
    (targetPath : list string) (w : world) :
  let run := Commands.initializeGit isWin child targetPath w in
  exists t,
    World.trace (snd run) = World.trace w ++ t /\
    Protocol.Attempts
      (fun args => Spec.spawn_event isWin "git" args (Some targetPath) (Some "ignore"))
      (EvConsole "warn" "Warning: Git initialization failed")
      [ ["init"]; ["add"; "."];
        ["commit"; "-m"; String "034" ("Initial commit" +:+ String "034" "")] ]
      t (fst run).
Proof.
  cbv zeta. unfold Commands.initializeGit.
  apply ProtocolFacts.attempts_run; [reflexivity |].
  apply ProtocolFacts.attempts_run; [reflexivity |].
  intros w1.
  destruct (ProtocolFacts.runCommand_run isWin child "git"
              ["commit"; "-m"; String "034" ("Initial commit" +:+ String "034" "")]
              (Some targetPath) (Some "ignore") w1) as (s & fs' & Hrun).
  unfold World.try_catch. rewrite Hrun.
  destruct s as [[[| n] |] | e |].
  - eexists. split; [reflexivity |]. repeat constructor.
  - eexists. split; [cbn; now rewrite <- app_assoc |]. now constructor.
  - eexists. split; [cbn; now rewrite <- app_assoc |]. now constructor.
  - eexists. split; [cbn; now rewrite <- app_assoc |]. now constructor.
  - eexists. split; [reflexivity |]. constructor.
Qed.

(** X12.  [isNpxPresent] runs npx --help once, and what it does next is
    fixed by how that command settles.  It returns when the command closes
    with code 0.  When the command fails with an error whose code is
    ENOENT it logs that npx is missing and ends the process with exit code
    1.  Any other failure is thrown to the caller: another error as it is,
    a close with another code as the error of the command runner.  While
    the command does not settle, neither does the check. *)
Theorem X12_isNpxPresent_outcomes
    (isWin : bool)
    (child : world -> string -> list string -> option (list string) -> option string ->
             settlement * gmap (list string) node)
    (w : world) :
  let spawned :=
    {| World.files := World.files w;
       World.trace := World.trace w ++ [Spec.spawn_event isWin "npx" ["--help"] None None] |} in
  let settled :=
    child spawned (fst (Commands.buildCommand isWin "npx" ["--help"]))
          (snd (Commands.buildCommand isWin "npx" ["--help"])) None None in
  let s := fst settled in
  let run := Commands.isNpxPresent isWin child w in
  let t := [Spec.spawn_event isWin "npx" ["--help"] None None; EvSettled s] in
  let missing :=
    EvConsole "log" "Couldn't find npx! Please install it by running npm install -g npx" in
  World.files (snd run) = snd settled /\
  match s with
  | Closed (Some 0) => fst run = Ok tt /\ World.trace (snd run) = World.trace w ++ t
  | Closed code =>
      fst run = Throw (Error ("npx --help failed with code " +:+ Commands.show_code code)) /\
      World.trace (snd run) = World.trace w ++ t
  | Errored e =>
      if Commands.is_enoent e
      then fst run = Exit 1 /\ World.trace (snd run) = World.trace w ++ t ++ [missing]
      else fst run = Throw e /\ World.trace (snd run) = World.trace w ++ t
  | NeverSettles => fst run = Hang /\ World.trace (snd run) = World.trace w ++ t
  end.
Proof.
  cbv zeta.
  rewrite (CommandsFacts.isNpxPresent_run isWin child w). cbv zeta.
  cbn [fst snd World.files World.trace].
  generalize (child
    {| World.files := World.files w;
       World.trace := World.trace w ++ [Spec.spawn_event isWin "npx" ["--help"] None None] |}
    (fst (Commands.buildCommand isWin "npx" ["--help"]))
    (snd (Commands.buildCommand isWin "npx" ["--help"])) None None).
  intros [s fs']. cbn [fst snd].
  split; [reflexivity |].
  destruct s as [[[| n] |] | e |]; try (split; reflexivity).
  destruct (Commands.is_enoent e); split; reflexivity.
Qed.

(** On a machine without npx the shell closes with code 127, and the check
    throws the error of the command runner; the message that npx is missing
    is logged when no process can be spawned. *)
Lemma X12_witness :
  let absent :=
    Commands.isNpxPresent false (Protocol.child_missing "npx") Sample.world_before in
  let unspawned :=
    Commands.isNpxPresent false (Protocol.child_unspawned "npx" "ENOENT")
      Sample.world_before in
  (fst absent = Throw (Error "npx --help failed with code 127") /\
   World.trace (snd absent)
   = [EvSpawn "npx" ["--help"] None None; EvSettled (Closed (Some 127))]) /\
  (fst unspawned = Exit 1 /\
   World.trace (snd unspawned)
   = [ EvSpawn "npx" ["--help"] None None;
       EvSettled (Errored (SpawnError "ENOENT"));
       EvConsole "log" "Couldn't find npx! Please install it by running npm install -g npx" ]).
Proof.
  exact (conj
    (proj2 (X12_isNpxPresent_outcomes false (Protocol.child_missing "npx")
              Sample.world_before))
    (proj2 (X12_isNpxPresent_outcomes false (Protocol.child_unspawned "npx" "ENOENT")
              Sample.world_before))).
Defined.

(* ===================================================================== *)
(** ** The steps of create, one by one *)
(* ===================================================================== *)

Module StepsFacts.
Import World Types Spec RunFacts CommandsFacts.
Local Open Scope m_scope.

(** The template root that [generateProject] computes. *)
Lemma template_path dirname (options : GenerateProjectOptions) :
  Path.join (Path.join dirname "templates")
    (language_name (language options) +:+ "-" +:+ bundler_name (bundler options))
  = dirname ++ ["templates";
                language_name (language options) +:+ "-" +:+ bundler_name (bundler options)].
Proof.
  rewrite (PathFacts.join_component dirname "templates") by reflexivity.
  rewrite PathFacts.join_component by (now destruct (language options), (bundler options)).
  now rewrite <- app_assoc.
Qed.



End StepsFacts.





(** X15.  [create] asks no question and generates nothing unless npx
    --help closes with code 0.  Once the project name is accepted, the run
    spawns that command and, when it settles in any other way, ends right
    after the check, with what [isNpxPresent] ends with: the error of the
    command runner for a close with another code, exit code 1 after the
    message that npx is missing for an error with the code ENOENT, any
    other error as it is.  On a machine without npx the shell that runs the
    command closes with code 127, so that [create] throws that npx --help
    failed with code 127 and the message is not logged. *)
Theorem X15_create_needs_npx
    (ejs_render : string -> list (string * value) -> option Ejs.options -> outcome string)
    (catalog : list entry) (isWin : bool)
    (child : world -> string -> list string -> option (list string) -> option string ->
             settlement * gmap (list string) node)
    (dirname cwd : list string) (collectAnswers : string -> M Answers)
    (projectName : Index.positional) (w : world) (found : list string * string)
    (s : settlement) :
  Index.validateAndGetProject cwd projectName w = (Ok found, w) ->
  (forall w0,
     fst (child w0 (fst (Commands.buildCommand isWin "npx" ["--help"]))
                (snd (Commands.buildCommand isWin "npx" ["--help"])) None None) = s) ->
  s <> Closed (Some 0) ->
  let run :=
    Index.create ejs_render catalog isWin child dirname cwd collectAnswers projectName w in
  let t := [Spec.spawn_event isWin "npx" ["--help"] None None; EvSettled s] in
  let missing :=
    EvConsole "log" "Couldn't find npx! Please install it by running npm install -g npx" in
  match s with
  | Closed code =>
      fst run = Throw (Error ("npx --help failed with code " +:+ Commands.show_code code)) /\
      World.trace (snd run) = World.trace w ++ t
  | Errored e =>
      if Commands.is_enoent e
      then fst run = Exit 1 /\ World.trace (snd run) = World.trace w ++ t ++ [missing]
      else fst run = Throw e /\ World.trace (snd run) = World.trace w ++ t
  | NeverSettles => fst run = Hang /\ World.trace (snd run) = World.trace w ++ t
  end.
Proof.
  intros Hvalid Hchild Hs. cbv zeta. unfold Index.create.
  rewrite (RunFacts.bind_Ok _ _ _ _ _ Hvalid).
  pose proof (CommandsFacts.isNpxPresent_run isWin child w) as Hnpx.
  cbv zeta in Hnpx. rewrite !Hchild in Hnpx.
  unfold World.bind. rewrite Hnpx.
  destruct s as [[[| n] |] | e |]; try (now elim Hs); try (split; reflexivity).
  destruct (Commands.is_enoent e); split; reflexivity.
Qed.

(** A machine without npx, and one on which no process can be spawned for
    it. *)
Lemma X15_witness :
  let absent :=
    Index.create Ejs.render Sample.catalog_readme false (Protocol.child_missing "npx")
      Sample.dirname ["work"] (fun _ => World.ret Sample.answers) (Index.Text "my-app")
      Sample.world_before in
  let unspawned :=
    Index.create Ejs.render Sample.catalog_readme false
      (Protocol.child_unspawned "npx" "ENOENT")
      Sample.dirname ["work"] (fun _ => World.ret Sample.answers) (Index.Text "my-app")
      Sample.world_before in
  (fst absent = Throw (Error "npx --help failed with code 127") /\
   World.trace (snd absent)
   = [EvSpawn "npx" ["--help"] None None; EvSettled (Closed (Some 127))]) /\
  (fst unspawned = Exit 1 /\
   World.trace (snd unspawned)
   = [ EvSpawn "npx" ["--help"] None None;
       EvSettled (Errored (SpawnError "ENOENT"));
       EvConsole "log" "Couldn't find npx! Please install it by running npm install -g npx" ]).
Proof.
  split.
  - apply (X15_create_needs_npx Ejs.render Sample.catalog_readme false
             (Protocol.child_missing "npx") Sample.dirname ["work"]
             (fun _ => World.ret Sample.answers) (Index.Text "my-app") Sample.world_before
             (["work"; "my-app"], "my-app") (Closed (Some 127))).
    + reflexivity.
    + intros w0. reflexivity.
    + discriminate.
  - apply (X15_create_needs_npx Ejs.render Sample.catalog_readme false
             (Protocol.child_unspawned "npx" "ENOENT") Sample.dirname ["work"]
             (fun _ => World.ret Sample.answers) (Index.Text "my-app") Sample.world_before
             (["work"; "my-app"], "my-app") (Errored (SpawnError "ENOENT"))).
    + reflexivity.
    + intros w0. reflexivity.
    + discriminate.
Defined.

(** X16.  [generateProject] first makes the target directory, with every
    missing directory above it.  A file in the way makes it throw the error
    of mkdir and leave the world as it is.  Otherwise it copies from the
    directory templates/language-bundler next to the program, and however
    the copy ends, the target and the directories above it are directories
    afterwards. *)
Theorem X16_generateProject_makes_the_target
    (ejs_render : string -> list (string * value) -> option Ejs.options -> outcome string)
    (catalog : list entry) (dirname : list string)
    (options : GenerateProjectOptions) (w : world) :
  let run := Index.generateProject ejs_render catalog dirname options w in
  let templatePath :=
    dirname ++ ["templates";
                Types.language_name (Types.language options) +:+ "-"
                +:+ Types.bundler_name (Types.bundler options)] in
  match Fs.mkdirp (World.files w) [] (Types.targetPath options) with
  | inl code => run = (Throw (SystemError code "mkdir" (Types.targetPath options)), w)
  | inr made =>
      run = Template.copyTemplate ejs_render catalog templatePath (Types.targetPath options)
              options
              {| World.files := made;
                 World.trace := World.trace w ++ [EvMkdir (Types.targetPath options)] |} /\
      (forall pre n post,
         Types.targetPath options = pre ++ n :: post -> Spec.is_dir (snd run) (pre ++ [n]))
  end.
Proof.
  cbv zeta. unfold Index.generateProject. rewrite StepsFacts.template_path.
  destruct (Fs.mkdirp (World.files w) [] (Types.targetPath options)) as [code | made] eqn:Hmk.
  - apply RunFacts.bind_Throw. unfold Fs.mkdirSync. now rewrite Hmk.
  - assert (Hmkdir :
      Fs.mkdirSync (Types.targetPath options) w
      = (Ok tt, {| World.files := made;
                   World.trace := World.trace w ++ [EvMkdir (Types.targetPath options)] |})).
    { unfold Fs.mkdirSync. now rewrite Hmk. }
    rewrite (RunFacts.bind_Ok _ _ _ _ _ Hmkdir). split; [reflexivity |].
    intros pre n post Hsplit.
    destruct (Template.copyTemplate ejs_render catalog _ (Types.targetPath options) options _)
      as [r w'] eqn:Hcopy.
    apply TemplateFacts.copyTemplate_only_grew in Hcopy.
    eapply TemplateFacts.only_grew_dir; [exact Hcopy |].
    unfold Spec.is_dir. cbn [World.files].
    apply (FsFacts.mkdirp_dirs _ _ _ _ pre n post Hmk Hsplit).
Qed.

(** X17.  A failed installation ends the run: when the files are generated
    and [installDependencies] throws, the spinner reports the failure, an
    error line that holds the message of the error is logged and the
    process ends with exit code 1; git is not initialised. *)
Theorem X17_failed_installation_ends_the_run
    (ejs_render : string -> list (string * value) -> option Ejs.options -> outcome string)
    (catalog : list entry) (isWin : bool)
    (child : world -> string -> list string -> option (list string) -> option string ->
             settlement * gmap (list string) node)
    (dirname folder : list string) (basename : string) (answers : Answers)
    (w w2 w3 : world) (e : error) :
  Index.generateProject ejs_render catalog dirname
    (Index.options_of folder answers) (Spec.start_world w) = (Ok tt, w2) ->
  Commands.installDependencies isWin child folder
    (Types.packageManager_name (Types.a_packageManager answers))
    {| World.files := World.files w2;
       World.trace := World.trace w2 ++ [EvSpinner "text" "Installing dependencies..."] |}
  = (Throw e, w3) ->
  let run :=
    Index.generate ejs_render catalog isWin child dirname folder basename answers w in
  fst run = Exit 1 /\
  World.files (snd run) = World.files w3 /\
  exists text,
    World.trace (snd run)
    = World.trace w3 ++ [EvSpinner "fail" "Failed to generate template";
                         EvConsole "error" text] /\
    Js.includes text (Index.message e) = true.
Proof.
  intros Hgen Hinstall. cbv zeta. unfold Index.generate.
  rewrite (RunFacts.bind_Ok _ _ _ _ _ (CommandsFacts.emit_run _ w)).
  fold (Spec.start_world w). unfold World.try_catch.
  rewrite (RunFacts.bind_Ok _ _ _ _ _ Hgen).
  rewrite (RunFacts.bind_Ok _ _ _ _ _ (CommandsFacts.emit_run _ w2)).
  rewrite (RunFacts.bind_Throw _ _ _ _ _ Hinstall).
  cbn. repeat apply conj; try reflexivity.
  eexists. split; [now rewrite <- app_assoc |].
  apply (ProjectNameFacts.includes_append_r "Error: ").
  rewrite StringFacts.includes_unfold. apply orb_true_iff. left.
  apply StringFacts.starts_with_true. exists "". now rewrite RegexFacts.append_nil_r.
Qed.

Lemma X17_witness :
  let run :=
    Index.generate Ejs.render Sample.catalog_readme false (Protocol.child_failing "npm")
      Sample.dirname ["work"; "my-app"] "my-app" Sample.answers Sample.world_before in
  fst run = Exit 1 /\
  exists text,
    skipn 10 (World.trace (snd run))
    = [ EvSettled (Closed (Some 1));
        EvSpinner "fail" "Failed to generate template";
        EvConsole "error" text ] /\
    Js.includes text "npm install failed with code 1" = true.
Proof.
  cbv zeta.
  destruct (X17_failed_installation_ends_the_run Ejs.render Sample.catalog_readme false
              (Protocol.child_failing "npm") Sample.dirname ["work"; "my-app"] "my-app"
              Sample.answers Sample.world_before
              (snd (Index.generateProject Ejs.render Sample.catalog_readme Sample.dirname
                      (Index.options_of ["work"; "my-app"] Sample.answers)
                      (Spec.start_world Sample.world_before)))
              (snd (Commands.installDependencies false (Protocol.child_failing "npm")
                      ["work"; "my-app"] "npm"
                      {| World.files :=
                           World.files
                             (snd (Index.generateProject Ejs.render Sample.catalog_readme
                                     Sample.dirname
                                     (Index.options_of ["work"; "my-app"] Sample.answers)
                                     (Spec.start_world Sample.world_before)));
                         World.trace :=
                           World.trace
                             (snd (Index.generateProject Ejs.render Sample.catalog_readme
                                     Sample.dirname
                                     (Index.options_of ["work"; "my-app"] Sample.answers)
                                     (Spec.start_world Sample.world_before)))
                           ++ [EvSpinner "text" "Installing dependencies..."] |}))
              (Error "npm install failed with code 1"))
    as (Hexit & _ & text & Htrace & Htext).
  - vm_compute. reflexivity.
  - vm_compute. reflexivity.
  - split; [exact Hexit |]. exists text. split; [| exact Htext].
    rewrite Htrace. vm_compute. reflexivity.
Defined.
(* ===================================================================== *)
(** ** The engine on texts with placeholders *)
(* ===================================================================== *)

Module PiecesFacts.
Import RegexFacts StringFacts Spec Types Pieces.

(** The delimiters that [renderTemplate] configures. *)
Abbreviation braces_options :=
  {| Ejs.delimiter := None; Ejs.openDelimiter := Some "{{"; Ejs.closeDelimiter := Some "}}" |}.
Abbreviation braces := (Ejs.resolve braces_options).
Abbreviation tags := (Ejs.alternatives braces).

Lemma includes_no_prefix s p : Js.includes s p = false -> Js.starts_with s p = false.
Proof. rewrite includes_unfold. now intros [H _]%orb_false_iff. Qed.

Lemma slurp_before_plain s : forall blanks,
  Js.includes s "<%_" = false -> Ejs.slurp_before s 0 blanks = blanks +:+ s.
Proof.
  induction s as [| ch s IH]; intros blanks H.
  - cbn. now rewrite append_nil_r.
  - cbn [Ejs.slurp_before]. rewrite (includes_no_prefix _ _ H).
    apply includes_tail in H.
    destruct (Js.is_blank ch).
    + rewrite IH by assumption. now rewrite append_assoc.
    + rewrite IH by assumption. now rewrite append_nil_l.
Qed.

Lemma slurp_after_plain s :
  Js.includes s "_%>" = false -> Ejs.slurp_after s 0 false = s.
Proof.
  induction s as [| ch s IH]; intros H; [reflexivity |].
  cbn [Ejs.slurp_after andb]. rewrite (includes_no_prefix _ _ H).
  now rewrite IH by (eapply includes_tail; eassumption).
Qed.

Lemma brace_free_tail ch s : brace_free (String ch s) = true -> brace_free s = true.
Proof.
  unfold brace_free. rewrite !andb_true_iff, !negb_true_iff.
  intros [H1 H2]. split; eapply includes_tail; eassumption.
Qed.

Lemma brace_free_no_prefix s a :
  brace_free s = true -> brace_free a = false -> Js.starts_with s a = false.
Proof.
  unfold brace_free. rewrite andb_true_iff, andb_false_iff, !negb_true_iff, !negb_false_iff.
  intros [H1 H2] Ha. destruct (Js.starts_with s a) eqn:E; [| reflexivity].
  destruct Ha as [Ha | Ha]; eapply includes_prefixed in Ha; try eassumption; congruence.
Qed.

Lemma brace_free_neq s a :
  brace_free s = true -> brace_free a = false -> String.eqb s a = false.
Proof.
  intros Hs Ha. destruct (String.eqb_spec s a) as [-> |]; [congruence | reflexivity].
Qed.

(** A tag found at the start of [s +:+ next] lies inside [s], or begins
    in [s] and ends in [next]. *)
Lemma starts_with_straddle s : forall next alt,
  Js.starts_with (s +:+ next) alt = true ->
  Js.starts_with s alt = true \/
  exists y, alt = s +:+ y /\ y <> "" /\ Js.starts_with next y = true.
Proof.
  induction s as [| ch s IH]; intros next alt H.
  - rewrite append_nil_l in H. destruct alt as [| a alt]; [now left |].
    right. exists (String a alt). now repeat split.
  - destruct alt as [| a alt]; [now left |].
    rewrite append_cons in H. unfold Js.starts_with in H |- *.
    cbn [Js.strip_prefix] in H |- *.
    destruct (Ascii.eqb_spec a ch) as [-> | Hne]; [| discriminate H].
    destruct (IH next alt H) as [Hin | (y & -> & Hy & Hnext)]; [now left |].
    right. exists y. now rewrite append_cons.
Qed.

(** No tag begins in a text and ends in the opening of the tag after it. *)
Lemma no_straddle s y r alt :
  In alt tags -> alt = s +:+ y -> s <> "" -> y <> "" ->
  Js.starts_with ("{{%" +:+ r) y = false.
Proof.
  intros Hin Hsplit Hs Hy. vm_compute in Hin.
  repeat (destruct Hin as [<- | Hin];
          [ repeat (destruct s as [| ? s];
                    [ first [ now elim Hs
                            | rewrite append_nil_l in Hsplit; subst y;
                              first [reflexivity | now elim Hy] ]
                    | rewrite append_cons in Hsplit;
                      first [ discriminate Hsplit
                            | injection Hsplit as <- Hsplit ] ])
          | ]).
  contradiction.
Qed.

Lemma no_tag_inside s next :
  brace_free s = true -> s <> "" ->
  next = "" \/ (exists r, next = "{{%" +:+ r) ->
  Ejs.match_here tags (s +:+ next) = None.
Proof.
  intros Hfree Hne Hnext.
  assert (Hall : forall alt, In alt tags -> Js.starts_with (s +:+ next) alt = false).
  { intros alt Hin. destruct (Js.starts_with (s +:+ next) alt) eqn:E; [| reflexivity].
    apply starts_with_straddle in E as [E | (y & Hsplit & Hy & E)].
    - rewrite brace_free_no_prefix in E; [discriminate E | assumption |].
      vm_compute in Hin.
      repeat (destruct Hin as [<- | Hin]; [reflexivity |]). contradiction.
    - destruct Hnext as [-> | [r ->]].
      + destruct y; [now elim Hy | discriminate E].
      + now rewrite (no_straddle s y r alt Hin Hsplit Hne Hy) in E. }
  unfold Ejs.alternatives. cbn [Ejs.match_here].
  repeat (rewrite Hall by (unfold Ejs.alternatives; cbn [In]; tauto)).
  reflexivity.
Qed.

(** The parser passes over a text without tags. *)
Lemma parse_text s next :
  brace_free s = true ->
  next = "" \/ (exists r, next = "{{%" +:+ r) ->
  forall lit,
    Ejs.parseTemplateText tags (s +:+ next) 0 lit
    = Ejs.parseTemplateText tags next 0 (lit +:+ s).
Proof.
  intros Hfree Hnext. induction s as [| ch s IH]; intros lit.
  - now rewrite append_nil_l, append_nil_r.
  - rewrite append_cons. cbn [Ejs.parseTemplateText].
    rewrite <- append_cons, (no_tag_inside _ _ Hfree) by (discriminate || assumption).
    rewrite IH by (eapply brace_free_tail; eassumption).
    now rewrite append_assoc.
Qed.

(** The parser on a placeholder. *)
Lemma parse_tag m k next lit :
  Ejs.parseTemplateText tags (tag m k +:+ next) 0 lit
  = Ejs.flush lit
      (match m with Escaped => "{{%=" | Raw => "{{%-" end
       :: key_name k :: "%}}" :: Ejs.parseTemplateText tags next 0 "").
Proof. destruct m, k; reflexivity. Qed.

Lemma tag_opening m k next : exists r, tag m k +:+ next = "{{%" +:+ r.
Proof. destruct m, k; eexists; reflexivity. Qed.

(** The statement a text gives rise to. *)
Lemma generateSource_text s more :
  brace_free s = true -> s <> "" ->
  Ejs.generateSource braces (s :: more) None false
  = match Ejs.generateSource braces more None false with
    | Ok body => Ok (Ejs.Append s :: body)
    | r => r
    end.
Proof.
  intros Hfree Hne. cbn [Ejs.generateSource].
  assert (Ejs.is_opening braces s = false) as ->.
  { unfold Ejs.is_opening. rewrite (brace_free_no_prefix s _ Hfree) by reflexivity.
    reflexivity. }
  cbn [andb].
  assert (Ejs.scanLine braces s None false = ([Ejs.Append s], None, false)) as ->.
  { unfold Ejs.scanLine.
    cbn [Ejs.o Ejs.d Ejs.c Ejs.resolve Ejs.or_default Ejs.openDelimiter Ejs.delimiter
         Ejs.closeDelimiter].
    repeat (rewrite (brace_free_neq s _ Hfree) by reflexivity). cbn [orb].
    unfold Ejs.addOutput. destruct s; [congruence | reflexivity]. }
  now destruct (Ejs.generateSource braces more None false).
Qed.

Lemma generateSource_cons dl line rest m truncate :
  Ejs.generateSource dl (line :: rest) m truncate
  = if Ejs.is_opening dl line && negb (Ejs.is_closing dl (nth_error rest 1))
    then Throw (EjsError ("Could not find matching close tag for "
                          +:+ String "034" line +:+ String "034" "."))
    else
      let '(out, m', t') := Ejs.scanLine dl line m truncate in
      match Ejs.generateSource dl rest m' t' with
      | Ok more => Ok (out ++ more)
      | r => r
      end.
Proof. reflexivity. Qed.

(** The statement a placeholder gives rise to. *)
Lemma generateSource_tag m k more :
  Ejs.generateSource braces
    (match m with Escaped => "{{%=" | Raw => "{{%-" end :: key_name k :: "%}}" :: more)
    None false
  = match Ejs.generateSource braces more None false with
    | Ok body =>
        Ok (match m with
            | Escaped => Ejs.AppendEscaped (key_name k)
            | Raw => Ejs.AppendRaw (key_name k)
            end :: body)
    | r => r
    end.
Proof.
  destruct m, k;
    repeat (rewrite generateSource_cons; lazy -[Ejs.generateSource]);
    now destruct (Ejs.generateSource _ more None false).
Qed.

Lemma generateSource_flush s more :
  brace_free s = true ->
  Ejs.generateSource braces (Ejs.flush s more) None false
  = match Ejs.generateSource braces more None false with
    | Ok body => Ok (match s with EmptyString => body | _ => Ejs.Append s :: body end)
    | r => r
    end.
Proof.
  intros Hfree. destruct s as [| ch s].
  - cbn [Ejs.flush]. now destruct (Ejs.generateSource braces more None false).
  - cbn [Ejs.flush]. now apply generateSource_text.
Qed.

Lemma execute_tag options m k body output :
  Ejs.execute (Template.locals options)
    (match m with
     | Escaped => Ejs.AppendEscaped (key_name k)
     | Raw => Ejs.AppendRaw (key_name k)
     end :: body) output
  = Ejs.execute (Template.locals options) body (output +:+ written options m k).
Proof. destruct m, k; reflexivity. Qed.

Lemma execute_text locals s body output :
  Ejs.execute locals (match s with EmptyString => body | _ => Ejs.Append s :: body end) output
  = Ejs.execute locals body (output +:+ s).
Proof. destruct s; [now rewrite append_nil_r | reflexivity]. Qed.

(** The generated function of a template and what it writes. *)
Lemma template_body options rest : forall head,
  brace_free head = true ->
  forallb (fun piece => brace_free (snd piece)) rest = true ->
  exists body,
    Ejs.generateSource braces
      (Ejs.parseTemplateText tags (template_text head rest) 0 "") None false = Ok body /\
    forall output,
      Ejs.execute (Template.locals options) body output
      = Ok (output +:+ substituted options head rest).
Proof.
  induction rest as [| [[m k] text] rest IH]; intros head Hhead Htexts.
  - cbn [template_text substituted].
    pose proof (parse_text head "" Hhead (or_introl eq_refl) "") as Hparse.
    rewrite append_nil_r, append_nil_l in Hparse. rewrite Hparse.
    cbn [Ejs.parseTemplateText]. rewrite generateSource_flush by assumption.
    cbn [Ejs.generateSource]. eexists. split; [reflexivity |].
    intros output. now rewrite execute_text.
  - cbn [template_text substituted forallb snd] in *.
    apply andb_true_iff in Htexts as [Htext Htexts].
    destruct (IH text Htext Htexts) as (body & Hbody & Hexec).
    rewrite parse_text by (assumption || (right; apply tag_opening)).
    rewrite append_nil_l, parse_tag, generateSource_flush by assumption.
    rewrite generateSource_tag, Hbody.
    eexists. split; [reflexivity |].
    intros output. rewrite execute_text, execute_tag, Hexec.
    now rewrite !append_assoc.
Qed.

Lemma render_template options head rest :
  brace_free head = true ->
  forallb (fun piece => brace_free (snd piece)) rest = true ->
  Js.includes (template_text head rest) "<%_" = false ->
  Js.includes (template_text head rest) "_%>" = false ->
  Template.renderTemplate Ejs.render (template_text head rest) options
  = Ok (substituted options head rest).
Proof.
  intros Hhead Htexts Hbefore Hafter.
  unfold Template.renderTemplate, Template.braces, Ejs.render.
  rewrite slurp_before_plain, append_nil_l by assumption.
  rewrite slurp_after_plain by assumption.
  destruct (template_body options rest head Hhead Htexts) as (body & -> & Hexec).
  rewrite Hexec. now rewrite append_nil_l.
Qed.

(** The parser on an output tag that is opened and not closed. *)
Lemma parse_opening m next lit :
  Ejs.parseTemplateText tags
    (match m with Escaped => "{{%=" | Raw => "{{%-" end +:+ next) 0 lit
  = Ejs.flush lit
      (match m with Escaped => "{{%=" | Raw => "{{%-" end
       :: Ejs.parseTemplateText tags next 0 "").
Proof. destruct m; reflexivity. Qed.

Lemma generateSource_unclosed m s :
  Ejs.generateSource braces
    (match m with Escaped => "{{%=" | Raw => "{{%-" end :: Ejs.flush s []) None false
  = Throw (EjsError ("Could not find matching close tag for "
                     +:+ String "034" (match m with Escaped => "{{%=" | Raw => "{{%-" end)
                     +:+ String "034" ".")).
Proof. destruct m, s; reflexivity. Qed.

Lemma render_unclosed options m head tail :
  brace_free head = true ->
  brace_free tail = true ->
  Js.includes (head +:+ match m with Escaped => "{{%=" | Raw => "{{%-" end +:+ tail) "<%_"
  = false ->
  Js.includes (head +:+ match m with Escaped => "{{%=" | Raw => "{{%-" end +:+ tail) "_%>"
  = false ->
  Template.renderTemplate Ejs.render
    (head +:+ match m with Escaped => "{{%=" | Raw => "{{%-" end +:+ tail) options
  = Throw (ErrorWithCause "Failed to render template"
             (EjsError ("Could not find matching close tag for "
                        +:+ String "034" (match m with Escaped => "{{%=" | Raw => "{{%-" end)
                        +:+ String "034" "."))).
Proof.
  intros Hhead Htail Hbefore Hafter.
  unfold Template.renderTemplate, Template.braces, Ejs.render.
  rewrite slurp_before_plain, append_nil_l by assumption.
  rewrite slurp_after_plain by assumption.
  rewrite parse_text by (assumption || (right; destruct m; eexists; reflexivity)).
  rewrite append_nil_l, parse_opening.
  pose proof (parse_text tail "" Htail (or_introl eq_refl) "") as Hparse.
  rewrite append_nil_r, append_nil_l in Hparse. rewrite Hparse.
  cbn [Ejs.parseTemplateText].
  rewrite generateSource_flush, generateSource_unclosed by assumption.
  reflexivity.
Qed.

End PiecesFacts.

(** X18.  [renderTemplate] replaces every placeholder of a template by the
    value of its name and leaves the text around the placeholders as it is:
    for a template made of texts that hold no tag opening or closing, with
    escaped or raw placeholders for the seven data names between them, the
    result is the same sequence with each escaped placeholder replaced by
    the XML-escaped value and each raw placeholder by the value itself.
    (The template is taken to hold no slurp tag of the default delimiters,
    which the engine handles before it looks for tags.) *)
Theorem X18_renderTemplate_substitutes_placeholders
    (options : GenerateProjectOptions) (head : string)
    (rest : list (Pieces.marker * Pieces.key * string)) :
  Pieces.brace_free head = true ->
  forallb (fun piece => Pieces.brace_free (snd piece)) rest = true ->
  Js.includes (Pieces.template_text head rest) "<%_" = false ->
  Js.includes (Pieces.template_text head rest) "_%>" = false ->
  Template.renderTemplate Ejs.render (Pieces.template_text head rest) options
  = Ok (Pieces.substituted options head rest).
Proof. apply PiecesFacts.render_template. Qed.

Lemma X18_witness :
  Template.renderTemplate Ejs.render
    "{ author: {{%=AUTHOR_NAME%}} <{{%=AUTHOR_EMAIL%}}>, name: {{%-PACKAGE_NAME%}} }"
    Sample.options
  = Ok "{ author:  <>, name: my-app }".
Proof.
  exact (X18_renderTemplate_substitutes_placeholders Sample.options "{ author: "
           [ (Pieces.Escaped, Pieces.AUTHOR_NAME, " <");
             (Pieces.Escaped, Pieces.AUTHOR_EMAIL, ">, name: ");
             (Pieces.Raw, Pieces.PACKAGE_NAME, " }") ]
           eq_refl eq_refl eq_refl eq_refl).
Defined.

(** X19.  A file without placeholders is copied as it is: [renderTemplate]
    returns a text unchanged when the text holds no tag opening, no tag
    closing and no slurp tag.  Double braces alone, as in JSX, do not make
    a tag. *)
Theorem X19_renderTemplate_keeps_plain_text
    (options : GenerateProjectOptions) (content : string) :
  Pieces.brace_free content = true ->
  Js.includes content "<%_" = false ->
  Js.includes content "_%>" = false ->
  Template.renderTemplate Ejs.render content options = Ok content.
Proof.
  intros Hfree Hbefore Hafter.
  now apply (PiecesFacts.render_template options content []).
Qed.

Lemma X19_witness :
  Template.renderTemplate Ejs.render "<div style={{ width: '100%' }} />" Sample.options
  = Ok "<div style={{ width: '100%' }} />".
Proof.
  exact (X19_renderTemplate_keeps_plain_text Sample.options
           "<div style={{ width: '100%' }} />" eq_refl eq_refl eq_refl).
Defined.

(** X20.  An output tag that is opened and never closed makes
    [renderTemplate] throw: for a text without tags, followed by the
    opening of an escaped or raw output tag and by more text without a
    closing, the call throws the error Failed to render template, whose
    cause is the engine's error about the missing close tag. *)
Theorem X20_renderTemplate_unclosed_tag
    (options : GenerateProjectOptions) (m : Pieces.marker) (head tail : string) :
  let opening := match m with Pieces.Escaped => "{{%=" | Pieces.Raw => "{{%-" end in
  Pieces.brace_free head = true ->
  Pieces.brace_free tail = true ->
  Js.includes (head +:+ opening +:+ tail) "<%_" = false ->
  Js.includes (head +:+ opening +:+ tail) "_%>" = false ->
  Template.renderTemplate Ejs.render (head +:+ opening +:+ tail) options
  = Throw (ErrorWithCause "Failed to render template"
             (EjsError ("Could not find matching close tag for "
                        +:+ String "034" opening +:+ String "034" "."))).
Proof. cbv zeta. apply PiecesFacts.render_unclosed. Qed.

Lemma X20_witness :
  Template.renderTemplate Ejs.render "name: {{%= PACKAGE_NAME" Sample.options
  = Throw (ErrorWithCause "Failed to render template"
             (EjsError ("Could not find matching close tag for "
                        +:+ String "034" "{{%=" +:+ String "034" "."))).
Proof.
  exact (X20_renderTemplate_unclosed_tag Sample.options Pieces.Escaped "name: "
           " PACKAGE_NAME" eq_refl eq_refl eq_refl eq_refl).
Defined.
(* ===================================================================== *)
(** ** Names, merged trees and the reach of a copy *)
(* ===================================================================== *)

Module ReachFacts.
Import World Types Spec RunFacts FsFacts TemplateFacts CommandsFacts Reach.
Local Open Scope m_scope.




Section Engine.

Variable ejs_render :
  string -> list (string * value) -> option Ejs.options -> outcome string.
Variable catalog : list entry.
Variable options : GenerateProjectOptions.

Abbreviation renderFileName := (Template.renderFileName ejs_render).
Abbreviation copyEntry := (Template.copyEntry ejs_render options).
Abbreviation copyEntries := (Template.copyEntries ejs_render options).
Abbreviation name_ok := (Spec.name_ok ejs_render options).






(** The two passes of [copyTemplate], when both return. *)
Lemma copyTemplate_passes templatePath targetPath common specific w w' :
  (if Fs.existsSync catalog (Path.join (Path.dirname templatePath) "common")
   then Fs.readdirSync catalog (Path.join (Path.dirname templatePath) "common")
   else Ok []) = Ok common ->
  Fs.readdirSync catalog templatePath = Ok specific ->
  Template.copyTemplate ejs_render catalog templatePath targetPath options w = (Ok tt, w') ->
  exists w1,
    copyEntries common targetPath w = (Ok tt, w1) /\
    copyEntries specific targetPath w1 = (Ok tt, w').
Proof.
  intros Hcommon Hspecific H. unfold Template.copyTemplate in H.
  apply bind_Ok_inv in H as ([] & w1 & H1 & H2).
  exists w1. split.
  - destruct (Fs.existsSync catalog _).
    + unfold Template.copyTemplateFiles in H1. rewrite Hcommon in H1.
      now rewrite (bind_Ok (lift (Ok common)) _ w common w eq_refl) in H1.
    + injection Hcommon as <-. exact H1.
  - unfold Template.copyTemplateFiles in H2. rewrite Hspecific in H2.
    now rewrite (bind_Ok (lift (Ok specific)) _ w1 specific w1 eq_refl) in H2.
Qed.

End Engine.

End ReachFacts.

(** X21.  [renderFileName] changes nothing but the sentinel: a name that
    does not start with a dollar sign and holds no delimiter of the engine's
    default form is returned as it is.  In particular the placeholders of
    [renderTemplate], written with braces, are not replaced in names. *)
Theorem X21_renderFileName_keeps_other_names
    (fileName : string) (options : GenerateProjectOptions) :
  Spec.token_free fileName = true ->
  Js.starts_with fileName "$" = false ->
  Template.renderFileName Ejs.render fileName options = Ok fileName.
Proof.
  intros Hfree Hsentinel. unfold Template.renderFileName.
  assert (Template.strip_sentinel fileName = fileName) as ->.
  { destruct fileName as [| ch rest]; [reflexivity |].
    unfold Js.starts_with in Hsentinel. cbn [Js.strip_prefix] in Hsentinel.
    destruct (Ascii.eqb_spec "$" ch) as [<- | Hne]; [discriminate Hsentinel |].
    destruct ch as [[] [] [] [] [] [] [] []]; try reflexivity. now elim Hne. }
  rewrite EjsFacts.render_token_free;
    [reflexivity | assumption | apply RenderFacts.options_object_no_engine_options].
Qed.

Lemma X21_witness :
  Template.renderFileName Ejs.render "{{%=PACKAGE_NAME%}}.config.js" Sample.options
  = Ok "{{%=PACKAGE_NAME%}}.config.js".
Proof.
  exact (X21_renderFileName_keeps_other_names "{{%=PACKAGE_NAME%}}.config.js"
           Sample.options eq_refl eq_refl).
Defined.

(** X22.  When [copyTemplate] returns, the destination holds the merge of
    the two trees: at every path, the text that the common tree followed by
    the specific tree wrote there last.  So a file that only the common
    tree renders is in the result with the common text, and a file of the
    destination that neither tree writes is left as it was. *)
Theorem X22_copyTemplate_merges_the_trees
    (ejs_render : string -> list (string * value) -> option Ejs.options -> outcome string)
    (catalog : list entry) (templatePath targetPath : list string)
    (options : GenerateProjectOptions) (common specific : list entry) (w w' : world) :
  (if Fs.existsSync catalog (Path.join (Path.dirname templatePath) "common")
   then Fs.readdirSync catalog (Path.join (Path.dirname templatePath) "common")
   else Ok []) = Ok common ->
  Fs.readdirSync catalog templatePath = Ok specific ->
  Template.copyTemplate ejs_render catalog templatePath targetPath options w = (Ok tt, w') ->
  let from_common := Spec.rendered ejs_render options common targetPath in
  let from_specific := Spec.rendered ejs_render options specific targetPath in
  Spec.settled (from_common ++ from_specific) w w' /\
  (forall p text,
     Spec.last_write p from_specific = None ->
     Spec.last_write p from_common = Some text ->
     World.files w' !! p = Some (FileNode text)) /\
  (forall p text,
     Spec.last_write p from_specific = None ->
     Spec.last_write p from_common = None ->
     World.files w !! p = Some (FileNode text) ->
     World.files w' !! p = Some (FileNode text)).
Proof.
  intros Hcommon Hspecific Hrun. cbv zeta.
  destruct (ReachFacts.copyTemplate_passes ejs_render catalog options templatePath targetPath
              common specific w w' Hcommon Hspecific Hrun) as (w1 & H1 & H2).
  assert (Hsettled :
    Spec.settled (Spec.rendered ejs_render options common targetPath
                  ++ Spec.rendered ejs_render options specific targetPath) w w').
  { eapply TemplateFacts.settled_app; eapply TemplateFacts.copyEntries_settled; eassumption. }
  split; [exact Hsettled |]. split.
  - intros p text Hs Hc. specialize (Hsettled p).
    now rewrite TemplateFacts.last_write_app, Hs, Hc in Hsettled.
  - intros p text Hs Hc Hw. specialize (Hsettled p).
    rewrite TemplateFacts.last_write_app, Hs, Hc in Hsettled. now apply Hsettled.
Qed.

Lemma X22_witness :
  let run :=
    Template.copyTemplate Ejs.render Reach.catalog_licence Sample.templatePath
      (Types.targetPath Sample.options) Sample.options Sample.world0 in
  World.files (snd run) !! ["work"; "my-app"; "LICENSE"] = Some (FileNode "MIT, ") /\
  World.files (snd run) !! ["work"] = Some DirNode.
Proof.
  cbv zeta. split; [| vm_compute; reflexivity].
  refine (proj1 (proj2 (X22_copyTemplate_merges_the_trees Ejs.render Reach.catalog_licence
            Sample.templatePath (Types.targetPath Sample.options) Sample.options
            [ File "LICENSE" "MIT, {{%=AUTHOR_NAME%}}";
              File "README.md" "# Common {{%=PACKAGE_NAME%}}" ]
            [ File "README.md" "# TS {{%=PACKAGE_NAME%}}" ]
            Sample.world0
            (snd (Template.copyTemplate Ejs.render Reach.catalog_licence Sample.templatePath
                    (Types.targetPath Sample.options) Sample.options Sample.world0))
            _ _ _)) ["work"; "my-app"; "LICENSE"] "MIT, " _ _).
  - vm_compute. reflexivity.
  - vm_compute. reflexivity.
  - vm_compute. reflexivity.
  - vm_compute. reflexivity.
  - vm_compute. reflexivity.
Defined.



(* ===================================================================== *)
(** ** A file where a directory is due, and the reverse *)
(* ===================================================================== *)

Module ConflictFacts.
Import World Types Spec RunFacts.
Local Open Scope m_scope.

Lemma mkdirp_blocked rest : forall fs done d content,
  Fs.walk fs done rest = None ->
  fs !! (done ++ rest ++ [d]) = Some (FileNode content) ->
  Fs.mkdirp fs done (rest ++ [d]) = inl EEXIST.
Proof.
  induction rest as [| n rest IH]; intros fs done d content Hwalk Hfile.
  - cbn in *. now rewrite Hfile.
  - cbn [Fs.walk] in Hwalk. cbn [app Fs.mkdirp].
    destruct (fs !! (done ++ [n])) as [[c |] |]; try discriminate Hwalk.
    apply (IH fs (done ++ [n]) d content Hwalk).
    now rewrite <- app_assoc.
Qed.

Lemma writeFileSync_blocked targetPath d text w :
  Fs.walk (files w) [] targetPath = None ->
  files w !! (targetPath ++ [d]) = Some DirNode ->
  Fs.writeFileSync (targetPath ++ [d]) text w
  = (Throw (SystemError EISDIR "open" (targetPath ++ [d])), w).
Proof.
  intros Hwalk Hdir.
  assert (exists x l, targetPath ++ [d] = x :: l) as (x & l & E).
  { destruct targetPath as [| x l]; eexists _, _; reflexivity. }
  unfold Fs.writeFileSync. rewrite E. cbv iota. rewrite <- E.
  now rewrite removelast_last, Hwalk, Hdir.
Qed.

End ConflictFacts.

(** X24.  The copier does not replace a file by a directory or a directory
    by a file.  In an existing target directory, a directory entry whose
    destination is a file makes the copy throw the EEXIST error of mkdir,
    and a file entry whose destination is a directory makes it throw the
    EISDIR error of the write; in both cases the entry changes nothing. *)
Theorem X24_copyEntry_type_conflicts
    (ejs_render : string -> list (string * value) -> option Ejs.options -> outcome string)
    (options : GenerateProjectOptions) (targetPath : list string) (n d : string)
    (w : world) :
  Fs.walk (World.files w) [] targetPath = None ->
  Template.renderFileName ejs_render n options = Ok d ->
  Spec.component d = true ->
  (forall children,
     Spec.is_file w (targetPath ++ [d]) ->
     Template.copyEntry ejs_render options (Directory n children) targetPath w
     = (Throw (SystemError EEXIST "mkdir" (targetPath ++ [d])), w)) /\
  (forall content text,
     Spec.is_dir w (targetPath ++ [d]) ->
     Template.renderTemplate ejs_render content options = Ok text ->
     Template.copyEntry ejs_render options (File n content) targetPath w
     = (Throw (SystemError EISDIR "open" (targetPath ++ [d])), w)).
Proof.
  intros Hwalk Hname Hd. split.
  - intros children [content Hfile].
    rewrite TemplateFacts.copyEntry_Directory, Hname.
    rewrite (RunFacts.bind_Ok (World.lift (Ok d)) _ w d w eq_refl).
    rewrite (PathFacts.join_component _ _ Hd).
    apply RunFacts.bind_Throw. unfold Fs.mkdirSync.
    now rewrite (ConflictFacts.mkdirp_blocked targetPath _ [] d content Hwalk Hfile).
  - intros content text Hdir Htext.
    rewrite TemplateFacts.copyEntry_File, Hname.
    rewrite (RunFacts.bind_Ok (World.lift (Ok d)) _ w d w eq_refl).
    rewrite Htext.
    rewrite (RunFacts.bind_Ok (World.lift (Ok text)) _ w text w eq_refl).
    rewrite (PathFacts.join_component _ _ Hd).
    now apply ConflictFacts.writeFileSync_blocked.
Qed.

Lemma X24_witness :
  Template.copyEntry Ejs.render Sample.options
    (Directory "src" [File "index.ts" "export {}"]) ["work"; "my-app"] Reach.world_with_file
  = (Throw (SystemError EEXIST "mkdir" ["work"; "my-app"; "src"]), Reach.world_with_file).
Proof.
  refine (proj1 (X24_copyEntry_type_conflicts Ejs.render Sample.options ["work"; "my-app"]
                   "src" "src" Reach.world_with_file _ _ _) [File "index.ts" "export {}"] _).
  - vm_compute. reflexivity.
  - reflexivity.
  - reflexivity.
  - exists "". vm_compute. reflexivity.
Defined.
